(** * The <CKEditor> React component and its watchdog adapter

    A shallow embedding of [src/ckeditor.jsx]: the [CKEditor] component
    (its [editor] accessor, the React lifecycle hooks and the private
    helpers) and the [EditorWatchdogAdapter] class, together with the
    contracts of the collaborators the file calls into (the editor engine,
    [EditorWatchdog], [ContextWatchdog], [setTimeout], [uid]).

    JavaScript code is written in a state-and-exception monad over a
    [World] that holds the component instance, the objects it allocated,
    the shared context watchdog, the editors of the engine, the timer
    queue and the log of calls that cross the component's boundary. *)

From Stdlib Require Import ZArith.
From stdpp Require Import base option list functions gmap strings.

Open Scope string_scope.
Open Scope list_scope.

(** ** JavaScript values *)

Inductive jsval :=
  | JUndefined
  | JNull
  | JBool (b : bool)
  | JNum (n : Z)
  | JStr (s : string)
  | JObj (r : nat).

#[global] Instance jsval_eq_dec : EqDecision jsval.
Proof. solve_decision. Defined.

(** ToBoolean. *)
Definition truthy (v : jsval) : bool :=
  match v with
  | JUndefined | JNull => false
  | JBool b => b
  | JNum n => negb (n =? 0)%Z
  | JStr s => negb (String.eqb s "")
  | JObj _ => true
  end.

(** [a || b] and [a && b]. *)
Definition js_or (a b : jsval) : jsval := if truthy a then a else b.
Definition js_and (a b : jsval) : jsval := if truthy a then b else a.

(** A plain object used as a bag of options. *)
Abbreviation Config := (gmap string jsval).

(** [o.k]: a missing key reads as [undefined]. *)
Definition get_field (o : Config) (k : string) : jsval :=
  default JUndefined (o !! k).

(** ** Identifiers *)

Definition handle := nat.   (* an editor instance of the engine *)
Definition uid := nat.      (* a token returned by [uid()] *)
Definition wref := nat.     (* a watchdog object allocated by the component *)
Definition error := nat.    (* an error value *)

(** ** Props and context *)

(** The props the component reads.  [p_data] and [p_id] are [None] when the
    prop is [undefined]; [p_disabled] is [Some b] when the key is present;
    the [p_on*] flags say whether the callback prop is supplied.  [config]
    is taken to be an object and [onError] a function, as [defaultProps]
    makes them when the caller leaves them out; [null] for either is not
    represented. *)
Record Props := {
  p_id : option string;
  p_data : option string;
  p_config : Config;
  p_disabled : option bool;
  p_onChange : bool;
  p_onFocus : bool;
  p_onBlur : bool;
  p_onReady : bool
}.

Definition data_val (p : Props) : jsval :=
  match p_data p with Some s => JStr s | None => JUndefined end.

(** The value of [this.context]: a [ContextWatchdog] instance or anything
    else (the context's default value, or [null]). *)
Inductive CtxValue := PlainContext | ContextWatchdog.

#[global] Instance CtxValue_eq_dec : EqDecision CtxValue.
Proof. solve_decision. Defined.

Definition instanceof_ContextWatchdog (c : CtxValue) : bool :=
  match c with ContextWatchdog => true | PlainContext => false end.

(** ** Closures of the source, defunctionalised *)

(** [( el, config ) => this._createEditor( el, config )], line 97. *)
Inductive Creator := CreateEditorClosure.

(** [( _, { error, causesRestart } ) => this.props.onError( ... )], line 99. *)
Inductive Callback := RuntimeErrorCallback.

(** The arrow function passed to [setTimeout], lines 148-152. *)
Inductive Task := ReadyTask.

(** The three events of an editor the component listens to. *)
Inductive EvKind := ChangeData | Focus | Blur.

#[global] Instance EvKind_eq_dec : EqDecision EvKind.
Proof. solve_decision. Defined.

(** The payload of the context watchdog's [itemError] event. *)
Record ItemErrorEvent := {
  itemId : uid;
  causesRestart : bool;
  ev_error : error
}.

(** The listener [EditorWatchdogAdapter.on] registers, lines 262-266: it
    closes over the adapter's [_id] and the callback it was given. *)
Record Listener := {
  l_id : uid;
  l_callback : Callback
}.

(** ** Collaborators' state *)

(** What a supervisor knows about one supervised editor. *)
Record Slot := {
  s_registered : bool;         (* registry only: [getItem] finds the item *)
  s_creator : option Creator;  (* the function given to [setCreator]/[add] *)
  s_creating : bool;           (* a call of the creator is in flight *)
  s_pending : bool;            (* the promise of [create]/[add] is unsettled *)
  s_config : Config;           (* the configuration given to [create] *)
  s_editor : option handle;    (* the supervised instance *)
  s_destroyed : bool
}.

Definition blank_slot : Slot :=
  {| s_registered := false; s_creator := None; s_creating := false;
     s_pending := false; s_config := ∅; s_editor := None;
     s_destroyed := false |}.

(** An [EditorWatchdog] instance. *)
Record SoloWatchdog := {
  ew_listeners : list Callback;
  ew_slot : Slot
}.

Definition new_solo : SoloWatchdog :=
  {| ew_listeners := []; ew_slot := blank_slot |}.

(** An [EditorWatchdogAdapter] instance: its fields [_id] and [_creator]
    ([_contextWatchdog] is the one shared context watchdog). *)
Record EditorWatchdogAdapter := {
  _id : uid;
  _creator : option Creator
}.

Inductive WatchdogObj :=
  | Solo (s : SoloWatchdog)
  | Adapter (a : EditorWatchdogAdapter).

Record EditorState := {
  ed_data : string;
  ed_isReadOnly : bool;
  ed_listeners : list EvKind
}.

Definition blank_editor : EditorState :=
  {| ed_data := ""; ed_isReadOnly := false; ed_listeners := [] |}.

(** ** Calls that cross the component's boundary *)

Inductive ErrorPhase := Initialization | Runtime.

Inductive Effect :=
  | ConsoleWarn
  | WatchdogCreate (r : wref) (cfg : Config)
  | WatchdogDestroy (r : wref)
  | ContextAdd (id : uid) (cfg : Config)
  | ContextRemove (id : uid)
  | EngineCreated (h : handle)
  | SetData (h : handle) (d : option string)
  | SetReadOnly (h : handle) (b : bool)
  | Attach (h : handle) (k : EvKind)
  | OnReady (arg : option handle)
  | OnError (e : error) (ph : ErrorPhase) (willEditorRestart : bool)
  | OnChange (h : handle)
  | OnFocus (h : handle)
  | OnBlur (h : handle).

#[global] Instance ErrorPhase_eq_dec : EqDecision ErrorPhase.
Proof. solve_decision. Defined.

#[global] Instance Effect_eq_dec : EqDecision Effect.
Proof. solve_decision. Defined.

(** ** The world *)

Record World := {
  (* the component instance *)
  props : Props;
  context : CtxValue;
  watchdog : option wref;
  (* the watchdog objects it allocated *)
  heap : wref → WatchdogObj;
  next_ref : wref;
  (* the shared context watchdog *)
  cw_items : uid → Slot;
  cw_listeners : list Listener;
  next_uid : uid;
  (* the engine *)
  editors : handle → EditorState;
  (* the event loop and the log *)
  timers : list Task;
  trace : list Effect
}.

Definition set_props (p : Props) (w : World) : World :=
  {| props := p; context := context w; watchdog := watchdog w;
     heap := heap w; next_ref := next_ref w; cw_items := cw_items w;
     cw_listeners := cw_listeners w; next_uid := next_uid w;
     editors := editors w; timers := timers w; trace := trace w |}.

Definition set_context (c : CtxValue) (w : World) : World :=
  {| props := props w; context := c; watchdog := watchdog w;
     heap := heap w; next_ref := next_ref w; cw_items := cw_items w;
     cw_listeners := cw_listeners w; next_uid := next_uid w;
     editors := editors w; timers := timers w; trace := trace w |}.

Definition set_watchdog (o : option wref) (w : World) : World :=
  {| props := props w; context := context w; watchdog := o;
     heap := heap w; next_ref := next_ref w; cw_items := cw_items w;
     cw_listeners := cw_listeners w; next_uid := next_uid w;
     editors := editors w; timers := timers w; trace := trace w |}.

Definition set_heap (r : wref) (o : WatchdogObj) (w : World) : World :=
  {| props := props w; context := context w; watchdog := watchdog w;
     heap := <[r := o]> (heap w); next_ref := next_ref w;
     cw_items := cw_items w; cw_listeners := cw_listeners w;
     next_uid := next_uid w; editors := editors w; timers := timers w;
     trace := trace w |}.

Definition set_next_ref (n : wref) (w : World) : World :=
  {| props := props w; context := context w; watchdog := watchdog w;
     heap := heap w; next_ref := n; cw_items := cw_items w;
     cw_listeners := cw_listeners w; next_uid := next_uid w;
     editors := editors w; timers := timers w; trace := trace w |}.

Definition set_item (i : uid) (s : Slot) (w : World) : World :=
  {| props := props w; context := context w; watchdog := watchdog w;
     heap := heap w; next_ref := next_ref w;
     cw_items := <[i := s]> (cw_items w); cw_listeners := cw_listeners w;
     next_uid := next_uid w; editors := editors w; timers := timers w;
     trace := trace w |}.

Definition set_cw_listeners (ls : list Listener) (w : World) : World :=
  {| props := props w; context := context w; watchdog := watchdog w;
     heap := heap w; next_ref := next_ref w; cw_items := cw_items w;
     cw_listeners := ls; next_uid := next_uid w;
     editors := editors w; timers := timers w; trace := trace w |}.

Definition set_next_uid (n : uid) (w : World) : World :=
  {| props := props w; context := context w; watchdog := watchdog w;
     heap := heap w; next_ref := next_ref w; cw_items := cw_items w;
     cw_listeners := cw_listeners w; next_uid := n;
     editors := editors w; timers := timers w; trace := trace w |}.

Definition set_editor (h : handle) (e : EditorState) (w : World) : World :=
  {| props := props w; context := context w; watchdog := watchdog w;
     heap := heap w; next_ref := next_ref w; cw_items := cw_items w;
     cw_listeners := cw_listeners w; next_uid := next_uid w;
     editors := <[h := e]> (editors w); timers := timers w;
     trace := trace w |}.

Definition set_timers (ts : list Task) (w : World) : World :=
  {| props := props w; context := context w; watchdog := watchdog w;
     heap := heap w; next_ref := next_ref w; cw_items := cw_items w;
     cw_listeners := cw_listeners w; next_uid := next_uid w;
     editors := editors w; timers := ts; trace := trace w |}.

Definition log (e : Effect) (w : World) : World :=
  {| props := props w; context := context w; watchdog := watchdog w;
     heap := heap w; next_ref := next_ref w; cw_items := cw_items w;
     cw_listeners := cw_listeners w; next_uid := next_uid w;
     editors := editors w; timers := timers w; trace := trace w ++ [e] |}.

(** ** The monad of JavaScript code *)

Inductive Exn :=
  | TypeError                   (* a property of [null] was read *)
  | NotRegistered (i : uid).    (* [getItem] on an unknown id *)

Inductive Result (A : Type) :=
  | Ok (a : A)
  | Throw (e : Exn).
Arguments Ok {A} a.
Arguments Throw {A} e.

Definition M (A : Type) : Type := World → Result (A * World).

#[global] Instance M_ret : MRet M := λ A a w, Ok (a, w).
#[global] Instance M_bind : MBind M := λ A B f m w,
  match m w with
  | Ok (a, w') => f a w'
  | Throw e => Throw e
  end.

Definition gets {A} (f : World → A) : M A := λ w, Ok (f w, w).
Definition modify (f : World → World) : M unit := λ w, Ok (tt, f w).
Definition throw {A} (e : Exn) : M A := λ _, Throw e.
Definition emit (e : Effect) : M unit := modify (log e).
Definition skip : M unit := mret tt.

(** [try { body } catch ( err ) { handler }].  The one [try] of the source
    wraps a read, so the handler starts from the world the body started
    from. *)
Definition try_catch {A} (body : M A) (handler : Exn → M A) : M A := λ w,
  match body w with
  | Ok r => Ok r
  | Throw e => handler e w
  end.

(** Reading a member of a possibly-[null] reference. *)
Definition deref {A} (o : option A) : M A :=
  match o with
  | Some a => mret a
  | None => throw TypeError
  end.

(** The world a computation ends in, when it returns. *)
Definition exec {A} (m : M A) (w : World) : Result World :=
  match m w with
  | Ok (_, w') => Ok w'
  | Throw e => Throw e
  end.

(** ** The collaborators' contracts *)

(** The watchdogs, the engine, [setTimeout] and [uid] are not code of this
    repository.  The model gives them the behaviour the component relies
    on:
    - a watchdog calls the creator it was given when [create] is called and
      again when it restarts a crashed editor, then with [initialData] set
      to the data it saved from the crashed editor; it keeps the editor the
      creator's promise resolves with: an [EditorWatchdog] even when it was
      destroyed meanwhile, the registry not for an item removed meanwhile;
    - a destroyed [EditorWatchdog] reports no error;
    - the promise [create] returns rejects when the creator's promise does;
    - [destroy] (and [remove] in the registry) drops the editor and does
      not throw;
    - [getItem] throws for an id under which no live item is registered;
    - [uid] never returns a token twice;
    - timer tasks run one at a time, oldest first, between the steps of
      the component;
    - React skips [shouldComponentUpdate] when the value of the context
      changed ([contextType], line 289): it re-renders and calls
      [componentDidUpdate]. *)

(** *** Slots *)

Definition slot_set_creator (c : Creator) (s : Slot) : Slot :=
  {| s_registered := s_registered s; s_creator := Some c;
     s_creating := s_creating s; s_pending := s_pending s;
     s_config := s_config s; s_editor := s_editor s;
     s_destroyed := s_destroyed s |}.

(** [create( el, config )] was called: the creator runs, the promise is
    pending. *)
Definition slot_create (cfg : Config) (s : Slot) : Slot :=
  {| s_registered := s_registered s; s_creator := s_creator s;
     s_creating := true; s_pending := true;
     s_config := cfg; s_editor := s_editor s;
     s_destroyed := s_destroyed s |}.

(** The creator's promise resolved with [h]: an [EditorWatchdog] keeps the
    instance, also when [destroy] was called on it in the meantime. *)
Definition slot_resolve (h : handle) (s : Slot) : Slot :=
  {| s_registered := negb (s_destroyed s); s_creator := s_creator s;
     s_creating := false; s_pending := false;
     s_config := s_config s;
     s_editor := Some h;
     s_destroyed := s_destroyed s |}.

(** The same for an item of the registry: [remove] waits for the creation
    and then destroys the item, which is no longer registered. *)
Definition item_resolve (h : handle) (s : Slot) : Slot :=
  {| s_registered := negb (s_destroyed s); s_creator := s_creator s;
     s_creating := false; s_pending := false;
     s_config := s_config s;
     s_editor := if s_destroyed s then None else Some h;
     s_destroyed := s_destroyed s |}.

Definition slot_reject (s : Slot) : Slot :=
  {| s_registered := s_registered s; s_creator := s_creator s;
     s_creating := false; s_pending := false;
     s_config := s_config s; s_editor := s_editor s;
     s_destroyed := s_destroyed s |}.

(** The supervised editor crashed and the supervisor restarts it: the
    instance is dropped and the creator is called again, with the saved
    data [d] for [initialData]. *)
Definition slot_restart (d : string) (s : Slot) : Slot :=
  {| s_registered := s_registered s; s_creator := s_creator s;
     s_creating := true; s_pending := s_pending s;
     s_config := <["initialData" := JStr d]> (s_config s); s_editor := None;
     s_destroyed := s_destroyed s |}.

Definition slot_destroy (s : Slot) : Slot :=
  {| s_registered := false; s_creator := s_creator s;
     s_creating := s_creating s; s_pending := s_pending s;
     s_config := s_config s; s_editor := None;
     s_destroyed := true |}.

(** *** [EditorWatchdog] *)

Definition solo_with_slot (f : Slot → Slot) (s : SoloWatchdog) : SoloWatchdog :=
  {| ew_listeners := ew_listeners s; ew_slot := f (ew_slot s) |}.

Definition solo_setCreator (r : wref) (s : SoloWatchdog) (c : Creator) : M unit :=
  modify (set_heap r (Solo (solo_with_slot (slot_set_creator c) s))).

Definition solo_on (r : wref) (s : SoloWatchdog) (cb : Callback) : M unit :=
  modify (set_heap r (Solo {| ew_listeners := ew_listeners s ++ [cb];
                              ew_slot := ew_slot s |})).

Definition solo_create (r : wref) (s : SoloWatchdog) (cfg : Config) : M unit :=
  modify (set_heap r (Solo (solo_with_slot (slot_create cfg) s))).

Definition solo_destroy (r : wref) (s : SoloWatchdog) : M unit :=
  modify (set_heap r (Solo (solo_with_slot slot_destroy s))).

Definition solo_editor (s : SoloWatchdog) : option handle :=
  s_editor (ew_slot s).

(** *** [ContextWatchdog] *)

(** [add( { sourceElementOrData, config, creator, id, type } )]: the item
    gets a supervisor of its own, which is not registered until the item
    is live. *)
Definition cw_add (i : uid) (cfg : Config) (c : option Creator) : M unit :=
  emit (ContextAdd i cfg) ;;
  modify (set_item i
    {| s_registered := false; s_creator := c; s_creating := true;
       s_pending := true; s_config := cfg; s_editor := None;
       s_destroyed := false |}).

Definition cw_remove (i : uid) : M unit :=
  emit (ContextRemove i) ;;
  modify (λ w, set_item i (slot_destroy (cw_items w i)) w).

(** [getItem( id )] throws when no item is registered under the id. *)
Definition cw_getItem (i : uid) : M (option handle) := λ w,
  if s_registered (cw_items w i)
  then Ok (s_editor (cw_items w i), w)
  else Throw (NotRegistered i).

Definition cw_on (l : Listener) : M unit :=
  modify (λ w, set_cw_listeners (cw_listeners w ++ [l]) w).

(** *** The engine's editors *)

Definition editor_getData (h : handle) : M string :=
  gets (λ w, ed_data (editors w h)).

Definition editor_setData (h : handle) (d : option string) : M unit :=
  emit (SetData h d) ;;
  modify (λ w, set_editor h
    {| ed_data := default "" d; ed_isReadOnly := ed_isReadOnly (editors w h);
       ed_listeners := ed_listeners (editors w h) |} w).

Definition editor_set_isReadOnly (h : handle) (b : bool) : M unit :=
  emit (SetReadOnly h b) ;;
  modify (λ w, set_editor h
    {| ed_data := ed_data (editors w h); ed_isReadOnly := b;
       ed_listeners := ed_listeners (editors w h) |} w).

Definition editor_on (h : handle) (k : EvKind) : M unit :=
  emit (Attach h k) ;;
  modify (λ w, set_editor h
    {| ed_data := ed_data (editors w h);
       ed_isReadOnly := ed_isReadOnly (editors w h);
       ed_listeners := ed_listeners (editors w h) ++ [k] |} w).

(** *** [setTimeout], [uid], [new] *)

Definition setTimeout (t : Task) : M unit :=
  modify (λ w, set_timers (timers w ++ [t]) w).

Definition uid_fresh : M uid := λ w,
  Ok (next_uid w, set_next_uid (S (next_uid w)) w).

Definition alloc (o : WatchdogObj) : M wref := λ w,
  Ok (next_ref w, set_next_ref (S (next_ref w)) (set_heap (next_ref w) o w)).

(** ** [class EditorWatchdogAdapter] *)

(** [constructor( contextWatchdog )], lines 218-227. *)
Definition new_EditorWatchdogAdapter : M wref :=
  i ← uid_fresh;
  alloc (Adapter {| _id := i; _creator := None |}).

(** [setCreator( creator )], lines 232-234. *)
Definition adapter_setCreator (r : wref) (a : EditorWatchdogAdapter)
    (c : Creator) : M unit :=
  modify (set_heap r (Adapter {| _id := _id a; _creator := Some c |})).

(** [create( sourceElementOrData, config )], lines 243-251. *)
Definition adapter_create (a : EditorWatchdogAdapter) (cfg : Config) : M unit :=
  cw_add (_id a) cfg (_creator a).

Definition run_callback (cb : Callback) (e : error) (restart : bool) : M unit :=
  match cb with
  | RuntimeErrorCallback => emit (OnError e Runtime restart)
  end.

(** The listener of line 262, called with the payload of an [itemError]. *)
Definition run_listener (l : Listener) (ev : ItemErrorEvent) : M unit :=
  if decide (itemId ev = l_id l)
  then run_callback (l_callback l) (ev_error ev) (causesRestart ev)
  else skip.

(** [on( _, callback )], lines 260-267. *)
Definition adapter_on (a : EditorWatchdogAdapter) (cb : Callback) : M unit :=
  cw_on {| l_id := _id a; l_callback := cb |}.

(** [destroy()], lines 272-274. *)
Definition adapter_destroy (a : EditorWatchdogAdapter) : M unit :=
  cw_remove (_id a).

(** [get editor()], lines 279-286. *)
Definition adapter_editor (a : EditorWatchdogAdapter) : M (option handle) :=
  try_catch (cw_getItem (_id a)) (λ _, mret None).

(** ** Calls on [this.watchdog], of either class *)

(** A method call on [this.watchdog] runs the method of the object's
    class; the calls [create] and [destroy] are logged. *)

(** [new EditorWatchdog( arg )]; the model does not use the argument. *)
Definition new_EditorWatchdog (arg : option handle) : M wref :=
  alloc (Solo new_solo).

Definition watchdog_setCreator (r : wref) (c : Creator) : M unit :=
  o ← gets (λ w, heap w r);
  match o with
  | Solo s => solo_setCreator r s c
  | Adapter a => adapter_setCreator r a c
  end.

Definition watchdog_on (r : wref) (cb : Callback) : M unit :=
  o ← gets (λ w, heap w r);
  match o with
  | Solo s => solo_on r s cb
  | Adapter a => adapter_on a cb
  end.

Definition watchdog_create (r : wref) (cfg : Config) : M unit :=
  emit (WatchdogCreate r cfg) ;;
  o ← gets (λ w, heap w r);
  match o with
  | Solo s => solo_create r s cfg
  | Adapter a => adapter_create a cfg
  end.

Definition watchdog_destroy (r : wref) : M unit :=
  emit (WatchdogDestroy r) ;;
  o ← gets (λ w, heap w r);
  match o with
  | Solo s => solo_destroy r s
  | Adapter a => adapter_destroy a
  end.

Definition watchdog_editor (r : wref) : M (option handle) :=
  o ← gets (λ w, heap w r);
  match o with
  | Solo s => mret (solo_editor s)
  | Adapter a => adapter_editor a
  end.

(** ** [class CKEditor] *)

(** [get editor()], lines 32-38. *)
Definition editor : M (option handle) :=
  wd ← gets watchdog;
  match wd with
  | None => mret None
  | Some r => watchdog_editor r
  end.

(** [_getConfig()], lines 195-208. *)
Definition _getConfig : M Config :=
  p ← gets props;
  let initialData := get_field (p_config p) "initialData" in
  (if truthy (js_and (data_val p) initialData) then emit ConsoleWarn else skip) ;;
  mret (<["initialData" := js_or (js_or initialData (data_val p)) (JStr "")]>
          (p_config p)).

(** [_shouldUpdateEditor( nextProps )], lines 178-193. *)
Definition _shouldUpdateEditor (nextProps : Props) : M bool :=
  p ← gets props;
  if decide (p_data p = p_data nextProps) then mret false
  else
    ed ← editor;
    h ← deref ed;
    d ← editor_getData h;
    if decide (Some d = p_data nextProps) then mret false
    else mret true.

(** [_destroyEditor()], lines 161-170. *)
Definition _destroyEditor : M unit :=
  wd ← gets watchdog;
  if negb (bool_decide (is_Some wd)) then skip
  else
    r ← deref wd;
    watchdog_destroy r ;;
    modify (set_watchdog None).

(** The callback given to [.then] in [_createEditor], lines 116-155; the
    element and the configuration go to the engine unchanged. *)
Definition created (h : handle) : M unit :=
  p ← gets props;
  match p_disabled p with
  | Some b => editor_set_isReadOnly h b
  | None => skip
  end ;;
  editor_on h ChangeData ;;
  editor_on h Focus ;;
  editor_on h Blur ;;
  setTimeout ReadyTask.

(** The listeners attached by [created], lines 124-143. *)
Definition forward (k : EvKind) (h : handle) : M unit :=
  p ← gets props;
  match k with
  | ChangeData => if p_onChange p then emit (OnChange h) else skip
  | Focus => if p_onFocus p then emit (OnFocus h) else skip
  | Blur => if p_onBlur p then emit (OnBlur h) else skip
  end.

(** The function given to [setTimeout], lines 148-152. *)
Definition run_task (t : Task) : M unit :=
  match t with
  | ReadyTask =>
      p ← gets props;
      if p_onReady p then
        ed ← editor;
        emit (OnReady ed)
      else skip
  end.

(** The handler given to [.catch], line 104. *)
Definition create_failed (e : error) : M unit :=
  emit (OnError e Initialization false).

(** [_initializeEditor()], lines 90-105.  [new EditorWatchdog( this.editor )]
    reads the accessor for its argument; the [.catch] handler of line 104 is
    [create_failed]. *)
Definition _initializeEditor : M unit :=
  c ← gets context;
  r ← (if instanceof_ContextWatchdog c then new_EditorWatchdogAdapter
       else ed ← editor; new_EditorWatchdog ed);
  modify (set_watchdog (Some r)) ;;
  wd ← gets watchdog;
  r1 ← deref wd;
  watchdog_setCreator r1 CreateEditorClosure ;;
  wd ← gets watchdog;
  r2 ← deref wd;
  watchdog_on r2 RuntimeErrorCallback ;;
  wd ← gets watchdog;
  r3 ← deref wd;
  cfg ← _getConfig;
  watchdog_create r3 cfg.

(** [shouldComponentUpdate( nextProps )], lines 42-63. *)
Definition shouldComponentUpdate (nextProps : Props) : M bool :=
  ed ← editor;
  if negb (bool_decide (is_Some ed)) then mret false
  else
    p ← gets props;
    if negb (bool_decide (p_id nextProps = p_id p)) then
      _destroyEditor ;;
      mret true
    else
      b ← _shouldUpdateEditor nextProps;
      (if b : bool then
         ed ← editor;
         h ← deref ed;
         editor_setData h (p_data nextProps)
       else skip) ;;
      match p_disabled nextProps with
      | Some dis =>
          ed ← editor;
          h ← deref ed;
          editor_set_isReadOnly h dis
      | None => skip
      end ;;
      mret false.

(** The hooks of lines 66-78. *)
Definition componentDidMount : M unit := _initializeEditor.
Definition componentDidUpdate : M unit := _initializeEditor.
Definition componentWillUnmount : M unit := _destroyEditor.

(** ** The host and the environment *)

Fixpoint for_each {A} (f : A → M unit) (l : list A) : M unit :=
  match l with
  | [] => skip
  | a :: l' => f a ;; for_each f l'
  end.

(** The slot that supervises the editor of watchdog [r]. *)
Definition slot_of (r : wref) (w : World) : Slot :=
  match heap w r with
  | Solo s => ew_slot s
  | Adapter a => cw_items w (_id a)
  end.

Definition update_slot (r : wref) (f : Slot → Slot) : M unit :=
  modify (λ w,
    match heap w r with
    | Solo s => set_heap r (Solo (solo_with_slot f s)) w
    | Adapter a => set_item (_id a) (f (cw_items w (_id a))) w
    end).

(** The engine takes an editor's first content from [config.initialData]. *)
Definition initial_content (cfg : Config) : string :=
  match get_field cfg "initialData" with
  | JStr s => s
  | _ => ""
  end.

Definition run_creator_then (c : Creator) (h : handle) : M unit :=
  match c with
  | CreateEditorClosure => created h
  end.

(** What the supervisor of watchdog object [o] does with a new instance. *)
Definition resolve_of (o : WatchdogObj) (h : handle) : Slot → Slot :=
  match o with
  | Solo _ => slot_resolve h
  | Adapter _ => item_resolve h
  end.

(** The data a supervisor saved from the editor of slot [s]; the save is
    taken to be up to date. *)
Definition saved (w : World) (s : Slot) : string :=
  match s_editor s with
  | Some h => ed_data (editors w h)
  | None => ""
  end.

(** [this.props.editor.create( element, config )], called by the creator
    of watchdog [r], resolves with the new editor [h]: the [.then] callback
    of [_createEditor] runs, then the supervisor takes the instance. *)
Definition creator_resolves (r : wref) (h : handle) : M unit :=
  s ← gets (slot_of r);
  match s_creator s with
  | Some c =>
      if s_creating s then
        emit (EngineCreated h) ;;
        modify (set_editor h
          {| ed_data := initial_content (s_config s);
             ed_isReadOnly := false; ed_listeners := [] |}) ;;
        run_creator_then c h ;;
        o ← gets (λ w, heap w r);
        update_slot r (resolve_of o h)
      else skip
  | None => skip
  end.

(** The promise returned by [this.watchdog.create( ... )] rejects with [e]:
    the [.catch] handler runs. *)
Definition create_rejects (r : wref) (e : error) : M unit :=
  s ← gets (slot_of r);
  if s_creating s && s_pending s then
    update_slot r slot_reject ;;
    create_failed e
  else skip.

(** An [EditorWatchdog] that was not destroyed fires [error] for its live
    editor. *)
Definition solo_error (r : wref) (e : error) (restart : bool) : M unit :=
  o ← gets (λ w, heap w r);
  match o with
  | Solo s =>
      if bool_decide (is_Some (solo_editor s)) && negb (s_destroyed (ew_slot s))
      then
        for_each (λ cb, run_callback cb e restart) (ew_listeners s) ;;
        if restart then
          d ← gets (λ w, saved w (ew_slot s));
          update_slot r (slot_restart d)
        else skip
      else skip
  | Adapter _ => skip
  end.

(** The context watchdog fires [itemError]. *)
Definition item_error (ev : ItemErrorEvent) : M unit :=
  ls ← gets cw_listeners;
  for_each (λ l, run_listener l ev) ls ;;
  s ← gets (λ w, cw_items w (itemId ev));
  if causesRestart ev && bool_decide (is_Some (s_editor s)) then
    d ← gets (λ w, saved w s);
    modify (set_item (itemId ev) (slot_restart d s))
  else skip.

(** The event loop runs the oldest timer. *)
Definition timer_fires : M unit :=
  ts ← gets timers;
  match ts with
  | [] => skip
  | t :: ts' => modify (set_timers ts') ;; run_task t
  end.

(** An editor fires one of its events. *)
Definition fire (h : handle) (k : EvKind) : M unit :=
  ls ← gets (λ w, ed_listeners (editors w h));
  for_each (λ k', if decide (k' = k) then forward k h else skip) ls.

Definition typed (h : handle) (d : string) : M unit :=
  modify (λ w, set_editor h
    {| ed_data := d; ed_isReadOnly := ed_isReadOnly (editors w h);
       ed_listeners := ed_listeners (editors w h) |} w) ;;
  fire h ChangeData.

(** React re-renders the component past [shouldComponentUpdate], which it
    does when the value of the context changed: the new props and context
    are stored and [componentDidUpdate] is called. *)
Definition forced_update (nextProps : Props) (nextContext : CtxValue) : M unit :=
  modify (set_props nextProps) ;;
  modify (set_context nextContext) ;;
  componentDidUpdate.

(** React delivers new props.  With the context as it was,
    [shouldComponentUpdate] sees the old [this.props], then the new props
    and context are stored, and [componentDidUpdate] follows a re-render;
    with another context the update is forced. *)
Definition update (nextProps : Props) (nextContext : CtxValue) : M unit :=
  c ← gets context;
  if decide (nextContext = c) then
    b ← shouldComponentUpdate nextProps;
    modify (set_props nextProps) ;;
    modify (set_context nextContext) ;;
    if b : bool then componentDidUpdate else skip
  else forced_update nextProps nextContext.

(** What happens to a mounted component.  [Update] is a render with new
    props, under the context of the same kind or of the other kind;
    [ForcedUpdate] is a render in which the value of the context changed,
    whatever its kind (one context watchdog replaced by another, say). *)
Inductive Event :=
  | Update (nextProps : Props) (nextContext : CtxValue)
  | Unmount
  | CreatorResolves (r : wref) (h : handle)
  | CreateRejects (r : wref) (e : error)
  | TimerFires
  | SoloError (r : wref) (e : error) (restart : bool)
  | ItemError (ev : ItemErrorEvent)
  | Typed (h : handle) (d : string)
  | Focused (h : handle)
  | Blurred (h : handle)
  | ForcedUpdate (nextProps : Props) (nextContext : CtxValue).

Definition step (e : Event) : M unit :=
  match e with
  | Update np nc => update np nc
  | Unmount => componentWillUnmount
  | CreatorResolves r h => creator_resolves r h
  | CreateRejects r e => create_rejects r e
  | TimerFires => timer_fires
  | SoloError r e b => solo_error r e b
  | ItemError ev => item_error ev
  | Typed h d => typed h d
  | Focused h => fire h Focus
  | Blurred h => fire h Blur
  | ForcedUpdate np nc => forced_update np nc
  end.

Definition run (es : list Event) : M unit := for_each step es.

(** The component right after its constructor. *)
Definition constructed (p : Props) (c : CtxValue) : World :=
  {| props := p; context := c; watchdog := None;
     heap := λ _, Solo new_solo; next_ref := 0;
     cw_items := λ _, blank_slot; cw_listeners := []; next_uid := 0;
     editors := λ _, blank_editor; timers := []; trace := [] |}.

(** A mounted component's life: [componentDidMount], then events. *)
Definition life (p : Props) (c : CtxValue) (es : list Event) : Result World :=
  exec (componentDidMount ;; run es) (constructed p c).

Definition reachable (w : World) : Prop :=
  ∃ p c es, life p c es = Ok w.

(** ** Scenarios *)

Definition props0 : Props :=
  {| p_id := None; p_data := Some "<p>A</p>"; p_config := ∅;
     p_disabled := None; p_onChange := false; p_onFocus := false;
     p_onBlur := false; p_onReady := true |}.

Definition the_trace (r : Result World) : list Effect :=
  match r with Ok w => trace w | Throw _ => [] end.

Definition the_editor (r : Result World) : option handle :=
  match r with
  | Ok w => match editor w with Ok (v, _) => v | Throw _ => None end
  | Throw _ => None
  end.

(** ** Reading a world *)

(** What [get editor()] returns, as a function of the world. *)
Definition editor_of (w : World) : option handle :=
  match watchdog w with
  | None => None
  | Some r =>
      match heap w r with
      | Solo s => solo_editor s
      | Adapter a =>
          if s_registered (cw_items w (_id a))
          then s_editor (cw_items w (_id a))
          else None
      end
  end.

Definition is_adapter (o : WatchdogObj) : bool :=
  match o with Adapter _ => true | Solo _ => false end.

(** The variant of the watchdog the component holds, if it holds one. *)
Definition variant (w : World) : option bool :=
  match watchdog w with
  | Some r => Some (is_adapter (heap w r))
  | None => None
  end.

(** Some supervisor keeps [h] as its live instance. *)
Definition holds (w : World) (h : handle) : Prop :=
  (∃ r s, heap w r = Solo s ∧ s_editor (ew_slot s) = Some h) ∨
  (∃ i, s_editor (cw_items w i) = Some h).

Definition is_setData (e : Effect) : bool :=
  match e with SetData _ _ => true | _ => false end.

Definition is_onReady (e : Effect) : bool :=
  match e with OnReady _ => true | _ => false end.

Definition is_created (e : Effect) : bool :=
  match e with EngineCreated _ => true | _ => false end.

Definition is_warn (e : Effect) : bool :=
  match e with ConsoleWarn => true | _ => false end.

Definition is_create (e : Effect) : bool :=
  match e with WatchdogCreate _ _ => true | _ => false end.

Definition count (f : Effect → bool) (t : list Effect) : nat :=
  length (List.filter f t).

(** *** The configuration [_getConfig] builds *)

Definition resolved_initialData (p : Props) : jsval :=
  let i := get_field (p_config p) "initialData" in
  if truthy i then i else JStr (default "" (p_data p)).

Definition warns (p : Props) : bool :=
  truthy (data_val p) && truthy (get_field (p_config p) "initialData").

Definition config_of (p : Props) : Config :=
  <["initialData" := resolved_initialData p]> (p_config p).

(** The precedence in the specification's words: a field or a prop is
    "set" when it has a value, that is, when it is not [undefined]. *)
Definition is_set (v : jsval) : bool :=
  match v with JUndefined => false | _ => true end.

Definition claimed_initialData (p : Props) : jsval :=
  if is_set (get_field (p_config p) "initialData")
  then get_field (p_config p) "initialData"
  else if is_set (data_val p) then data_val p
  else JStr "".

Definition claimed_warning (p : Props) : bool :=
  is_set (data_val p) && is_set (get_field (p_config p) "initialData").

(** *** Invariants of the supervisors *)

(** A slot whose creator is running keeps no instance. *)
Definition slot_wf (s : Slot) : Prop :=
  s_creating s = true → s_editor s = None.

Record invariant (w : World) : Prop := {
  inv_solo_wf : ∀ r s, heap w r = Solo s → slot_wf (ew_slot s);
  inv_item_wf : ∀ i, slot_wf (cw_items w i);
  inv_allocated : ∀ r, watchdog w = Some r → r < next_ref w
}.

(** Everything but the engine's editors, the timers and the log is the
    same in both worlds. *)
Record frame (w w' : World) : Prop := {
  fr_props : props w' = props w;
  fr_context : context w' = context w;
  fr_watchdog : watchdog w' = watchdog w;
  fr_heap : heap w' = heap w;
  fr_next_ref : next_ref w' = next_ref w;
  fr_items : cw_items w' = cw_items w;
  fr_listeners : cw_listeners w' = cw_listeners w;
  fr_next_uid : next_uid w' = next_uid w
}.

(** The slot of a watchdog whose [create] was just called by
    [_initializeEditor]. *)
Definition creating_slot (cfg : Config) : Slot :=
  {| s_registered := false; s_creator := Some CreateEditorClosure;
     s_creating := true; s_pending := true; s_config := cfg;
     s_editor := None; s_destroyed := false |}.

(** What [_initializeEditor] does to a world. *)
Record init_post (w w' : World) : Prop := {
  ip_props : props w' = props w;
  ip_context : context w' = context w;
  ip_watchdog : watchdog w' = Some (next_ref w);
  ip_next_ref : next_ref w' = S (next_ref w);
  ip_heap_other : ∀ r, r ≠ next_ref w → heap w' r = heap w r;
  ip_heap_new :
    heap w' (next_ref w) =
    if instanceof_ContextWatchdog (context w)
    then Adapter {| _id := next_uid w; _creator := Some CreateEditorClosure |}
    else Solo {| ew_listeners := [RuntimeErrorCallback];
                 ew_slot := creating_slot (config_of (props w)) |};
  ip_items :
    ∀ i, cw_items w' i =
         if instanceof_ContextWatchdog (context w) && bool_decide (i = next_uid w)
         then creating_slot (config_of (props w))
         else cw_items w i;
  ip_listeners :
    cw_listeners w' =
    cw_listeners w ++
    (if instanceof_ContextWatchdog (context w)
     then [{| l_id := next_uid w; l_callback := RuntimeErrorCallback |}]
     else []);
  ip_next_uid :
    next_uid w' =
    if instanceof_ContextWatchdog (context w) then S (next_uid w)
    else next_uid w;
  ip_editors : editors w' = editors w;
  ip_timers : timers w' = timers w;
  ip_trace :
    trace w' =
    trace w ++ (if warns (props w) then [ConsoleWarn] else []) ++
    [WatchdogCreate (next_ref w) (config_of (props w))] ++
    (if instanceof_ContextWatchdog (context w)
     then [ContextAdd (next_uid w) (config_of (props w))]
     else [])
}.

(** What [_destroyEditor] does to a world whose watchdog is [r]. *)
Record destroy_post (r : wref) (w w' : World) : Prop := {
  dp_props : props w' = props w;
  dp_context : context w' = context w;
  dp_watchdog : watchdog w' = None;
  dp_next_ref : next_ref w' = next_ref w;
  dp_heap_other : ∀ r', r' ≠ r → heap w' r' = heap w r';
  dp_heap :
    heap w' r =
    match heap w r with
    | Solo s => Solo (solo_with_slot slot_destroy s)
    | Adapter a => Adapter a
    end;
  dp_items :
    ∀ i, cw_items w' i =
         match heap w r with
         | Adapter a =>
             if decide (i = _id a) then slot_destroy (cw_items w i)
             else cw_items w i
         | Solo _ => cw_items w i
         end;
  dp_listeners : cw_listeners w' = cw_listeners w;
  dp_next_uid : next_uid w' = next_uid w;
  dp_editors : editors w' = editors w;
  dp_timers : timers w' = timers w;
  dp_trace :
    trace w' =
    trace w ++ WatchdogDestroy r ::
    match heap w r with
    | Adapter a => [ContextRemove (_id a)]
    | Solo _ => []
    end
}.

(** The test of [_shouldUpdateEditor], [h] being the live editor. *)
Definition data_differs (np : Props) (w : World) (h : handle) : bool :=
  bool_decide (p_data (props w) ≠ p_data np ∧
               Some (ed_data (editors w h)) ≠ p_data np).

(** A step that logs [t] and leaves the timers [ts]; it may change
    editors, and nothing else. *)
Record quiet (t : list Effect) (ts : list Task) (w w' : World) : Prop := {
  q_frame : frame w w';
  q_trace : trace w' = trace w ++ t;
  q_timers : timers w' = ts
}.

(** A step that applies [f] to the slot of watchdog [r], and nothing else. *)
Record slot_upd (r : wref) (f : Slot → Slot) (w w' : World) : Prop := {
  su_props : props w' = props w;
  su_context : context w' = context w;
  su_watchdog : watchdog w' = watchdog w;
  su_next_ref : next_ref w' = next_ref w;
  su_heap :
    ∀ r', heap w' r' =
          if decide (r' = r)
          then match heap w r with
               | Solo s => Solo (solo_with_slot f s)
               | Adapter a => Adapter a
               end
          else heap w r';
  su_items :
    ∀ i, cw_items w' i =
         match heap w r with
         | Adapter a =>
             if decide (i = _id a) then f (cw_items w i) else cw_items w i
         | Solo _ => cw_items w i
         end;
  su_listeners : cw_listeners w' = cw_listeners w;
  su_next_uid : next_uid w' = next_uid w;
  su_editors : editors w' = editors w;
  su_timers : timers w' = timers w;
  su_trace : trace w' = trace w
}.

(** A step that applies [f] to the registry's item [i], and nothing else. *)
Record item_upd (i : uid) (f : Slot → Slot) (w w' : World) : Prop := {
  iu_props : props w' = props w;
  iu_context : context w' = context w;
  iu_watchdog : watchdog w' = watchdog w;
  iu_next_ref : next_ref w' = next_ref w;
  iu_heap : heap w' = heap w;
  iu_items :
    ∀ j, cw_items w' j =
         if decide (j = i) then f (cw_items w i) else cw_items w j;
  iu_listeners : cw_listeners w' = cw_listeners w;
  iu_next_uid : next_uid w' = next_uid w;
  iu_editors : editors w' = editors w;
  iu_timers : timers w' = timers w;
  iu_trace : trace w' = trace w
}.

(** The callbacks a firing of event [k] on editor [h] reaches. *)
Definition forwarded (k : EvKind) (h : handle) (p : Props) : list Effect :=
  match k with
  | ChangeData => if p_onChange p then [OnChange h] else []
  | Focus => if p_onFocus p then [OnFocus h] else []
  | Blur => if p_onBlur p then [OnBlur h] else []
  end.

Definition forwards (k : EvKind) (h : handle) (w : World) : list Effect :=
  flat_map (λ k', if decide (k' = k) then forwarded k h (props w) else [])
           (ed_listeners (editors w h)).

(** The listeners of the registry an [itemError] gets through. *)
Definition routed (ev : ItemErrorEvent) (ls : list Listener) : list Listener :=
  List.filter (λ l, bool_decide (itemId ev = l_id l)) ls.

Definition runtime_errors {A} (e : error) (b : bool) (l : list A) : list Effect :=
  map (λ _, OnError e Runtime b) l.

Definition created_log (h : handle) (p : Props) : list Effect :=
  EngineCreated h ::
  match p_disabled p with Some b => [SetReadOnly h b] | None => [] end ++
  [Attach h ChangeData; Attach h Focus; Attach h Blur].

Definition in_place_log (np : Props) (h : handle) (w : World) : list Effect :=
  (if data_differs np w h then [SetData h (p_data np)] else []) ++
  match p_disabled np with Some b => [SetReadOnly h b] | None => [] end.

(** The steps of the model, case by case. *)
Inductive transition (w : World) : Event → World → Prop :=
  | t_update_inert np nc :
      editor_of w = None →
      nc = context w →
      transition w (Update np nc) (set_context nc (set_props np w))
  | t_update_in_place np nc h w1 :
      editor_of w = Some h →
      p_id np = p_id (props w) →
      quiet (in_place_log np h w) (timers w) w w1 →
      nc = context w →
      transition w (Update np nc) (set_context nc (set_props np w1))
  | t_update_recreate np nc h r w1 w2 :
      editor_of w = Some h →
      p_id np ≠ p_id (props w) →
      watchdog w = Some r →
      destroy_post r w w1 →
      init_post (set_context nc (set_props np w1)) w2 →
      nc = context w →
      transition w (Update np nc) w2
  | t_unmount_idle :
      watchdog w = None →
      transition w Unmount w
  | t_unmount r w1 :
      watchdog w = Some r →
      destroy_post r w w1 →
      transition w Unmount w1
  | t_resolve_stale r h :
      s_creator (slot_of r w) = None ∨ s_creating (slot_of r w) = false →
      transition w (CreatorResolves r h) w
  | t_resolve r h w1 w2 :
      s_creator (slot_of r w) = Some CreateEditorClosure →
      s_creating (slot_of r w) = true →
      quiet (created_log h (props w)) (timers w ++ [ReadyTask]) w w1 →
      slot_upd r (resolve_of (heap w r) h) w1 w2 →
      transition w (CreatorResolves r h) w2
  | t_reject_stale r e :
      s_creating (slot_of r w) && s_pending (slot_of r w) = false →
      transition w (CreateRejects r e) w
  | t_reject r e w1 w2 :
      s_creating (slot_of r w) = true →
      s_pending (slot_of r w) = true →
      slot_upd r slot_reject w w1 →
      quiet [OnError e Initialization false] (timers w) w1 w2 →
      transition w (CreateRejects r e) w2
  | t_timer_idle :
      timers w = [] →
      transition w TimerFires w
  | t_timer ts w1 :
      timers w = ReadyTask :: ts →
      quiet (if p_onReady (props w) then [OnReady (editor_of w)] else [])
            ts w w1 →
      transition w TimerFires w1
  | t_solo_error_stale r e b :
      (∀ s, heap w r = Solo s →
            solo_editor s = None ∨ s_destroyed (ew_slot s) = true) →
      transition w (SoloError r e b) w
  | t_solo_error r e b s h w1 w2 :
      heap w r = Solo s →
      solo_editor s = Some h →
      quiet (runtime_errors e b (ew_listeners s)) (timers w) w w1 →
      (if b then slot_upd r (slot_restart (saved w1 (ew_slot s))) w1 w2
       else w2 = w1) →
      s_destroyed (ew_slot s) = false →
      transition w (SoloError r e b) w2
  | t_item_error ev w1 w2 :
      quiet (runtime_errors (ev_error ev) (causesRestart ev)
               (routed ev (cw_listeners w)))
            (timers w) w w1 →
      (if causesRestart ev &&
          bool_decide (is_Some (s_editor (cw_items w (itemId ev))))
       then item_upd (itemId ev)
              (slot_restart (saved w1 (cw_items w (itemId ev)))) w1 w2
       else w2 = w1) →
      transition w (ItemError ev) w2
  | t_typed h d w1 w2 :
      quiet [] (timers w) w w1 →
      quiet (forwards ChangeData h w1) (timers w) w1 w2 →
      transition w (Typed h d) w2
  | t_focused h w1 :
      quiet (forwards Focus h w) (timers w) w w1 →
      transition w (Focused h) w1
  | t_blurred h w1 :
      quiet (forwards Blur h w) (timers w) w w1 →
      transition w (Blurred h) w1
  | t_update_forced np nc w1 :
      nc ≠ context w →
      init_post (set_context nc (set_props np w)) w1 →
      transition w (Update np nc) w1
  | t_forced np nc w1 :
      init_post (set_context nc (set_props np w)) w1 →
      transition w (ForcedUpdate np nc) w1.

(** The listeners of the registry carry distinct ids [uid] has handed out,
    the one of the component's current adapter among them. *)
Record listeners_ok (w : World) : Prop := {
  lo_fresh : ∀ l, l ∈ cw_listeners w → l_id l < next_uid w;
  lo_nodup : NoDup (l_id <$> cw_listeners w);
  lo_current :
    ∀ r a, watchdog w = Some r → heap w r = Adapter a →
           {| l_id := _id a; l_callback := RuntimeErrorCallback |}
             ∈ cw_listeners w
}.

(** The component's watchdog, if any, is of the variant context [c]
    selects, and [c] is the current context. *)
Definition follows (c : CtxValue) (w : World) : Prop :=
  context w = c ∧
  ∀ b, variant w = Some b → b = instanceof_ContextWatchdog c.

(** The updates of a run all supply [onReady]. *)
Definition supplies_onReady (e : Event) : Prop :=
  match e with
  | Update np _ | ForcedUpdate np _ => p_onReady np = true
  | _ => True
  end.

(** What a step does to the log and the timers, as far as [onReady] calls
    and creations go: nothing, a creation with its timer task, or a timer
    task run. *)
Inductive ready_step (w w' : World) (t : list Effect) : Prop :=
  | rs_other :
      timers w' = timers w →
      count is_onReady t = 0 → count is_created t = 0 →
      ready_step w w' t
  | rs_created :
      timers w' = timers w ++ [ReadyTask] →
      count is_onReady t = 0 → count is_created t = 1 →
      ready_step w w' t
  | rs_fired ts :
      timers w = ReadyTask :: ts → timers w' = ts →
      count is_onReady t = (if p_onReady (props w) then 1 else 0) →
      count is_created t = 0 →
      ready_step w w' t.

(** The updates of a run all carry the context [c]. *)
Definition keeps_context (c : CtxValue) (e : Event) : Prop :=
  match e with
  | Update _ nc | ForcedUpdate _ nc => nc = c
  | _ => True
  end.

(** *** Worlds of the scenarios *)

Definition world_of (r : Result World) (p : Props) : World :=
  match r with
  | Ok w => w
  | Throw _ => constructed p PlainContext
  end.

Definition props_b : Props :=
  {| p_id := Some "b"; p_data := Some "<p>B</p>"; p_config := ∅;
     p_disabled := Some true; p_onChange := false; p_onFocus := false;
     p_onBlur := false; p_onReady := true |}.

(** Same [id] as [props0], other [data]. *)
Definition props_c : Props :=
  {| p_id := None; p_data := Some "<p>C</p>"; p_config := ∅;
     p_disabled := None; p_onChange := false; p_onFocus := false;
     p_onBlur := false; p_onReady := true |}.

(** [config = { initialData: '' }] together with a [data] prop. *)
Definition props_empty_initial : Props :=
  {| p_id := None; p_data := Some "<p>A</p>";
     p_config := {["initialData" := JStr ""]};
     p_disabled := None; p_onChange := false; p_onFocus := false;
     p_onBlur := false; p_onReady := false |}.

(** Mounted under a plain context, live, then given a new [id] under a
    context watchdog. *)
Definition swapping_life : list Event :=
  [CreatorResolves 0 7; Update props_b ContextWatchdog].

(** An effect without the configuration it carries. *)
Definition brief (e : Effect) : Effect :=
  match e with
  | WatchdogCreate r _ => WatchdogCreate r ∅
  | ContextAdd i _ => ContextAdd i ∅
  | e => e
  end.

(** Mounted, creation in flight. *)
Definition creating_solo : World :=
  world_of (life props0 PlainContext []) props0.

(** Mounted, the first editor (7) live. *)
Definition ready_solo : World :=
  world_of (life props0 PlainContext [CreatorResolves 0 7]) props0.

Definition ready_registry : World :=
  world_of (life props0 ContextWatchdog [CreatorResolves 0 7]) props0.

(** ** The editors after a step *)

(** The listeners [created] attaches, in order. *)
Definition bridge : list EvKind := [ChangeData; Focus; Blur].

(** The state of editor [h'] once event [e] has been handled in world [w]:
    an in-place update writes the data it pushes and the read-only flag it
    sets, a creation that resolves makes the new editor and bridges it, the
    user's typing changes the content; nothing else touches an editor. *)
Definition editors_after (e : Event) (w : World) (h' : handle) : EditorState :=
  match e with
  | Update np nc =>
      match editor_of w with
      | Some h =>
          if decide (nc = context w ∧ p_id np = p_id (props w) ∧ h' = h) then
            {| ed_data := if data_differs np w h then default "" (p_data np)
                          else ed_data (editors w h);
               ed_isReadOnly :=
                 default (ed_isReadOnly (editors w h)) (p_disabled np);
               ed_listeners := ed_listeners (editors w h) |}
          else editors w h'
      | None => editors w h'
      end
  | CreatorResolves r h =>
      if bool_decide (is_Some (s_creator (slot_of r w)))
         && s_creating (slot_of r w) && bool_decide (h' = h) then
        {| ed_data := initial_content (s_config (slot_of r w));
           ed_isReadOnly := default false (p_disabled (props w));
           ed_listeners := bridge |}
      else editors w h'
  | Typed h d =>
      if decide (h' = h) then
        {| ed_data := d; ed_isReadOnly := ed_isReadOnly (editors w h);
           ed_listeners := ed_listeners (editors w h) |}
      else editors w h'
  | _ => editors w h'
  end.

(** The live editor is bridged and follows the [disabled] prop. *)
Definition live_ok (w : World) : Prop :=
  ∀ h, editor_of w = Some h →
    ed_listeners (editors w h) = bridge ∧
    ∀ b, p_disabled (props w) = Some b → ed_isReadOnly (editors w h) = b.

Definition is_destroy (e : Effect) : bool :=
  match e with WatchdogDestroy _ => true | _ => false end.

(** The watchdog the component holds was set up by [_initializeEditor]:
    it has the creator, it is not destroyed, and a Solo one listens with
    the one callback of line 99. *)
Record held_ok (w : World) : Prop := {
  ho_listening :
    ∀ r s, watchdog w = Some r → heap w r = Solo s →
           ew_listeners s = [RuntimeErrorCallback];
  ho_creator :
    ∀ r, watchdog w = Some r →
         s_creator (slot_of r w) = Some CreateEditorClosure;
  ho_alive : ∀ r, watchdog w = Some r → s_destroyed (slot_of r w) = false
}.

(** A settlement or a restart keeps a slot's creator and its [destroyed]
    flag. *)
Definition keeps_setup (f : Slot → Slot) : Prop :=
  ∀ s, s_creator (f s) = s_creator s ∧ s_destroyed (f s) = s_destroyed s.

(** The event of the model in which editor [h] fires [k]; [d] is the
    content after a change. *)
Definition fired (k : EvKind) (h : handle) (d : string) : Event :=
  match k with
  | ChangeData => Typed h d
  | Focus => Focused h
  | Blur => Blurred h
  end.

(** Every callback supplied, [disabled] present. *)
Definition props_listening : Props :=
  {| p_id := None; p_data := Some "<p>A</p>"; p_config := ∅;
     p_disabled := Some true; p_onChange := true; p_onFocus := true;
     p_onBlur := true; p_onReady := true |}.

(** Mounted with [props0], given [props_listening] while the editor is
    being created, then live. *)
Definition listening_solo : World :=
  world_of (life props0 PlainContext
              [Update props_listening PlainContext; CreatorResolves 0 7])
           props0.

(** ** The ledger of watchdogs and registry items *)

Definition is_create_of (r : wref) (e : Effect) : bool :=
  match e with WatchdogCreate r' _ => bool_decide (r' = r) | _ => false end.

Definition is_destroy_of (r : wref) (e : Effect) : bool :=
  match e with WatchdogDestroy r' => bool_decide (r' = r) | _ => false end.

Definition is_add_of (i : uid) (e : Effect) : bool :=
  match e with ContextAdd i' _ => bool_decide (i' = i) | _ => false end.

Definition is_remove_of (i : uid) (e : Effect) : bool :=
  match e with ContextRemove i' => bool_decide (i' = i) | _ => false end.

(** The calls that make or dispose of a supervisor. *)
Definition is_lifecycle (e : Effect) : bool :=
  match e with
  | WatchdogCreate _ _ | WatchdogDestroy _ | ContextAdd _ _
  | ContextRemove _ => true
  | _ => false
  end.

(** The [_id] of the adapter the component holds, if it holds one. *)
Definition held_id (w : World) : option uid :=
  match watchdog w with
  | Some r =>
      match heap w r with
      | Adapter a => Some (_id a)
      | Solo _ => None
      end
  | None => None
  end.

(** Every watchdog the component allocated had [create] called once, and
    [destroy] at most once and not while the component holds it; every id
    the adapters drew was added to the registry once, and removed at most
    once and not while the component holds its adapter. *)
Record ledger (w : World) : Prop := {
  lg_create :
    ∀ r, count (is_create_of r) (trace w)
         = if decide (r < next_ref w) then 1 else 0;
  lg_destroy :
    ∀ r, (count (is_destroy_of r) (trace w)
          ≤ if decide (r < next_ref w ∧ watchdog w ≠ Some r) then 1 else 0)%nat;
  lg_add :
    ∀ i, count (is_add_of i) (trace w)
         = if decide (i < next_uid w) then 1 else 0;
  lg_remove :
    ∀ i, (count (is_remove_of i) (trace w)
          ≤ if decide (i < next_uid w ∧ held_id w ≠ Some i) then 1 else 0)%nat;
  lg_alloc : ∀ r, watchdog w = Some r → r < next_ref w;
  lg_id : ∀ i, held_id w = Some i → i < next_uid w
}.

(** React delivers updates to a mounted component only. *)
Definition is_update (e : Event) : bool :=
  match e with
  | Update _ _ | ForcedUpdate _ _ => true
  | _ => false
  end.

(** What may still happen once the component is unmounted: timers run,
    a late promise, an error of a leftover editor. *)
Definition late_events : list Event :=
  [TimerFires; TimerFires; CreatorResolves 1 9; SoloError 1 4 true].

Definition unmounted_world : World :=
  world_of (life props0 ContextWatchdog
              ([CreatorResolves 0 7; Update props_b ContextWatchdog]
               ++ Unmount :: late_events)) props0.

(** The live editor crashed; its watchdog is restarting it. *)
Definition restarting_solo : World :=
  world_of (life props0 PlainContext [CreatorResolves 0 7; SoloError 0 4 true])
           props0.

(** The updates after which [componentDidUpdate] runs: a forced one, and
    one that brings another [id] while an editor is live. *)
Definition reinitialises (e : Event) (w : World) : Prop :=
  match e with
  | ForcedUpdate _ _ => True
  | Update np nc =>
      nc ≠ context w ∨ (is_Some (editor_of w) ∧ p_id np ≠ p_id (props w))
  | _ => False
  end.

Ltac unfold_m :=
  unfold mbind, M_bind, mret, M_ret, gets, modify, emit, skip, throw, deref,
    try_catch, exec in *.

Ltac unfold_set :=
  unfold set_props, set_context, set_watchdog, set_heap, set_next_ref,
    set_item, set_cw_listeners, set_next_uid, set_editor, set_timers, log in *.

Ltac sim := repeat first [ rewrite fn_lookup_insert | progress cbn ].

(** * Properties *)

(** ** The monad *)

Lemma bind_ok {A B} (m : M A) (f : A → M B) w a w' :
  m w = Ok (a, w') → (m ≫= f) w = f a w'.
Proof. unfold mbind, M_bind. by intros ->. Qed.

Lemma frame_refl w : frame w w.
Proof. by split. Qed.

Lemma frame_trans w1 w2 w3 : frame w1 w2 → frame w2 w3 → frame w1 w3.
Proof.
  intros F G. split.
  - by rewrite (fr_props _ _ G), (fr_props _ _ F).
  - by rewrite (fr_context _ _ G), (fr_context _ _ F).
  - by rewrite (fr_watchdog _ _ G), (fr_watchdog _ _ F).
  - by rewrite (fr_heap _ _ G), (fr_heap _ _ F).
  - by rewrite (fr_next_ref _ _ G), (fr_next_ref _ _ F).
  - by rewrite (fr_items _ _ G), (fr_items _ _ F).
  - by rewrite (fr_listeners _ _ G), (fr_listeners _ _ F).
  - by rewrite (fr_next_uid _ _ G), (fr_next_uid _ _ F).
Qed.

(** A loop whose body keeps a preorder keeps it, and returns. *)
Lemma for_each_rel {A} (R : World → World → Prop) (f : A → M unit) l :
  (∀ w, R w w) →
  (∀ w1 w2 w3, R w1 w2 → R w2 w3 → R w1 w3) →
  (∀ a w, ∃ w', f a w = Ok (tt, w') ∧ R w w') →
  ∀ w, ∃ w', for_each f l w = Ok (tt, w') ∧ R w w'.
Proof.
  intros Hrefl Htrans Hf. induction l as [|a l IH]; intros w; simpl.
  - exists w. split; [done | apply Hrefl].
  - destruct (Hf a w) as (w1 & Hw1 & HR1).
    destruct (IH w1) as (w2 & Hw2 & HR2).
    exists w2. split; [|by eapply Htrans].
    by rewrite (bind_ok _ _ _ _ _ Hw1).
Qed.

(** ** The accessor *)

Lemma editor_eq w : editor w = Ok (editor_of w, w).
Proof.
  unfold editor, editor_of, watchdog_editor, adapter_editor, cw_getItem.
  unfold_m.
  destruct (watchdog w) as [r|]; [|done].
  destruct (heap w r) as [s|a]; [done|].
  by destruct (s_registered _).
Qed.

Lemma editor_of_frame w w' : frame w w' → editor_of w' = editor_of w.
Proof.
  intros F. unfold editor_of.
  by rewrite (fr_watchdog _ _ F), (fr_heap _ _ F), (fr_items _ _ F).
Qed.

(** ** [_getConfig] *)

Lemma js_or_resolved p :
  js_or (js_or (get_field (p_config p) "initialData") (data_val p)) (JStr "")
  = resolved_initialData p.
Proof.
  unfold js_or, resolved_initialData, data_val.
  destruct (truthy (get_field (p_config p) "initialData")) eqn:Hi; simpl.
  - by rewrite Hi.
  - destruct (p_data p) as [s|]; simpl; [|done].
    by destruct s.
Qed.

Lemma getConfig_eq w :
  _getConfig w =
  Ok (config_of (props w), if warns (props w) then log ConsoleWarn w else w).
Proof.
  unfold _getConfig, config_of, warns, js_and. unfold_m.
  rewrite js_or_resolved.
  destruct (truthy (data_val (props w))) eqn:Hd; simpl.
  - by destruct (truthy (get_field _ _)).
  - by rewrite Hd.
Qed.

(** ** [_destroyEditor] *)

Lemma destroyEditor_none w : watchdog w = None → _destroyEditor w = Ok (tt, w).
Proof. intros H. unfold _destroyEditor. unfold_m. by rewrite H. Qed.

Lemma destroyEditor_some w r :
  watchdog w = Some r →
  ∃ w', _destroyEditor w = Ok (tt, w') ∧ destroy_post r w w'.
Proof.
  intros H. unfold _destroyEditor, watchdog_destroy. unfold_m. rewrite H. cbn.
  destruct (heap w r) as [s|a] eqn:Hr; cbn.
  - eexists. split; [reflexivity|].
    split; cbn; rewrite ?Hr; try done.
    + intros r' Hne. by rewrite fn_lookup_insert_ne.
    + by rewrite fn_lookup_insert.
  - eexists. split; [reflexivity|].
    split; cbn; rewrite ?Hr; try done.
    + intros i. unfold insert, fn_insert. by repeat case_decide; subst.
    + by rewrite <- app_assoc.
Qed.

(** ** [_initializeEditor] *)

Lemma initializeEditor_ok w :
  ∃ w', _initializeEditor w = Ok (tt, w') ∧ init_post w w'.
Proof.
  unfold _initializeEditor.
  rewrite (bind_ok _ _ w (context w) w) by done.
  destruct (context w) eqn:Hc; cbn [instanceof_ContextWatchdog].
  - erewrite bind_ok; cycle 1.
    { erewrite bind_ok by apply editor_eq. reflexivity. }
    unfold watchdog_setCreator, watchdog_on, watchdog_create, solo_setCreator,
      solo_on, solo_create. unfold_m. unfold_set. sim.
    rewrite getConfig_eq. sim.
    destruct (warns (props w)) eqn:Hw; sim; eexists; (split; [reflexivity|]);
      split; cbn; rewrite ?Hc, ?Hw; cbn; try done.
    all: try (intros r Hne; unfold insert, fn_insert; by repeat case_decide).
    all: try (unfold insert, fn_insert; by repeat case_decide).
    all: try by rewrite app_nil_r.
    all: try by rewrite <- !app_assoc, ?app_nil_r.
  - unfold new_EditorWatchdogAdapter, uid_fresh, alloc, watchdog_setCreator,
      watchdog_on, watchdog_create, adapter_setCreator, adapter_on,
      adapter_create, cw_on, cw_add. unfold_m. unfold_set. sim.
    rewrite getConfig_eq. sim.
    destruct (warns (props w)) eqn:Hw; sim; eexists; (split; [reflexivity|]);
      split; cbn; rewrite ?Hc, ?Hw; cbn; try done.
    all: try (intros r Hne; unfold insert, fn_insert; by repeat case_decide).
    all: try (unfold insert, fn_insert; by repeat case_decide).
    all: try (intros i; unfold insert, fn_insert; case_bool_decide; by repeat case_decide).
    all: try by rewrite <- !app_assoc, ?app_nil_r.
Qed.

(** ** [shouldComponentUpdate] *)

Lemma editor_of_set_editor h st w : editor_of (set_editor h st w) = editor_of w.
Proof. done. Qed.

Lemma editor_of_log e w : editor_of (log e w) = editor_of w.
Proof. done. Qed.

Lemma frame_log e w : frame w (log e w).
Proof. by split. Qed.

Lemma frame_set_editor h st w : frame w (set_editor h st w).
Proof. by split. Qed.

Lemma frame_set_timers ts w : frame w (set_timers ts w).
Proof. by split. Qed.

Ltac msim :=
  repeat first
    [ rewrite editor_eq
    | rewrite editor_of_set_editor
    | rewrite editor_of_log
    | progress cbn -[editor editor_of set_editor log set_timers] ].

(** Without a live editor the hook answers [false] and touches nothing. *)
Lemma scu_no_editor np w :
  editor_of w = None → shouldComponentUpdate np w = Ok (false, w).
Proof.
  intros H. unfold shouldComponentUpdate. unfold_m. msim. by rewrite H.
Qed.

(** With a live editor and a new [id], the hook destroys the watchdog. *)
Lemma scu_new_id np w h :
  editor_of w = Some h → p_id np ≠ p_id (props w) →
  ∃ r w1, watchdog w = Some r ∧
    shouldComponentUpdate np w = Ok (true, w1) ∧ destroy_post r w w1.
Proof.
  intros H Hid.
  destruct (watchdog w) as [r|] eqn:Hw;
    [|by unfold editor_of in H; rewrite Hw in H].
  destruct (destroyEditor_some w r Hw) as (w1 & Hd & Hpost).
  exists r, w1. split; [done|]. split; [|done].
  unfold shouldComponentUpdate.
  rewrite (bind_ok _ _ _ _ _ (editor_eq w)), H. cbn.
  rewrite (bind_ok _ _ w (props w) w) by done.
  rewrite bool_decide_eq_false_2 by done. cbn.
  by rewrite (bind_ok _ _ _ _ _ Hd).
Qed.


Lemma shouldUpdateEditor_eq np w h :
  editor_of w = Some h →
  _shouldUpdateEditor np w = Ok (data_differs np w h, w).
Proof.
  intros H. unfold _shouldUpdateEditor, data_differs, editor_getData.
  unfold_m. msim.
  destruct (decide (p_data (props w) = p_data np)) as [He|He].
  - rewrite bool_decide_eq_false_2; [done|]. by intros [? _].
  - msim. rewrite H. cbn.
    destruct (decide (Some (ed_data (editors w h)) = p_data np)) as [Hd|Hd].
    + rewrite bool_decide_eq_false_2; [done|]. by intros [_ ?].
    + by rewrite bool_decide_eq_true_2.
Qed.

(** With a live editor and the same [id], the hook updates in place. *)
Lemma scu_same_id np w h :
  editor_of w = Some h → p_id np = p_id (props w) →
  ∃ w1, shouldComponentUpdate np w = Ok (false, w1) ∧
    quiet (in_place_log np h w) (timers w) w w1.
Proof.
  intros H Hid. unfold shouldComponentUpdate, in_place_log.
  rewrite (bind_ok _ _ _ _ _ (editor_eq w)), H. cbn.
  rewrite (bind_ok _ _ w (props w) w) by done.
  rewrite bool_decide_eq_true_2 by done. cbn.
  rewrite (bind_ok _ _ _ _ _ (shouldUpdateEditor_eq np w h H)).
  unfold editor_setData, editor_set_isReadOnly. unfold_m.
  destruct (data_differs np w h), (p_disabled np) as [b|];
    repeat first [ progress msim | rewrite H ];
    eexists; (split; [reflexivity|]); (split; [by split| |done]);
    cbn; by rewrite <- ?app_assoc, ?app_nil_r.
Qed.

(** ** Quiet steps *)

Lemma quiet_refl w : quiet [] (timers w) w w.
Proof. split; [apply frame_refl | by rewrite app_nil_r | done]. Qed.

Lemma quiet_trans t1 ts1 t2 ts2 w1 w2 w3 :
  quiet t1 ts1 w1 w2 → quiet t2 ts2 w2 w3 → quiet (t1 ++ t2) ts2 w1 w3.
Proof.
  intros Q1 Q2. split.
  - eapply frame_trans; [apply Q1 | apply Q2].
  - by rewrite (q_trace _ _ _ _ Q2), (q_trace _ _ _ _ Q1), app_assoc.
  - apply Q2.
Qed.

Lemma quiet_log e w : quiet [e] (timers w) w (log e w).
Proof. by split. Qed.

(** A loop of quiet steps is a quiet step that logs what they logged. *)
Lemma for_each_quiet {A} (f : A → M unit) (g : A → list Effect) w0 l :
  (∀ a w, frame w0 w →
     ∃ w', f a w = Ok (tt, w') ∧ quiet (g a) (timers w) w w') →
  ∀ w, frame w0 w →
    ∃ w', for_each f l w = Ok (tt, w') ∧ quiet (flat_map g l) (timers w) w w'.
Proof.
  intros Hf. induction l as [|a l IH]; intros w Hw; simpl.
  - exists w. split; [done | apply quiet_refl].
  - destruct (Hf a w Hw) as (w1 & Hw1 & Q1).
    destruct (IH w1) as (w2 & Hw2 & Q2).
    { eapply frame_trans; [apply Hw | apply Q1]. }
    exists w2. split.
    + by rewrite (bind_ok _ _ _ _ _ Hw1).
    + rewrite (q_timers _ _ _ _ Q1) in Q2. by eapply quiet_trans.
Qed.

(** ** Steps on slots *)

Lemma update_slot_ok r f w :
  ∃ w', update_slot r f w = Ok (tt, w') ∧ slot_upd r f w w'.
Proof.
  unfold update_slot. unfold_m. eexists. split; [reflexivity|].
  destruct (heap w r) as [s|a] eqn:Hr; split; cbn; rewrite ?Hr; try done.
  - intros r'. unfold insert, fn_insert.
    repeat case_decide; subst; congruence.
  - intros r'. case_decide; subst; done.
  - intros i. unfold insert, fn_insert. repeat case_decide; subst; congruence.
Qed.

(** ** Every step returns, and is one of the transitions *)

Lemma forced_update_ok np nc w :
  ∃ w', forced_update np nc w = Ok (tt, w') ∧
        init_post (set_context nc (set_props np w)) w'.
Proof.
  destruct (initializeEditor_ok (set_context nc (set_props np w)))
    as (w' & Hi & P).
  exists w'. split; [|done].
  unfold forced_update, componentDidUpdate. unfold_m. cbn. by rewrite Hi.
Qed.

Lemma update_sound np nc w :
  ∃ w', update np nc w = Ok (tt, w') ∧ transition w (Update np nc) w'.
Proof.
  unfold update. rewrite (bind_ok _ _ w (context w) w) by done.
  destruct (decide (nc = context w)) as [Hnc|Hnc]; cycle 1.
  { destruct (forced_update_ok np nc w) as (w' & Hf & P).
    exists w'. split; [done|]. by apply t_update_forced. }
  destruct (editor_of w) as [h|] eqn:He.
  - destruct (decide (p_id np = p_id (props w))) as [Hid|Hid].
    + destruct (scu_same_id np w h He Hid) as (w1 & Hs & Q).
      eexists. split.
      * rewrite (bind_ok _ _ _ _ _ Hs). reflexivity.
      * by eapply t_update_in_place.
    + destruct (scu_new_id np w h He Hid) as (r & w1 & Hw & Hs & D).
      destruct (initializeEditor_ok (set_context nc (set_props np w1)))
        as (w2 & Hi & I).
      exists w2. split.
      * rewrite (bind_ok _ _ _ _ _ Hs). unfold componentDidUpdate.
        unfold_m. cbn. by rewrite Hi.
      * by eapply t_update_recreate.
  - eexists. split.
    + rewrite (bind_ok _ _ _ _ _ (scu_no_editor np w He)). reflexivity.
    + by apply t_update_inert.
Qed.

Lemma unmount_sound w :
  ∃ w', componentWillUnmount w = Ok (tt, w') ∧ transition w Unmount w'.
Proof.
  unfold componentWillUnmount.
  destruct (watchdog w) as [r|] eqn:Hw.
  - destruct (destroyEditor_some w r Hw) as (w1 & Hd & D).
    exists w1. split; [done|]. by eapply t_unmount.
  - exists w. split; [by apply destroyEditor_none|]. by apply t_unmount_idle.
Qed.

Lemma created_quiet h w0 w :
  props w = props w0 → timers w = timers w0 →
  ∃ w', created h w = Ok (tt, w') ∧
    quiet (match p_disabled (props w0) with
           | Some b => [SetReadOnly h b]
           | None => []
           end ++ [Attach h ChangeData; Attach h Focus; Attach h Blur])
          (timers w0 ++ [ReadyTask]) w w'.
Proof.
  intros Hp Ht. unfold created, editor_set_isReadOnly, editor_on, setTimeout.
  unfold_m. cbn. rewrite Hp.
  destruct (p_disabled (props w0)) as [b|]; cbn;
    eexists; (split; [reflexivity|]); (split; [by split| |]); cbn;
    by rewrite <- ?app_assoc, ?Ht.
Qed.

Lemma creator_resolves_sound r h w :
  ∃ w', creator_resolves r h w = Ok (tt, w') ∧
        transition w (CreatorResolves r h) w'.
Proof.
  unfold creator_resolves.
  rewrite (bind_ok _ _ w (slot_of r w) w) by done.
  destruct (s_creator (slot_of r w)) as [[]|] eqn:Hc; cycle 1.
  { exists w. split; [done|]. apply t_resolve_stale. by left. }
  destruct (s_creating (slot_of r w)) eqn:Hg; cycle 1.
  { exists w. split; [done|]. apply t_resolve_stale. by right. }
  set (w1 := set_editor h
    {| ed_data := initial_content (s_config (slot_of r w));
       ed_isReadOnly := false; ed_listeners := [] |}
    (log (EngineCreated h) w)).
  destruct (created_quiet h w w1) as (w2 & Hw2 & Q2); [done..|].
  assert (Hh : heap w2 = heap w) by apply Q2.
  destruct (update_slot_ok r (resolve_of (heap w r) h) w2) as (w3 & Hw3 & U).
  exists w3. split.
  - unfold_m. cbn. fold w1. unfold run_creator_then. rewrite Hw2.
    by rewrite Hh.
  - eapply t_resolve; [done..| |done].
    unfold created_log.
    change (EngineCreated h :: ?l) with ([EngineCreated h] ++ l).
    eapply quiet_trans; [|apply Q2].
    split; [by split|done|done].
Qed.

Lemma create_rejects_sound r e w :
  ∃ w', create_rejects r e w = Ok (tt, w') ∧
        transition w (CreateRejects r e) w'.
Proof.
  unfold create_rejects.
  rewrite (bind_ok _ _ w (slot_of r w) w) by done.
  destruct (s_creating (slot_of r w) && s_pending (slot_of r w)) eqn:Hg;
    cycle 1.
  { exists w. split; [done|]. by apply t_reject_stale. }
  apply andb_true_iff in Hg as [Hg Hp].
  destruct (update_slot_ok r slot_reject w) as (w1 & Hw1 & U).
  exists (log (OnError e Initialization false) w1). split.
  - by rewrite (bind_ok _ _ _ _ _ Hw1).
  - eapply t_reject; [done..|].
    rewrite <- (su_timers _ _ _ _ U). apply quiet_log.
Qed.

Lemma timer_fires_sound w :
  ∃ w', timer_fires w = Ok (tt, w') ∧ transition w TimerFires w'.
Proof.
  unfold timer_fires. rewrite (bind_ok _ _ w (timers w) w) by done.
  destruct (timers w) as [|[] ts] eqn:Ht.
  - exists w. split; [done|]. by apply t_timer_idle.
  - unfold run_task. unfold_m. msim. cbn.
    destruct (p_onReady (props w)) eqn:Hr; msim;
      eexists; (split; [reflexivity|]); eapply t_timer; try done;
      rewrite Hr; (split; [by split| |done]); cbn; by rewrite ?app_nil_r.
Qed.

Lemma flat_map_const {A B} (x : B) (l : list A) :
  flat_map (λ _, [x]) l = map (λ _, x) l.
Proof. induction l; simpl; congruence. Qed.

Lemma run_callback_quiet cb e b w :
  ∃ w', run_callback cb e b w = Ok (tt, w') ∧
        quiet [OnError e Runtime b] (timers w) w w'.
Proof. destruct cb. eexists. split; [reflexivity|]. apply quiet_log. Qed.

Lemma solo_error_sound r e b w :
  ∃ w', solo_error r e b w = Ok (tt, w') ∧ transition w (SoloError r e b) w'.
Proof.
  unfold solo_error. rewrite (bind_ok _ _ w (heap w r) w) by done.
  destruct (heap w r) as [s|a] eqn:Hr; cycle 1.
  { exists w. split; [done|]. apply t_solo_error_stale. intros s Hs.
    congruence. }
  destruct (solo_editor s) as [h|] eqn:He; cycle 1.
  { exists w. split; [done|]. apply t_solo_error_stale. intros s' Hs.
    left. congruence. }
  destruct (s_destroyed (ew_slot s)) eqn:Hd.
  { exists w. split; [done|]. apply t_solo_error_stale. intros s' Hs.
    right. congruence. }
  rewrite bool_decide_eq_true_2 by done. cbn [negb andb].
  destruct (for_each_quiet (λ cb, run_callback cb e b)
              (λ _, [OnError e Runtime b]) w (ew_listeners s)
              (λ cb w' _, run_callback_quiet cb e b w') w (frame_refl w))
    as (w1 & Hw1 & Q).
  rewrite flat_map_const in Q.
  rewrite (bind_ok _ _ _ _ _ Hw1).
  destruct b.
  - destruct (update_slot_ok r (slot_restart (saved w1 (ew_slot s))) w1)
      as (w2 & Hw2 & U).
    exists w2. split; [done|]. by eapply t_solo_error.
  - exists w1. split; [done|]. by eapply t_solo_error.
Qed.

Lemma flat_map_routed ev ls :
  flat_map (λ l, if decide (itemId ev = l_id l)
                 then [OnError (ev_error ev) Runtime (causesRestart ev)]
                 else []) ls
  = runtime_errors (ev_error ev) (causesRestart ev) (routed ev ls).
Proof.
  induction ls as [|l ls IH]; [done|]. simpl.
  destruct (decide (itemId ev = l_id l)) as [Heq|Hne].
  - rewrite bool_decide_eq_true_2 by done. simpl. by rewrite IH.
  - rewrite bool_decide_eq_false_2 by done. done.
Qed.

Lemma run_listener_quiet l ev w :
  ∃ w', run_listener l ev w = Ok (tt, w') ∧
        quiet (if decide (itemId ev = l_id l)
               then [OnError (ev_error ev) Runtime (causesRestart ev)]
               else []) (timers w) w w'.
Proof.
  unfold run_listener. destruct (decide (itemId ev = l_id l)).
  - apply run_callback_quiet.
  - exists w. split; [done | apply quiet_refl].
Qed.

Lemma item_error_sound ev w :
  ∃ w', item_error ev w = Ok (tt, w') ∧ transition w (ItemError ev) w'.
Proof.
  unfold item_error. rewrite (bind_ok _ _ w (cw_listeners w) w) by done.
  destruct (for_each_quiet (λ l, run_listener l ev) _ w (cw_listeners w)
              (λ l w' _, run_listener_quiet l ev w') w (frame_refl w))
    as (w1 & Hw1 & Q).
  rewrite flat_map_routed in Q.
  rewrite (bind_ok _ _ _ _ _ Hw1).
  rewrite (bind_ok _ _ w1 (cw_items w1 (itemId ev)) w1) by done.
  assert (Hi : cw_items w1 = cw_items w) by apply Q.
  rewrite Hi.
  destruct (causesRestart ev &&
            bool_decide (is_Some (s_editor (cw_items w (itemId ev)))))
    eqn:Hg.
  - eexists. split; [reflexivity|].
    eapply t_item_error; [done|]. rewrite Hg.
    split; cbn; try done.
    intros j. rewrite Hi. unfold insert, fn_insert.
    repeat case_decide; subst; congruence.
  - exists w1. split; [done|]. eapply t_item_error; [done|]. by rewrite Hg.
Qed.

Lemma forward_quiet k h w :
  ∃ w', forward k h w = Ok (tt, w') ∧
        quiet (forwarded k h (props w)) (timers w) w w'.
Proof.
  unfold forward, forwarded. unfold_m. cbn.
  destruct k, (p_onChange (props w)), (p_onFocus (props w)),
    (p_onBlur (props w));
    eexists; (split; [reflexivity|]);
    first [ apply quiet_log | apply quiet_refl ].
Qed.

Lemma fire_quiet h k w :
  ∃ w', fire h k w = Ok (tt, w') ∧ quiet (forwards k h w) (timers w) w w'.
Proof.
  unfold fire, forwards.
  rewrite (bind_ok _ _ w (ed_listeners (editors w h)) w) by done.
  apply (for_each_quiet _ _ w); [|apply frame_refl].
  intros k' w' F. destruct (decide (k' = k)).
  - rewrite <- (fr_props _ _ F). apply forward_quiet.
  - exists w'. split; [done | apply quiet_refl].
Qed.

Lemma typed_sound h d w :
  ∃ w', typed h d w = Ok (tt, w') ∧ transition w (Typed h d) w'.
Proof.
  unfold typed. unfold_m. cbn.
  set (w1 := set_editor h _ w).
  destruct (fire_quiet h ChangeData w1) as (w2 & Hw2 & Q).
  exists w2. split; [by rewrite Hw2|].
  eapply (t_typed _ _ _ w1); [|done].
  split; [by split|by rewrite app_nil_r|done].
Qed.

Theorem step_sound e w :
  ∃ w', step e w = Ok (tt, w') ∧ transition w e w'.
Proof.
  destruct e; simpl.
  - apply update_sound.
  - apply unmount_sound.
  - apply creator_resolves_sound.
  - apply create_rejects_sound.
  - apply timer_fires_sound.
  - apply solo_error_sound.
  - apply item_error_sound.
  - apply typed_sound.
  - destruct (fire_quiet h Focus w) as (w1 & Hw1 & Q).
    exists w1. split; [done|]. by apply t_focused.
  - destruct (fire_quiet h Blur w) as (w1 & Hw1 & Q).
    exists w1. split; [done|]. by apply t_blurred.
  - destruct (forced_update_ok nextProps nextContext w) as (w1 & Hw1 & P).
    exists w1. split; [done|]. by apply t_forced.
Qed.

(** ** Reachable worlds *)

Lemma run_sound es w :
  ∃ w', run es w = Ok (tt, w') ∧
    ∀ P : World → Prop,
      (∀ w1 e w2, e ∈ es → P w1 → transition w1 e w2 → P w2) → P w → P w'.
Proof.
  revert w. induction es as [|e es IH]; intros w.
  - exists w. split; [done|]. by intros P _ H.
  - destruct (step_sound e w) as (w1 & Hw1 & T).
    destruct (IH w1) as (w2 & Hw2 & HP).
    exists w2. split.
    + unfold run. simpl. by rewrite (bind_ok _ _ _ _ _ Hw1).
    + intros P Hstep H. apply HP.
      * intros w3 e' w4 He'. apply Hstep. by right.
      * eapply Hstep; [by left|done..].
Qed.

(** Induction over a life whose events are known. *)
Lemma life_ind p c es (P : World → Prop) :
  (∀ w, init_post (constructed p c) w → P w) →
  (∀ w e w', e ∈ es → P w → transition w e w' → P w') →
  ∀ w, life p c es = Ok w → P w.
Proof.
  intros Hinit Hstep w Hlife.
  unfold life, componentDidMount, exec in Hlife.
  destruct (initializeEditor_ok (constructed p c)) as (w0 & H0 & I0).
  destruct (run_sound es w0) as (w1 & Hw1 & HP).
  rewrite (bind_ok _ _ _ _ _ H0), Hw1 in Hlife.
  injection Hlife as <-.
  apply HP; [done|]. by apply Hinit.
Qed.

(** A component's life never throws. *)
Lemma life_total p c es : ∃ w, life p c es = Ok w.
Proof.
  unfold life, componentDidMount, exec.
  destruct (initializeEditor_ok (constructed p c)) as (w0 & H0 & _).
  destruct (run_sound es w0) as (w & Hw & _).
  exists w. by rewrite (bind_ok _ _ _ _ _ H0), Hw.
Qed.

(** Induction over the reachable worlds. *)
Lemma reachable_ind (P : World → Prop) :
  (∀ p c w, init_post (constructed p c) w → P w) →
  (∀ w e w', P w → transition w e w' → P w') →
  ∀ w, reachable w → P w.
Proof.
  intros Hinit Hstep w (p & c & es & Hlife).
  eapply life_ind; [apply Hinit| |apply Hlife].
  intros w1 e w2 _. apply Hstep.
Qed.

Lemma run_snoc es e w1 w2 w3 :
  run es w1 = Ok (tt, w2) → step e w2 = Ok (tt, w3) →
  run (es ++ [e]) w1 = Ok (tt, w3).
Proof.
  revert w1. induction es as [|a es IH]; intros w1 H Hs.
  - injection H as ->. unfold run. simpl. by rewrite (bind_ok _ _ _ _ _ Hs).
  - unfold run in *. simpl in *. unfold mbind, M_bind in *.
    destruct (step a w1) as [[[] w4]|]; [|done]. by apply IH.
Qed.

Lemma reachable_step w e w' :
  reachable w → step e w = Ok (tt, w') → reachable w'.
Proof.
  intros (p & c & es & Hlife) Hs. exists p, c, (es ++ [e]).
  unfold life, componentDidMount, exec in *.
  destruct (initializeEditor_ok (constructed p c)) as (w0 & H0 & _).
  rewrite (bind_ok _ _ _ _ _ H0) in Hlife.
  rewrite (bind_ok _ _ _ _ _ H0).
  destruct (run es w0) as [[[] w1]|] eqn:Hr; [|done].
  injection Hlife as ->.
  by rewrite (run_snoc _ _ _ _ _ Hr Hs).
Qed.

(** ** The supervisors' invariant *)

Lemma slot_wf_resolve h s : slot_wf (slot_resolve h s).
Proof. by intros H. Qed.

Lemma slot_wf_item_resolve h s : slot_wf (item_resolve h s).
Proof. by intros H. Qed.

Lemma slot_wf_resolve_of o h s : slot_wf (resolve_of o h s).
Proof. destruct o; [apply slot_wf_resolve | apply slot_wf_item_resolve]. Qed.

Lemma slot_wf_reject s : slot_wf (slot_reject s).
Proof. by intros H. Qed.

Lemma slot_wf_restart d s : slot_wf (slot_restart d s).
Proof. by intros H. Qed.

Lemma slot_wf_destroy s : slot_wf (slot_destroy s).
Proof. by intros H. Qed.

Lemma slot_wf_creating cfg : slot_wf (creating_slot cfg).
Proof. by intros H. Qed.

Lemma invariant_frame w w' : frame w w' → invariant w → invariant w'.
Proof.
  intros F I. split.
  - intros r s. rewrite (fr_heap _ _ F). apply I.
  - intros i. rewrite (fr_items _ _ F). apply I.
  - intros r. rewrite (fr_watchdog _ _ F), (fr_next_ref _ _ F). apply I.
Qed.

Lemma invariant_quiet t ts w w' : quiet t ts w w' → invariant w → invariant w'.
Proof. intros Q. apply invariant_frame, Q. Qed.

Lemma invariant_new_props np nc w :
  invariant w → invariant (set_context nc (set_props np w)).
Proof. intros I. split; cbn; apply I. Qed.

Lemma invariant_slot_upd r f w w' :
  slot_upd r f w w' → (∀ s, slot_wf (f s)) → invariant w → invariant w'.
Proof.
  intros U Hwf I. split.
  - intros r' s'. rewrite (su_heap _ _ _ _ U). case_decide as Hr; [subst|].
    + destruct (heap w r) as [s|a] eqn:Hh; [|done].
      intros [= <-]. cbn. apply Hwf.
    + apply I.
  - intros i. rewrite (su_items _ _ _ _ U).
    destruct (heap w r) as [s|a] eqn:Hh; [apply I|].
    case_decide as Hi; [subst|apply I]. apply Hwf.
  - intros r'. rewrite (su_watchdog _ _ _ _ U), (su_next_ref _ _ _ _ U).
    apply I.
Qed.

Lemma invariant_item_upd i f w w' :
  item_upd i f w w' → (∀ s, slot_wf (f s)) → invariant w → invariant w'.
Proof.
  intros U Hwf I. split.
  - intros r s. rewrite (iu_heap _ _ _ _ U). apply I.
  - intros j. rewrite (iu_items _ _ _ _ U).
    case_decide; [apply Hwf|]; apply I.
  - intros r. rewrite (iu_watchdog _ _ _ _ U), (iu_next_ref _ _ _ _ U).
    apply I.
Qed.

Lemma invariant_destroy r w w' :
  destroy_post r w w' → invariant w → invariant w'.
Proof.
  intros D I. split.
  - intros r' s'. destruct (decide (r' = r)) as [->|Hne].
    + rewrite (dp_heap _ _ _ D).
      destruct (heap w r) as [s|a] eqn:Hh; [|done].
      intros [= <-]. apply slot_wf_destroy.
    + rewrite (dp_heap_other _ _ _ D) by done. apply I.
  - intros i. rewrite (dp_items _ _ _ D).
    destruct (heap w r) as [s|a]; [apply I|].
    case_decide; [apply slot_wf_destroy | apply I].
  - intros r'. by rewrite (dp_watchdog _ _ _ D).
Qed.

Lemma invariant_init w w' : init_post w w' → invariant w → invariant w'.
Proof.
  intros P I. split.
  - intros r s. destruct (decide (r = next_ref w)) as [->|Hne].
    + rewrite (ip_heap_new _ _ P).
      destruct (instanceof_ContextWatchdog (context w)); [done|].
      intros [= <-]. apply slot_wf_creating.
    + rewrite (ip_heap_other _ _ P) by done. apply I.
  - intros i. rewrite (ip_items _ _ P).
    destruct (_ && _); [apply slot_wf_creating | apply I].
  - intros r. rewrite (ip_watchdog _ _ P), (ip_next_ref _ _ P).
    intros [= <-]. lia.
Qed.

Lemma invariant_constructed p c : invariant (constructed p c).
Proof. split; cbn; try done. by intros r s [= <-]. Qed.

Lemma invariant_step w e w' : invariant w → transition w e w' → invariant w'.
Proof.
  intros I T. destruct T.
  - by apply invariant_new_props.
  - apply invariant_new_props. by eapply invariant_quiet.
  - eapply invariant_init; [done|].
    apply invariant_new_props. by eapply invariant_destroy.
  - done.
  - by eapply invariant_destroy.
  - done.
  - eapply invariant_slot_upd; [done| |by eapply invariant_quiet].
    apply slot_wf_resolve_of.
  - done.
  - eapply invariant_quiet; [done|].
    eapply invariant_slot_upd; [done| |done]. apply slot_wf_reject.
  - done.
  - by eapply invariant_quiet.
  - done.
  - destruct b; [|subst; by eapply invariant_quiet].
    eapply invariant_slot_upd; [done| |by eapply invariant_quiet].
    apply slot_wf_restart.
  - destruct (_ && _); [|subst; by eapply invariant_quiet].
    eapply invariant_item_upd; [done| |by eapply invariant_quiet].
    apply slot_wf_restart.
  - eapply invariant_quiet; [done|]. by eapply invariant_quiet.
  - by eapply invariant_quiet.
  - by eapply invariant_quiet.
  - eapply invariant_init; [done|]. by apply invariant_new_props.
  - eapply invariant_init; [done|]. by apply invariant_new_props.
Qed.

Theorem reachable_invariant w : reachable w → invariant w.
Proof.
  apply reachable_ind.
  - intros p c w' P.
    apply (invariant_init (constructed p c)); [done|].
    apply invariant_constructed.
  - intros w1 e w2. apply invariant_step.
Qed.

(** ** Live instances *)

Lemma slot_of_wf r w : invariant w → slot_wf (slot_of r w).
Proof.
  intros I. unfold slot_of. destruct (heap w r) as [s|a] eqn:Hr.
  - by eapply (inv_solo_wf _ I).
  - apply I.
Qed.

(** ** Slots across steps *)

Lemma slot_of_frame r w w' : frame w w' → slot_of r w' = slot_of r w.
Proof.
  intros F. unfold slot_of. by rewrite (fr_heap _ _ F), (fr_items _ _ F).
Qed.

Lemma slot_of_slot_upd r f w w' :
  slot_upd r f w w' → slot_of r w' = f (slot_of r w).
Proof.
  intros U. unfold slot_of. rewrite (su_heap _ _ _ _ U), decide_True by done.
  destruct (heap w r) as [s|a] eqn:Hr; [done|].
  rewrite (su_items _ _ _ _ U), Hr. by rewrite decide_True.
Qed.

Lemma editor_of_slot w r :
  watchdog w = Some r →
  editor_of w =
  match heap w r with
  | Solo _ => s_editor (slot_of r w)
  | Adapter _ =>
      if s_registered (slot_of r w) then s_editor (slot_of r w) else None
  end.
Proof.
  intros Hw. unfold editor_of, slot_of, solo_editor. rewrite Hw.
  by destruct (heap w r).
Qed.

Lemma is_adapter_slot_upd r f w w' r' :
  slot_upd r f w w' → is_adapter (heap w' r') = is_adapter (heap w r').
Proof.
  intros U. rewrite (su_heap _ _ _ _ U). case_decide; [subst|done].
  by destruct (heap w r).
Qed.

(** The events of a settled creation are ignored. *)
Lemma creator_resolves_stale r h w :
  s_creating (slot_of r w) = false → creator_resolves r h w = Ok (tt, w).
Proof.
  intros H. unfold creator_resolves.
  rewrite (bind_ok _ _ w (slot_of r w) w) by done.
  rewrite H. by destruct (s_creator _).
Qed.

Lemma create_rejects_stale r e w :
  s_creating (slot_of r w) = false → create_rejects r e w = Ok (tt, w).
Proof.
  intros H. unfold create_rejects.
  rewrite (bind_ok _ _ w (slot_of r w) w) by done.
  by rewrite H.
Qed.

(** ** Counting in the log *)

Lemma count_app f t1 t2 : count f (t1 ++ t2) = count f t1 + count f t2.
Proof. unfold count. by rewrite List.filter_app, length_app. Qed.

Lemma filter_created_log f h p :
  f (EngineCreated h) = false →
  (∀ b, f (SetReadOnly h b) = false) →
  (∀ k, f (Attach h k) = false) →
  List.filter f (created_log h p) = [].
Proof.
  intros H1 H2 H3. unfold created_log. simpl. rewrite H1.
  destruct (p_disabled p); simpl; by rewrite ?H2, !H3.
Qed.

Lemma filter_in_place_log np h w :
  List.filter is_setData (in_place_log np h w) =
  if data_differs np w h then [SetData h (p_data np)] else [].
Proof.
  unfold in_place_log. by destruct (data_differs np w h), (p_disabled np).
Qed.

(** * The claims *)

(** ** Configuration *)

(** Where a field or prop that is set is also truthy, the precedence of the
    specification and the one of [_getConfig] agree. *)
Lemma claimed_precedence_on_truthy p :
  truthy (get_field (p_config p) "initialData")
    = is_set (get_field (p_config p) "initialData") →
  truthy (data_val p) = is_set (data_val p) →
  resolved_initialData p = claimed_initialData p ∧
  warns p = claimed_warning p.
Proof.
  intros Hi Hd. unfold resolved_initialData, claimed_initialData, warns,
    claimed_warning. rewrite <- Hi, <- Hd. split; [|done].
  destruct (truthy (get_field _ _)); [done|].
  unfold data_val in *. destruct (p_data p) as [s|]; [|done]. cbn.
  by destruct s.
Qed.

(** C5, as stated, fails: with [config = { initialData: '' }] and
    [data = '<p>A</p>'] both are set, yet the configuration passed on has
    [initialData = '<p>A</p>'] (not the config's own field) and no warning
    is raised. *)
Lemma getConfig_claimed_precedence_fails :
  ¬ (∀ p c, ∃ w',
       _getConfig (constructed p c)
         = Ok (<["initialData" := claimed_initialData p]> (p_config p), w') ∧
       (count is_warn (trace w') = if claimed_warning p then 1 else 0)).
Proof.
  intros H. destruct (H props_empty_initial PlainContext) as (w' & Hg & _).
  rewrite getConfig_eq in Hg.
  apply (f_equal (λ r : Result (Config * World),
           match r with
           | Ok (cfg, _) => cfg !! "initialData"
           | Throw _ => None
           end)) in Hg.
  unfold config_of in Hg. rewrite !lookup_insert_eq in Hg.
  vm_compute in Hg. discriminate.
Qed.

(** C5 (amended): every (re)initialisation calls [create] once, with the
    caller's config in which [initialData] is the config's own field when
    that is truthy, else the [data] prop when that is a non-empty string,
    else the empty string; the warning is logged (once) exactly when the
    [data] prop and [config.initialData] are both truthy. *)
Theorem create_config_resolves_initialData (w : World) :
  ∃ w' delta,
    _initializeEditor w = Ok (tt, w') ∧
    trace w' = trace w ++ delta ∧
    List.filter is_create delta =
      [WatchdogCreate (next_ref w)
         (<["initialData" :=
              if truthy (get_field (p_config (props w)) "initialData")
              then get_field (p_config (props w)) "initialData"
              else JStr (default "" (p_data (props w)))]>
            (p_config (props w)))] ∧
    count is_warn delta =
      (if truthy (data_val (props w)) &&
          truthy (get_field (p_config (props w)) "initialData")
       then 1 else 0).
Proof.
  destruct (initializeEditor_ok w) as (w' & Hw' & P).
  eexists w', _. split; [done|]. split; [apply P|].
  fold (resolved_initialData (props w)). fold (config_of (props w)).
  fold (warns (props w)). unfold count.
  by destruct (warns (props w)), (instanceof_ContextWatchdog (context w)).
Qed.

(** ** The accessor *)

(** C7: the adapter's [editor] getter returns for every state of the
    registry, with [null] when [getItem] throws; the component's getter
    returns too, with [null] when no watchdog is assigned. *)
Theorem editor_accessor_never_throws (w : World) (a : EditorWatchdogAdapter) :
  (∃ v, adapter_editor a w = Ok (v, w) ∧
        ((∃ e, cw_getItem (_id a) w = Throw e) → v = None)) ∧
  (∃ v, editor w = Ok (v, w)) ∧
  (watchdog w = None → editor w = Ok (None, w)).
Proof.
  split; [|split].
  - unfold adapter_editor, try_catch, cw_getItem.
    destruct (s_registered (cw_items w (_id a))).
    + eexists. split; [done|]. by intros [e ?].
    + by exists None.
  - exists (editor_of w). apply editor_eq.
  - intros H. rewrite editor_eq. unfold editor_of. by rewrite H.
Qed.

(** A registry that lost the item, and a component without watchdog. *)
Lemma editor_accessor_never_throws_witness :
  (∃ e, cw_getItem 0 (constructed props0 ContextWatchdog) = Throw e) ∧
  watchdog (constructed props0 ContextWatchdog) = None ∧
  adapter_editor {| _id := 0; _creator := None |}
    (constructed props0 ContextWatchdog)
    = Ok (None, constructed props0 ContextWatchdog) ∧
  editor (constructed props0 ContextWatchdog)
    = Ok (None, constructed props0 ContextWatchdog).
Proof.
  pose proof (editor_accessor_never_throws
                (constructed props0 ContextWatchdog)
                {| _id := 0; _creator := None |}) as (Ha & _ & He).
  assert (Hthrow : ∃ e, cw_getItem 0 (constructed props0 ContextWatchdog)
                        = Throw e) by (by eexists).
  split; [done|]. split; [done|]. split.
  - destruct Ha as (v & Hv & Hnone). by rewrite Hv, (Hnone Hthrow).
  - by apply He.
Defined.

(** ** Destruction *)

(** C8: destroying returns in every world, leaves [this.watchdog] null,
    changes nothing when no watchdog is assigned, and changes nothing when
    repeated; so does unmounting at the end of any life. *)
Theorem destroy_total_idempotent (w : World) :
  (∃ w', componentWillUnmount w = Ok (tt, w') ∧
         watchdog w' = None ∧
         (watchdog w = None → w' = w) ∧
         componentWillUnmount w' = Ok (tt, w')) ∧
  (∀ p c es, ∃ w1 w2,
     life p c es = Ok w1 ∧
     step Unmount w1 = Ok (tt, w2) ∧
     watchdog w2 = None ∧
     life p c (es ++ [Unmount; Unmount]) = Ok w2).
Proof.
  assert (H : ∀ w0, ∃ w', _destroyEditor w0 = Ok (tt, w') ∧
            watchdog w' = None ∧ (watchdog w0 = None → w' = w0) ∧
            _destroyEditor w' = Ok (tt, w')).
  { intros w0. destruct (watchdog w0) as [r|] eqn:Hw.
    - destruct (destroyEditor_some w0 r Hw) as (w' & Hd & D).
      exists w'. split; [done|]. split; [apply D|]. split; [done|].
      apply destroyEditor_none, D.
    - exists w0. by rewrite (destroyEditor_none w0 Hw). }
  split; [apply H|].
  intros p c es. destruct (life_total p c es) as (w1 & Hw1).
  destruct (H w1) as (w2 & Hd & Hn & _ & Hd2).
  exists w1, w2. split; [done|]. split; [done|]. split; [done|].
  unfold life, componentDidMount, exec in *.
  destruct (initializeEditor_ok (constructed p c)) as (w0 & H0 & _).
  rewrite (bind_ok _ _ _ _ _ H0) in Hw1. rewrite (bind_ok _ _ _ _ _ H0).
  destruct (run es w0) as [[[] w1']|] eqn:Hr; [|done].
  injection Hw1 as ->.
  change (es ++ [Unmount; Unmount]) with (es ++ [Unmount] ++ [Unmount]).
  rewrite app_assoc.
  by rewrite (run_snoc _ Unmount _ _ _ (run_snoc _ Unmount _ _ _ Hr Hd) Hd2).
Qed.

(** ** Updates *)

(** C10: while the accessor is null, [shouldComponentUpdate] answers
    [false] and changes nothing, whatever the new props are; of an update
    that leaves the context as it is only the new props, which React
    stores, remain. *)
Theorem update_without_editor_is_inert
    (w : World) (np : Props) (nc : CtxValue) :
  editor w = Ok (None, w) →
  shouldComponentUpdate np w = Ok (false, w) ∧
  (nc = context w →
   ∃ w', step (Update np nc) w = Ok (tt, w') ∧
         w' = set_context nc (set_props np w) ∧
         trace w' = trace w ∧ watchdog w' = watchdog w ∧
         heap w' = heap w ∧ cw_items w' = cw_items w ∧
         editors w' = editors w ∧ timers w' = timers w).
Proof.
  intros H. rewrite editor_eq in H. injection H as He.
  split; [by apply scu_no_editor|].
  intros Hnc. eexists. split; [|done]. cbn. unfold update.
  rewrite (bind_ok _ _ w (context w) w) by done.
  rewrite decide_True by done.
  by rewrite (bind_ok _ _ _ _ _ (scu_no_editor np w He)).
Qed.

(** Props with a new [id], new [data] and [disabled], during creation. *)
Lemma update_without_editor_is_inert_witness :
  editor creating_solo = Ok (None, creating_solo) ∧
  shouldComponentUpdate props_b creating_solo = Ok (false, creating_solo) ∧
  ∃ w', step (Update props_b PlainContext) creating_solo = Ok (tt, w') ∧
        trace w' = trace creating_solo.
Proof.
  assert (He : editor creating_solo = Ok (None, creating_solo)).
  { rewrite editor_eq. apply (f_equal (λ v, Ok (v, creating_solo))).
    vm_compute. reflexivity. }
  assert (Hc : PlainContext = context creating_solo)
    by (vm_compute; reflexivity).
  destruct (update_without_editor_is_inert creating_solo props_b
              PlainContext He) as (Hs & Hu).
  destruct (Hu Hc) as (w' & Hw' & _ & Ht & _).
  split; [exact He|]. split; [exact Hs|]. exists w'.
  split; [exact Hw'|exact Ht].
Defined.

(** C2: when [shouldComponentUpdate] gets props that keep the [id] while
    an editor is live, [setData] is called exactly when the new [data]
    differs from both the previous [data] prop and the editor's
    [getData()], and then once, with the new value; an update that leaves
    the context as it is consists of this call, after which React stores
    the new props. *)
Theorem content_pushed_iff_differs
    (w : World) (h : handle) (np : Props) :
  editor w = Ok (Some h, w) →
  p_id np = p_id (props w) →
  ∃ d w' delta,
    editor_getData h w = Ok (d, w) ∧
    shouldComponentUpdate np w = Ok (false, w') ∧
    trace w' = trace w ++ delta ∧
    List.filter is_setData delta =
      (if bool_decide (p_data np ≠ p_data (props w) ∧ Some d ≠ p_data np)
       then [SetData h (p_data np)]
       else []) ∧
    step (Update np (context w)) w
      = Ok (tt, set_context (context w) (set_props np w')).
Proof.
  intros H Hid. rewrite editor_eq in H. injection H as He.
  destruct (scu_same_id np w h He Hid) as (w1 & Hs & Q).
  exists (ed_data (editors w h)), w1, (in_place_log np h w).
  split; [done|]. split; [done|]. split; [apply Q|]. split.
  - rewrite filter_in_place_log. unfold data_differs.
    apply (f_equal (λ b : bool, if b then _ else _)).
    apply bool_decide_ext. split; intros [? ?]; split; congruence.
  - cbn. unfold update. rewrite (bind_ok _ _ w (context w) w) by done.
    rewrite decide_True by done. by rewrite (bind_ok _ _ _ _ _ Hs).
Qed.

(** New [data] for the live editor 7, whose content is ["<p>A</p>"]. *)
Lemma content_pushed_iff_differs_witness :
  editor ready_solo = Ok (Some 7, ready_solo) ∧
  p_id props_c = p_id (props ready_solo) ∧
  ∃ w' delta,
    shouldComponentUpdate props_c ready_solo = Ok (false, w') ∧
    trace w' = trace ready_solo ++ delta ∧
    List.filter is_setData delta = [SetData 7 (Some "<p>C</p>")].
Proof.
  assert (He : editor ready_solo = Ok (Some 7, ready_solo)).
  { rewrite editor_eq. apply (f_equal (λ v, Ok (v, ready_solo))).
    vm_compute. reflexivity. }
  assert (Hid : p_id props_c = p_id (props ready_solo))
    by (vm_compute; reflexivity).
  destruct (content_pushed_iff_differs ready_solo 7 props_c He Hid)
    as (d & w' & delta & Hg & Hs & Ht & Hf & _).
  split; [exact He|]. split; [exact Hid|]. exists w', delta.
  split; [exact Hs|]. split; [exact Ht|].
  unfold editor_getData, gets in Hg.
  apply (f_equal (λ r : Result (string * World),
           match r with Ok (x, _) => x | Throw _ => "" end)) in Hg.
  rewrite <- Hg in Hf. by vm_compute in Hf.
Defined.

(** ** The deferred ready task *)

(** C1 (defect): the task queued by a successful creation calls [onReady]
    with whatever the [editor] accessor returns when the task runs, and
    does not check that the component still owns the editor the task was
    queued for.  Unmounted between the creation and the task, the component
    calls [onReady] with null; and when the watchdog restarts the editor
    before the task of the first creation has run, that task reports the
    second editor, so that [onReady] is called twice with editor 8 and
    never with editor 7. *)
Theorem onReady_called_with_stale_accessor :
  let unmounted :=
    life props0 PlainContext [CreatorResolves 0 7; Unmount; TimerFires] in
  let restarted :=
    life props0 PlainContext
      [CreatorResolves 0 7; SoloError 0 4 true; CreatorResolves 0 8;
       TimerFires; TimerFires] in
  count is_created (the_trace unmounted) = 1 ∧
  List.filter is_onReady (the_trace unmounted) = [OnReady None] ∧
  the_editor unmounted = None ∧
  count is_created (the_trace restarted) = 2 ∧
  List.filter is_onReady (the_trace restarted)
    = [OnReady (Some 8); OnReady (Some 8)].
Proof. vm_compute. by repeat split. Qed.

(** ** A creation that fails *)

(** C6: when the promise of [create] rejects with [e], [onError] is called
    once, with [e], phase [initialization] and no restart announced; no
    timer task is queued, so no [onReady] follows from this attempt, whose
    promise cannot settle again; and the watchdog keeps no instance, so
    the accessor of a component that holds it returns null. *)
Theorem create_rejection_reported_once (w : World) (r : wref) (e : error) :
  reachable w →
  s_creating (slot_of r w) = true →
  s_pending (slot_of r w) = true →
  ∃ w',
    step (CreateRejects r e) w = Ok (tt, w') ∧
    trace w' = trace w ++ [OnError e Initialization false] ∧
    timers w' = timers w ∧
    s_editor (slot_of r w') = None ∧
    (∀ h, step (CreatorResolves r h) w' = Ok (tt, w')) ∧
    (∀ e', step (CreateRejects r e') w' = Ok (tt, w')) ∧
    (watchdog w = Some r → editor w' = Ok (None, w')).
Proof.
  intros R Hg Hp. pose proof (reachable_invariant w R) as I.
  destruct (create_rejects_sound r e w) as (w2 & Hw2 & T).
  inversion T as [| | | | | | |? ? Hst|? ? w1 ? _ _ U Q| | | | | | | | | |];
    subst.
  { by rewrite Hg, Hp in Hst. }
  assert (Hs : slot_of r w2 = slot_reject (slot_of r w)).
  { rewrite (slot_of_frame r w1 w2) by apply Q.
    by apply slot_of_slot_upd. }
  assert (He : s_editor (slot_of r w2) = None).
  { rewrite Hs. cbn. by apply (slot_of_wf r w I). }
  exists w2. split; [done|]. split; [|split; [|split; [done|split; [|split]]]].
  - rewrite (q_trace _ _ _ _ Q). by rewrite (su_trace _ _ _ _ U).
  - apply Q.
  - intros h. apply creator_resolves_stale. by rewrite Hs.
  - intros e'. apply create_rejects_stale. by rewrite Hs.
  - intros Hw.
    assert (Hw2' : watchdog w2 = Some r).
    { rewrite (fr_watchdog w1 w2) by apply Q.
      by rewrite (su_watchdog _ _ _ _ U). }
    assert (Hnone : editor_of w2 = None).
    { rewrite (editor_of_slot w2 r Hw2'), He.
      destruct (heap w2 r); [done|]. by destruct (s_registered _). }
    by rewrite editor_eq, Hnone.
Qed.

(** The first creation of a mounted component rejects with error 5. *)
Lemma create_rejection_reported_once_witness :
  reachable creating_solo ∧
  s_creating (slot_of 0 creating_solo) = true ∧
  s_pending (slot_of 0 creating_solo) = true ∧
  ∃ w',
    step (CreateRejects 0 5) creating_solo = Ok (tt, w') ∧
    trace w' = trace creating_solo ++ [OnError 5 Initialization false] ∧
    editor w' = Ok (None, w').
Proof.
  assert (R : reachable creating_solo).
  { exists props0, PlainContext, []. vm_compute. reflexivity. }
  assert (Hg : s_creating (slot_of 0 creating_solo) = true)
    by (vm_compute; reflexivity).
  assert (Hp : s_pending (slot_of 0 creating_solo) = true)
    by (vm_compute; reflexivity).
  assert (Hw : watchdog creating_solo = Some 0) by (vm_compute; reflexivity).
  destruct (create_rejection_reported_once creating_solo 0 5 R Hg Hp)
    as (w' & Hs & Ht & _ & _ & _ & _ & Hlive).
  split; [exact R|]. split; [exact Hg|]. split; [exact Hp|].
  exists w'. split; [exact Hs|]. split; [exact Ht|]. exact (Hlive Hw).
Defined.

(** ** Recreation *)

(** C3 (defect): when the render that brings a new [id] also brings another
    context value, React does not call [shouldComponentUpdate], so nothing
    destroys the watchdog before [componentDidUpdate] initialises the next
    one.  Mounted under a plain context with editor 7 live, then given a
    new [id] under a context watchdog: no [destroy] is ever called, the
    component holds the second watchdog, and once its creation has
    resolved the first watchdog still keeps editor 7 beside editor 8. *)
Theorem identity_change_under_new_context_skips_destroy :
  let r :=
    life props0 PlainContext
      [CreatorResolves 0 7; Update props_b ContextWatchdog;
       CreatorResolves 1 8] in
  p_id props_b ≠ p_id props0 ∧
  count is_create (the_trace r) = 2 ∧
  count is_destroy (the_trace r) = 0 ∧
  watchdog (world_of r props0) = Some 1 ∧
  the_editor r = Some 8 ∧
  holds (world_of r props0) 7 ∧
  holds (world_of r props0) 8.
Proof.
  cbv zeta. split; [discriminate|].
  split; [vm_compute; reflexivity|]. split; [vm_compute; reflexivity|].
  split; [vm_compute; reflexivity|]. split; [vm_compute; reflexivity|].
  split.
  - left. eexists 0, _. split; vm_compute; reflexivity.
  - right. exists 0. vm_compute. reflexivity.
Qed.

(** ** Error routing *)

Lemma adapter_slot_upd r f w w' r0 a :
  slot_upd r f w w' → heap w' r0 = Adapter a → heap w r0 = Adapter a.
Proof.
  intros U. rewrite (su_heap _ _ _ _ U). case_decide; [subst|done].
  by destruct (heap w r).
Qed.

Lemma listeners_ok_same w w' :
  watchdog w' = watchdog w →
  (∀ r a, heap w' r = Adapter a → heap w r = Adapter a) →
  cw_listeners w' = cw_listeners w →
  next_uid w' = next_uid w →
  listeners_ok w → listeners_ok w'.
Proof.
  intros Hw Hh Hl Hn L. split.
  - rewrite Hl, Hn. apply L.
  - rewrite Hl. apply L.
  - intros r a. rewrite Hw, Hl. intros Hr Ha. apply (lo_current _ L r a Hr).
    by apply Hh.
Qed.

Lemma listeners_ok_quiet t ts w w' :
  quiet t ts w w' → listeners_ok w → listeners_ok w'.
Proof.
  intros Q. pose proof (q_frame _ _ _ _ Q) as F.
  apply listeners_ok_same; try apply F.
  intros r a. by rewrite (fr_heap _ _ F).
Qed.

Lemma listeners_ok_slot_upd r f w w' :
  slot_upd r f w w' → listeners_ok w → listeners_ok w'.
Proof.
  intros U. apply listeners_ok_same; try apply U.
  intros r0 a. by eapply adapter_slot_upd.
Qed.

Lemma listeners_ok_item_upd i f w w' :
  item_upd i f w w' → listeners_ok w → listeners_ok w'.
Proof.
  intros U. apply listeners_ok_same; try apply U.
  intros r a. by rewrite (iu_heap _ _ _ _ U).
Qed.

Lemma listeners_ok_new_props np nc w :
  listeners_ok w → listeners_ok (set_context nc (set_props np w)).
Proof. intros L. split; cbn; apply L. Qed.

Lemma listeners_ok_destroy r w w' :
  destroy_post r w w' → listeners_ok w → listeners_ok w'.
Proof.
  intros D L. split.
  - rewrite (dp_listeners _ _ _ D), (dp_next_uid _ _ _ D). apply L.
  - rewrite (dp_listeners _ _ _ D). apply L.
  - intros r0 a. by rewrite (dp_watchdog _ _ _ D).
Qed.

Lemma listeners_ok_init w w' :
  init_post w w' → listeners_ok w → listeners_ok w'.
Proof.
  intros P L. split.
  - intros l. rewrite (ip_listeners _ _ P), (ip_next_uid _ _ P).
    destruct (instanceof_ContextWatchdog (context w)).
    + rewrite elem_of_app, list_elem_of_singleton. intros [Hl| ->].
      * pose proof (lo_fresh _ L l Hl). lia.
      * cbn. lia.
    + rewrite app_nil_r. apply L.
  - rewrite (ip_listeners _ _ P).
    destruct (instanceof_ContextWatchdog (context w)).
    + rewrite fmap_app. cbn. apply NoDup_app. split; [apply L|]. split.
      * intros i Hi. rewrite list_elem_of_singleton. intros ->.
        apply list_elem_of_fmap in Hi as (l & Hl & Hin).
        pose proof (lo_fresh _ L l Hin). lia.
      * apply NoDup_singleton.
    + rewrite app_nil_r. apply L.
  - intros r a. rewrite (ip_watchdog _ _ P). intros [= <-].
    rewrite (ip_heap_new _ _ P), (ip_listeners _ _ P).
    destruct (instanceof_ContextWatchdog (context w)); [|done].
    intros [= <-]. cbn. rewrite elem_of_app, list_elem_of_singleton. by right.
Qed.

Lemma listeners_ok_step w e w' :
  listeners_ok w → transition w e w' → listeners_ok w'.
Proof.
  intros L T. destruct T.
  - by apply listeners_ok_new_props.
  - apply listeners_ok_new_props. by eapply listeners_ok_quiet.
  - eapply listeners_ok_init; [done|].
    apply listeners_ok_new_props. by eapply listeners_ok_destroy.
  - done.
  - by eapply listeners_ok_destroy.
  - done.
  - eapply listeners_ok_slot_upd; [done|]. by eapply listeners_ok_quiet.
  - done.
  - eapply listeners_ok_quiet; [done|]. by eapply listeners_ok_slot_upd.
  - done.
  - by eapply listeners_ok_quiet.
  - done.
  - destruct b; [|subst; by eapply listeners_ok_quiet].
    eapply listeners_ok_slot_upd; [done|]. by eapply listeners_ok_quiet.
  - destruct (_ && _); [|subst; by eapply listeners_ok_quiet].
    eapply listeners_ok_item_upd; [done|]. by eapply listeners_ok_quiet.
  - eapply listeners_ok_quiet; [done|]. by eapply listeners_ok_quiet.
  - by eapply listeners_ok_quiet.
  - by eapply listeners_ok_quiet.
  - eapply listeners_ok_init; [done|]. by apply listeners_ok_new_props.
  - eapply listeners_ok_init; [done|]. by apply listeners_ok_new_props.
Qed.

Lemma reachable_listeners_ok w : reachable w → listeners_ok w.
Proof.
  apply reachable_ind.
  - intros p c w' P. apply (listeners_ok_init (constructed p c)); [done|].
    split; cbn; [by intros l Hl%elem_of_nil | constructor | done].
  - intros w1 e w2. apply listeners_ok_step.
Qed.

Lemma elem_of_routed ev ls l :
  l ∈ routed ev ls ↔ l ∈ ls ∧ itemId ev = l_id l.
Proof.
  unfold routed. rewrite !list_elem_of_In, List.filter_In.
  by rewrite bool_decide_eq_true.
Qed.

(** Among listeners with distinct ids, an event reaches the one of its id
    and no other. *)
Lemma routed_unique ev ls l :
  NoDup (l_id <$> ls) → l ∈ ls → itemId ev = l_id l → routed ev ls = [l].
Proof.
  intros Hnd Hl He. induction ls as [|l0 ls IH]; [by apply elem_of_nil in Hl|].
  cbn in Hnd. apply NoDup_cons in Hnd as [Hnotin Hnd].
  apply elem_of_cons in Hl as [<-|Hl]; cbn.
  - rewrite bool_decide_eq_true_2 by done. f_equal.
    destruct (routed ev ls) as [|l' ls'] eqn:Hr; [done|]. exfalso.
    assert (Hl' : l' ∈ routed ev ls) by (rewrite Hr; left).
    apply elem_of_routed in Hl' as [Hin Hid]. apply Hnotin.
    rewrite <- He, Hid. apply list_elem_of_fmap. by exists l'.
  - rewrite bool_decide_eq_false_2; [by apply IH|].
    intros Hid. apply Hnotin. rewrite <- Hid, He.
    apply list_elem_of_fmap. by exists l.
Qed.

(** C4: in Registry mode, an [itemError] of the context watchdog calls the
    error callbacks of the listeners whose adapter id is the event's
    [itemId], and no other.  The listener of the component's adapter is
    called, once, when the [itemId] is the adapter's own [_id], and then
    [onError] gets the payload as a runtime error; for any other [itemId]
    that listener does nothing. *)
Theorem item_error_routed_by_id
    (w : World) (r : wref) (a : EditorWatchdogAdapter) (ev : ItemErrorEvent) :
  reachable w →
  watchdog w = Some r →
  heap w r = Adapter a →
  let mine := {| l_id := _id a; l_callback := RuntimeErrorCallback |} in
  mine ∈ cw_listeners w ∧
  (∃ w',
     step (ItemError ev) w = Ok (tt, w') ∧
     trace w' =
       trace w ++
       runtime_errors (ev_error ev) (causesRestart ev)
         (routed ev (cw_listeners w))) ∧
  (itemId ev = _id a →
     routed ev (cw_listeners w) = [mine] ∧
     run_listener mine ev w =
       Ok (tt, log (OnError (ev_error ev) Runtime (causesRestart ev)) w)) ∧
  (itemId ev ≠ _id a →
     (mine ∉ routed ev (cw_listeners w)) ∧
     run_listener mine ev w = Ok (tt, w)).
Proof.
  intros R Hw Hr mine. pose proof (reachable_listeners_ok w R) as L.
  assert (Hmine : mine ∈ cw_listeners w) by by eapply (lo_current _ L).
  split; [done|]. split; [|split].
  - destruct (item_error_sound ev w) as (w' & Hw' & T).
    exists w'. split; [done|].
    inversion T as [| | | | | | | | | | | | |? w1 ? Q Hrest| | | | |]; subst.
    assert (Ht : trace w1 = trace w ++ runtime_errors (ev_error ev)
                   (causesRestart ev) (routed ev (cw_listeners w)))
      by apply Q.
    destruct (_ && _); [|by subst]. by rewrite (iu_trace _ _ _ _ Hrest).
  - intros Hid. split.
    + apply routed_unique; [apply L|done|done].
    + unfold run_listener. cbn. by rewrite decide_True.
  - intros Hid. split.
    + rewrite elem_of_routed. by intros [_ ?].
    + unfold run_listener. cbn. by rewrite decide_False.
Qed.

(** The registry reports an error of the live item 0, then of item 1. *)
Lemma item_error_routed_by_id_witness :
  reachable ready_registry ∧
  watchdog ready_registry = Some 0 ∧
  heap ready_registry 0
    = Adapter {| _id := 0; _creator := Some CreateEditorClosure |} ∧
  (∃ w',
     step (ItemError {| itemId := 0; causesRestart := true; ev_error := 3 |})
       ready_registry = Ok (tt, w') ∧
     trace w' = trace ready_registry ++ [OnError 3 Runtime true]) ∧
  (∃ w',
     step (ItemError {| itemId := 1; causesRestart := true; ev_error := 3 |})
       ready_registry = Ok (tt, w') ∧
     trace w' = trace ready_registry).
Proof.
  assert (R : reachable ready_registry).
  { exists props0, ContextWatchdog, [CreatorResolves 0 7].
    vm_compute. reflexivity. }
  assert (Hw : watchdog ready_registry = Some 0) by (vm_compute; reflexivity).
  assert (Hr : heap ready_registry 0
               = Adapter {| _id := 0; _creator := Some CreateEditorClosure |})
    by (vm_compute; reflexivity).
  split; [exact R|]. split; [exact Hw|]. split; [exact Hr|]. split.
  - destruct (item_error_routed_by_id ready_registry 0 _
                {| itemId := 0; causesRestart := true; ev_error := 3 |}
                R Hw Hr) as (_ & (w' & Hs & Ht) & Hmine & _).
    exists w'. split; [exact Hs|].
    rewrite Ht. rewrite (proj1 (Hmine eq_refl)). reflexivity.
  - destruct (item_error_routed_by_id ready_registry 0 _
                {| itemId := 1; causesRestart := true; ev_error := 3 |}
                R Hw Hr) as (_ & (w' & Hs & Ht) & _ & _).
    exists w'. split; [exact Hs|].
    rewrite Ht. vm_compute. reflexivity.
Defined.

(** ** The variant of the watchdog *)

Lemma follows_frame c w w' : frame w w' → follows c w → follows c w'.
Proof.
  intros F [Hc Hv]. unfold follows, variant in *.
  by rewrite (fr_context _ _ F), (fr_watchdog _ _ F), (fr_heap _ _ F).
Qed.

Lemma follows_quiet c t ts w w' : quiet t ts w w' → follows c w → follows c w'.
Proof. intros Q. apply follows_frame, Q. Qed.

Lemma follows_slot_upd c r f w w' :
  slot_upd r f w w' → follows c w → follows c w'.
Proof.
  intros U [Hc Hv]. unfold follows, variant in *.
  rewrite (su_context _ _ _ _ U), (su_watchdog _ _ _ _ U). split; [done|].
  intros b. destruct (watchdog w) as [r0|]; [|done].
  rewrite (is_adapter_slot_upd _ _ _ _ r0 U). apply Hv.
Qed.

Lemma follows_item_upd c i f w w' :
  item_upd i f w w' → follows c w → follows c w'.
Proof.
  intros U [Hc Hv]. unfold follows, variant in *.
  by rewrite (iu_context _ _ _ _ U), (iu_watchdog _ _ _ _ U),
    (iu_heap _ _ _ _ U).
Qed.

(** Each initialisation selects the variant by the context of the moment. *)
Lemma variant_init w w' :
  init_post w w' →
  variant w' = Some (instanceof_ContextWatchdog (context w)).
Proof.
  intros P. unfold variant.
  rewrite (ip_watchdog _ _ P), (ip_heap_new _ _ P).
  by destruct (instanceof_ContextWatchdog (context w)).
Qed.

Lemma follows_init w w' : init_post w w' → follows (context w) w'.
Proof.
  intros P. split; [apply P|]. rewrite (variant_init _ _ P). by intros b [= <-].
Qed.

Lemma follows_step c w e w' :
  keeps_context c e → follows c w → transition w e w' → follows c w'.
Proof.
  intros K F T. destruct T; cbn in K; subst.
  - destruct F as [_ Hv]. by split.
  - destruct (follows_quiet _ _ _ _ _ H1 F) as [_ Hv]. by split.
  - by apply (follows_init (set_context _ (set_props np w1))).
  - done.
  - destruct F as [Hc _]. split; [by rewrite (dp_context _ _ _ H0)|].
    unfold variant. by rewrite (dp_watchdog _ _ _ H0).
  - done.
  - eapply follows_slot_upd; [done|]. by eapply follows_quiet.
  - done.
  - eapply follows_quiet; [done|]. by eapply follows_slot_upd.
  - done.
  - by eapply follows_quiet.
  - done.
  - destruct b; [|subst; by eapply follows_quiet].
    eapply follows_slot_upd; [done|]. by eapply follows_quiet.
  - destruct (_ && _); [|subst; by eapply follows_quiet].
    eapply follows_item_upd; [done|]. by eapply follows_quiet.
  - eapply follows_quiet; [done|]. by eapply follows_quiet.
  - by eapply follows_quiet.
  - by eapply follows_quiet.
  - by apply (follows_init (set_context _ (set_props np w))).
  - by apply (follows_init (set_context _ (set_props np w))).
Qed.

(** The watchdog the component holds is of the variant its current
    context selects. *)
Lemma attuned_step w e w' :
  follows (context w) w → transition w e w' → follows (context w') w'.
Proof.
  intros F T.
  assert (Hsame : ∀ w1, follows (context w) w1 → follows (context w1) w1).
  { intros w1 [<- Hv]. by split. }
  destruct T.
  - destruct F as [_ Hv]. split; [done|]. cbn. by subst.
  - destruct (follows_quiet _ _ _ _ _ H1 F) as [_ Hv]. split; [done|].
    cbn. by subst.
  - rewrite (ip_context _ _ H3). by apply follows_init.
  - done.
  - split; [done|]. unfold variant. by rewrite (dp_watchdog _ _ _ H0).
  - done.
  - apply Hsame. eapply follows_slot_upd; [done|]. by eapply follows_quiet.
  - done.
  - apply Hsame. eapply follows_quiet; [done|]. by eapply follows_slot_upd.
  - done.
  - apply Hsame. by eapply follows_quiet.
  - done.
  - apply Hsame. destruct b; [|subst; by eapply follows_quiet].
    eapply follows_slot_upd; [done|]. by eapply follows_quiet.
  - apply Hsame. destruct (_ && _); [|subst; by eapply follows_quiet].
    eapply follows_item_upd; [done|]. by eapply follows_quiet.
  - apply Hsame. eapply follows_quiet; [done|]. by eapply follows_quiet.
  - apply Hsame. by eapply follows_quiet.
  - apply Hsame. by eapply follows_quiet.
  - rewrite (ip_context _ _ H0). by apply follows_init.
  - rewrite (ip_context _ _ H). by apply follows_init.
Qed.

(** C9, as stated, fails: a component mounted under a plain context holds
    a Solo watchdog; re-initialised once the ambient context is a
    [ContextWatchdog], it holds a Registry adapter. *)
Lemma variant_swapped_by_context_change :
  ¬ (∀ p c es w b,
       life p c es = Ok w → variant w = Some b →
       b = instanceof_ContextWatchdog c).
Proof.
  intros H.
  specialize (H props0 PlainContext swapping_life
                (world_of (life props0 PlainContext swapping_life) props0)
                true).
  assert (Hl : life props0 PlainContext swapping_life
               = Ok (world_of (life props0 PlainContext swapping_life) props0))
    by (vm_compute; reflexivity).
  assert (Hv : variant (world_of (life props0 PlainContext swapping_life)
                          props0) = Some true)
    by (vm_compute; reflexivity).
  specialize (H Hl Hv). discriminate.
Qed.

(** C9 (amended): every initialisation, at mount and at each
    re-initialisation by [componentDidUpdate], assigns a watchdog of the
    variant the context of that moment selects: the Registry adapter if it
    is a [ContextWatchdog], the Solo watchdog otherwise.  So the watchdog
    the component holds is always of the variant its current context
    selects; and in a life whose updates all carry the context of the
    mount, it is of the variant selected at the mount. *)
Theorem variant_follows_context
    (p : Props) (c : CtxValue) (es : list Event) (w : World) :
  life p c es = Ok w →
  (∀ w0, ∃ w1,
     _initializeEditor w0 = Ok (tt, w1) ∧
     variant w1 = Some (instanceof_ContextWatchdog (context w0))) ∧
  (∀ b, variant w = Some b → b = instanceof_ContextWatchdog (context w)) ∧
  (Forall (keeps_context c) es →
   context w = c ∧
   ∀ b, variant w = Some b → b = instanceof_ContextWatchdog c).
Proof.
  intros Hl. split; [|split].
  - intros w0. destruct (initializeEditor_ok w0) as (w1 & H1 & P).
    exists w1. split; [done|]. by apply variant_init.
  - enough (follows (context w) w) as [_ ?]; [done|].
    revert w Hl. apply life_ind.
    + intros w0 P. rewrite (ip_context _ _ P).
      by apply follows_init.
    + intros w1 e w2 _. apply attuned_step.
  - intros Hes. apply (life_ind p c es (follows c)); [| |done].
    + intros w0 P. by apply (follows_init (constructed p c)).
    + intros w1 e w2 He F T. apply (follows_step c w1 e w2); [|done..].
      rewrite Forall_forall in Hes. by apply Hes.
Qed.

(** Mounted under a plain context and re-initialised under a context
    watchdog, the component holds an adapter. *)
Lemma variant_follows_context_witness :
  context (world_of (life props0 PlainContext swapping_life) props0)
    = ContextWatchdog ∧
  variant (world_of (life props0 PlainContext swapping_life) props0)
    = Some true.
Proof.
  assert (Hl : life props0 PlainContext swapping_life
               = Ok (world_of (life props0 PlainContext swapping_life) props0))
    by (vm_compute; reflexivity).
  assert (Hc : context (world_of (life props0 PlainContext swapping_life)
                          props0) = ContextWatchdog)
    by (vm_compute; reflexivity).
  destruct (variant_follows_context _ _ _ _ Hl) as (_ & Hv & _).
  split; [exact Hc|].
  destruct (variant _) as [b|] eqn:Hb.
  - rewrite (Hv b eq_refl), Hc. reflexivity.
  - exfalso. vm_compute in Hb. discriminate.
Defined.

(** * Further properties *)

(** ** Every [onReady] answers one creation *)

Lemma count_runtime_errors {A} f e b (l : list A) :
  f (OnError e Runtime b) = false → count f (runtime_errors e b l) = 0.
Proof.
  intros H. unfold count, runtime_errors.
  induction l as [|a l IH]; [done|]. simpl. by rewrite H.
Qed.

Lemma count_forwards f k h w :
  f (OnChange h) = false → f (OnFocus h) = false → f (OnBlur h) = false →
  count f (forwards k h w) = 0.
Proof.
  intros H1 H2 H3. unfold count, forwards.
  induction (ed_listeners (editors w h)) as [|k' l IH]; [done|]. simpl.
  rewrite List.filter_app, length_app, IH, Nat.add_0_r.
  case_decide; [|done]. unfold forwarded.
  destruct k, (p_onChange (props w)), (p_onFocus (props w)),
    (p_onBlur (props w)); simpl; by rewrite ?H1, ?H2, ?H3.
Qed.

Lemma count_in_place_log f np h w :
  f (SetData h (p_data np)) = false →
  (∀ b, f (SetReadOnly h b) = false) →
  count f (in_place_log np h w) = 0.
Proof.
  intros H1 H2. unfold count, in_place_log.
  destruct (data_differs np w h), (p_disabled np); simpl;
    by rewrite ?H1, ?H2.
Qed.

Lemma destroy_log r w w' :
  destroy_post r w w' →
  ∃ t, trace w' = trace w ++ t ∧ timers w' = timers w ∧
       count is_onReady t = 0 ∧ count is_created t = 0.
Proof.
  intros D. eexists. split; [apply D|]. split; [apply D|].
  by destruct (heap w r).
Qed.

Lemma init_log w w' :
  init_post w w' →
  ∃ t, trace w' = trace w ++ t ∧ timers w' = timers w ∧
       count is_onReady t = 0 ∧ count is_created t = 0.
Proof.
  intros P. eexists. split; [apply P|]. split; [apply P|].
  by destruct (warns (props w)), (instanceof_ContextWatchdog (context w)).
Qed.

Lemma transition_ready w e w' :
  transition w e w' → ∃ t, trace w' = trace w ++ t ∧ ready_step w w' t.
Proof.
  intros T. destruct T.
  - exists []. split; [by rewrite app_nil_r|]. by apply rs_other.
  - exists (in_place_log np h w). split; [apply H1|].
    apply rs_other; [apply H1| |]; by apply count_in_place_log.
  - destruct (destroy_log _ _ _ H2) as (t1 & Ht1 & Hs1 & Hr1 & Hc1).
    destruct (init_log _ _ H3) as (t2 & Ht2 & Hs2 & Hr2 & Hc2).
    cbn in Ht2, Hs2. exists (t1 ++ t2). split.
    + by rewrite Ht2, Ht1, app_assoc.
    + apply rs_other; [congruence| |]; rewrite count_app; lia.
  - exists []. split; [by rewrite app_nil_r|]. by apply rs_other.
  - destruct (destroy_log _ _ _ H0) as (t1 & Ht1 & Hs1 & Hr1 & Hc1).
    exists t1. split; [done|]. by apply rs_other.
  - exists []. split; [by rewrite app_nil_r|]. by apply rs_other.
  - exists (created_log h (props w)). split.
    + rewrite (su_trace _ _ _ _ H2). apply H1.
    + apply rs_created.
      * rewrite (su_timers _ _ _ _ H2). apply H1.
      * unfold count. by rewrite filter_created_log.
      * unfold count, created_log. cbn. by destruct (p_disabled (props w)).
  - exists []. split; [by rewrite app_nil_r|]. by apply rs_other.
  - exists [OnError e Initialization false]. split.
    + rewrite (q_trace _ _ _ _ H2). by rewrite (su_trace _ _ _ _ H1).
    + apply rs_other; [|done..].
      rewrite (q_timers _ _ _ _ H2). done.
  - exists []. split; [by rewrite app_nil_r|]. by apply rs_other.
  - eexists. split; [apply H0|].
    apply (rs_fired _ _ _ ts); [done|apply H0| |];
      by destruct (p_onReady (props w)).
  - exists []. split; [by rewrite app_nil_r|]. by apply rs_other.
  - exists (runtime_errors e b (ew_listeners s)).
    assert (Ht : trace w2 = trace w1 ∧ timers w2 = timers w1).
    { destruct b; [|by subst].
      by rewrite (su_trace _ _ _ _ H2), (su_timers _ _ _ _ H2). }
    destruct Ht as [-> Hts]. split; [apply H1|].
    apply rs_other; [rewrite Hts; apply H1| |]; by apply count_runtime_errors.
  - eexists.
    assert (Ht : trace w2 = trace w1 ∧ timers w2 = timers w1).
    { destruct (_ && _); [|by subst].
      by rewrite (iu_trace _ _ _ _ H0), (iu_timers _ _ _ _ H0). }
    destruct Ht as [-> Hts]. split; [apply H|].
    apply rs_other; [rewrite Hts; apply H| |]; by apply count_runtime_errors.
  - exists (forwards ChangeData h w1). split.
    + rewrite (q_trace _ _ _ _ H0), (q_trace _ _ _ _ H). by rewrite app_nil_r.
    + apply rs_other; [apply H0| |]; by apply count_forwards.
  - eexists. split; [apply H|].
    apply rs_other; [apply H| |]; by apply count_forwards.
  - eexists. split; [apply H|].
    apply rs_other; [apply H| |]; by apply count_forwards.
  - destruct (init_log _ _ H0) as (t & Ht & Hs & Hr & Hc).
    exists t. split; [done|]. by apply rs_other.
  - destruct (init_log _ _ H) as (t & Ht & Hs & Hr & Hc).
    exists t. split; [done|]. by apply rs_other.
Qed.

Lemma props_step w e w' :
  supplies_onReady e → transition w e w' →
  p_onReady (props w) = true → p_onReady (props w') = true.
Proof.
  intros S T Hp. destruct T; cbn in S; try done.
  - by rewrite (ip_props _ _ H3).
  - by rewrite (dp_props _ _ _ H0).
  - by rewrite (su_props _ _ _ _ H2), (fr_props w w1) by apply H1.
  - by rewrite (fr_props w1 w2), (su_props _ _ _ _ H1) by apply H2.
  - by rewrite (fr_props w w1) by apply H0.
  - destruct b; [|subst; by rewrite (fr_props w w1) by apply H1].
    by rewrite (su_props _ _ _ _ H2), (fr_props w w1) by apply H1.
  - destruct (_ && _); [|subst; by rewrite (fr_props w w1) by apply H].
    by rewrite (iu_props _ _ _ _ H0), (fr_props w w1) by apply H.
  - by rewrite (fr_props w1 w2), (fr_props w w1) by (apply H0 || apply H).
  - by rewrite (fr_props w w1) by apply H.
  - by rewrite (fr_props w w1) by apply H.
  - by rewrite (ip_props _ _ H0).
  - by rewrite (ip_props _ _ H).
Qed.

(** In every life, the [onReady] calls made and the timer tasks still
    queued never outnumber the creations that succeeded; they match them
    one for one when [onReady] is supplied throughout, so that once the
    queue is empty every creation has had exactly one call. *)
Theorem ready_calls_match_creations
    (p : Props) (c : CtxValue) (es : list Event) (w : World) :
  life p c es = Ok w →
  (count is_onReady (trace w) + length (timers w)
     ≤ count is_created (trace w))%nat ∧
  (p_onReady p = true → Forall supplies_onReady es →
   count is_onReady (trace w) + length (timers w)
     = count is_created (trace w)).
Proof.
  intros Hl. split.
  - revert w Hl. apply life_ind.
    + intros w P. destruct (init_log _ _ P) as (t & Ht & Hs & Hr & Hc).
      rewrite Ht, Hs, !count_app, Hr, Hc. cbn. lia.
    + intros w e w' _ IH T.
      destruct (transition_ready _ _ _ T) as (t & Ht & [Hs Hr Hc|Hs Hr Hc|ts Hs Hs' Hr Hc]);
        rewrite Ht, !count_app, Hr, Hc.
      * rewrite Hs. lia.
      * rewrite Hs, length_app. cbn. lia.
      * rewrite Hs'. rewrite Hs in IH. cbn in IH.
        destruct (p_onReady (props w)); lia.
  - intros Hp Hes.
    enough (p_onReady (props w) = true ∧
            count is_onReady (trace w) + length (timers w)
              = count is_created (trace w)) as [_ ?]; [done|].
    revert w Hl. apply life_ind.
    + intros w P. destruct (init_log _ _ P) as (t & Ht & Hs & Hr & Hc).
      split; [by rewrite (ip_props _ _ P)|].
      rewrite Ht, Hs, !count_app, Hr, Hc. cbn. lia.
    + intros w e w' He [IHp IH] T.
      assert (Se : supplies_onReady e).
      { rewrite Forall_forall in Hes. by apply Hes. }
      split; [by eapply props_step|].
      destruct (transition_ready _ _ _ T) as (t & Ht & [Hs Hr Hc|Hs Hr Hc|ts Hs Hs' Hr Hc]);
        rewrite Ht, !count_app, Hr, Hc.
      * rewrite Hs. lia.
      * rewrite Hs, length_app. cbn. lia.
      * rewrite Hs'. rewrite Hs in IH. cbn in IH. rewrite IHp. lia.
Qed.

(** Two creations (the second after a restart), three timer runs. *)
Lemma ready_calls_match_creations_witness :
  count is_onReady
    (the_trace (life props0 PlainContext
       [CreatorResolves 0 7; SoloError 0 4 true; CreatorResolves 0 8;
        TimerFires; TimerFires; TimerFires]))
  = 2.
Proof.
  pose proof (ready_calls_match_creations props0 PlainContext
    [CreatorResolves 0 7; SoloError 0 4 true; CreatorResolves 0 8;
     TimerFires; TimerFires; TimerFires]) as H.
  destruct (life props0 PlainContext _) as [w|] eqn:Hl;
    [|vm_compute in Hl; discriminate].
  destruct (H w eq_refl) as [_ Heq].
  assert (Ht : length (timers w) = 0).
  { apply (f_equal (λ r, match r with
                         | Ok x => length (timers x)
                         | Throw _ => 1
                         end)) in Hl.
    vm_compute in Hl. by symmetry. }
  assert (Hc : count is_created (trace w) = 2).
  { apply (f_equal (λ r, match r with
                         | Ok x => count is_created (trace x)
                         | Throw _ => 0
                         end)) in Hl.
    vm_compute in Hl. by symmetry. }
  cbn [the_trace]. rewrite <- Hc, <- Heq, Ht; [lia|reflexivity|].
  repeat constructor.
Defined.

(** ** In-place updates *)

(** An update that keeps the [id] of a live editor never asks React to
    re-render and never touches the watchdog; it sets [isReadOnly] exactly
    when [disabled] is among the new props, to the prop's value, whether or
    not the data is pushed. *)
Theorem in_place_update_applies_disabled
    (w : World) (h : handle) (np : Props) :
  editor w = Ok (Some h, w) →
  p_id np = p_id (props w) →
  ∃ w' delta,
    shouldComponentUpdate np w = Ok (false, w') ∧
    trace w' = trace w ++ delta ∧
    List.filter (λ e, match e with SetReadOnly _ _ => true | _ => false end)
      delta
      = match p_disabled np with Some b => [SetReadOnly h b] | None => [] end ∧
    count is_create delta = 0 ∧
    watchdog w' = watchdog w ∧ heap w' = heap w ∧
    editor w' = Ok (Some h, w').
Proof.
  intros H Hid. rewrite editor_eq in H. injection H as He.
  destruct (scu_same_id np w h He Hid) as (w1 & Hs & Q).
  pose proof (q_frame _ _ _ _ Q) as F.
  exists w1, (in_place_log np h w).
  split; [done|]. split; [apply Q|]. split; [|split; [|split; [|split]]].
  - unfold in_place_log. by destruct (data_differs np w h), (p_disabled np).
  - unfold in_place_log, count.
    by destruct (data_differs np w h), (p_disabled np).
  - apply F.
  - apply F.
  - by rewrite editor_eq, (editor_of_frame _ _ F), He.
Qed.

(** [disabled] goes from absent to [true], the data does not change. *)
Lemma in_place_update_applies_disabled_witness :
  ∃ w',
    shouldComponentUpdate
      {| p_id := None; p_data := Some "<p>A</p>"; p_config := ∅;
         p_disabled := Some true; p_onChange := false; p_onFocus := false;
         p_onBlur := false; p_onReady := true |} ready_solo
      = Ok (false, w') ∧
    trace w' = trace ready_solo ++ [SetReadOnly 7 true].
Proof.
  assert (He : editor ready_solo = Ok (Some 7, ready_solo)).
  { rewrite editor_eq. apply (f_equal (λ v, Ok (v, ready_solo))).
    vm_compute. reflexivity. }
  destruct (in_place_update_applies_disabled ready_solo 7
              {| p_id := None; p_data := Some "<p>A</p>"; p_config := ∅;
                 p_disabled := Some true; p_onChange := false;
                 p_onFocus := false; p_onBlur := false; p_onReady := true |}
              He eq_refl) as (w' & delta & Hs & _ & _ & _ & _ & _ & _).
  exists w'. split; [exact Hs|].
  apply (f_equal (λ r : Result (bool * World),
           match r with Ok (_, x) => trace x | Throw _ => [] end)) in Hs.
  rewrite <- Hs. vm_compute. reflexivity.
Defined.

(** ** The guarded paths *)

(** [shouldComponentUpdate], the [editor] accessor, [componentWillUnmount],
    the [.then] callback of [_createEditor], the deferred ready task and
    the three listeners return in every world and for all props: a null
    check precedes every member access on [this.editor] and
    [this.watchdog], the accessor catches what the registry throws, and
    every optional callback prop is tested before it is called. *)
Theorem guarded_paths_never_throw (w : World) :
  (∀ np, ∃ b w', shouldComponentUpdate np w = Ok (b, w')) ∧
  (∃ v, editor w = Ok (v, w)) ∧
  (∃ w', componentWillUnmount w = Ok (tt, w')) ∧
  (∀ h, ∃ w', created h w = Ok (tt, w')) ∧
  (∀ t, ∃ w', run_task t w = Ok (tt, w')) ∧
  (∀ k h, ∃ w', forward k h w = Ok (tt, w')).
Proof.
  split; [|split; [|split; [|split; [|split]]]].
  - intros np. destruct (editor_of w) as [h|] eqn:He.
    + destruct (decide (p_id np = p_id (props w))) as [Hid|Hid].
      * destruct (scu_same_id np w h He Hid) as (w1 & Hs & _). by eexists _, _.
      * destruct (scu_new_id np w h He Hid) as (r & w1 & _ & Hs & _).
        by eexists _, _.
    + eexists _, _. by apply scu_no_editor.
  - eexists. apply editor_eq.
  - destruct (unmount_sound w) as (w' & H & _). by exists w'.
  - intros h. destruct (created_quiet h w w) as (w' & H & _); [done..|].
    by exists w'.
  - intros []. unfold run_task.
    rewrite (bind_ok _ _ w (props w) w) by done.
    destruct (p_onReady (props w)); [|by eexists].
    rewrite (bind_ok _ _ _ _ _ (editor_eq w)). by eexists.
  - intros k h. destruct (forward_quiet k h w) as (w' & H & _). by exists w'.
Qed.

(** ** The scenarios of the specification *)

(** Mount with [data = "<p>A</p>"], the engine resolves: [onReady] fires
    once, with an editor whose content is ["<p>A</p>"]. *)
Example scenario_mount_ready :
  let r := life props0 PlainContext [CreatorResolves 0 7; TimerFires] in
  brief <$> the_trace r =
    [WatchdogCreate 0 ∅; EngineCreated 7; Attach 7 ChangeData;
     Attach 7 Focus; Attach 7 Blur; OnReady (Some 7)] ∧
  ed_data (editors (world_of r props0) 7) = "<p>A</p>".
Proof. vm_compute. by split. Qed.

(** Update the [id] while ready: the old watchdog is destroyed, a new one
    created with the configuration of the new props. *)
Example scenario_new_id :
  the_trace (life props0 PlainContext
               [CreatorResolves 0 7; Update props_b PlainContext]) =
    [WatchdogCreate 0 (config_of props0); EngineCreated 7;
     Attach 7 ChangeData; Attach 7 Focus; Attach 7 Blur;
     WatchdogDestroy 0; WatchdogCreate 1 (config_of props_b)] ∧
  config_of props_b !! "initialData" = Some (JStr "<p>B</p>").
Proof. vm_compute. by split. Qed.

(** The creation rejects with error 5: one [onError], no [onReady]. *)
Example scenario_create_rejects :
  brief <$> the_trace (life props0 PlainContext
                         [CreateRejects 0 5; TimerFires; CreatorResolves 0 7])
    = [WatchdogCreate 0 ∅; OnError 5 Initialization false].
Proof. vm_compute. reflexivity. Qed.

(** Under a context watchdog: creation, an error of the item with restart,
    a foreign error, the restart's creation, unmount. *)
Example scenario_registry :
  brief <$> the_trace (life props0 ContextWatchdog
    [CreatorResolves 0 7; TimerFires;
     ItemError {| itemId := 0; causesRestart := true; ev_error := 3 |};
     ItemError {| itemId := 9; causesRestart := true; ev_error := 4 |};
     CreatorResolves 0 8; TimerFires; Unmount; Unmount])
    = [WatchdogCreate 0 ∅; ContextAdd 0 ∅; EngineCreated 7;
       Attach 7 ChangeData; Attach 7 Focus; Attach 7 Blur; OnReady (Some 7);
       OnError 3 Runtime true; EngineCreated 8; Attach 8 ChangeData;
       Attach 8 Focus; Attach 8 Blur; OnReady (Some 8);
       WatchdogDestroy 0; ContextRemove 0].
Proof. vm_compute. reflexivity. Qed.

(** Unmounted before its timer runs, the component calls [onReady] with
    null: the callback gets what the accessor returns at that moment. *)
Example scenario_unmount_before_ready :
  brief <$> the_trace (life props0 PlainContext
                         [CreatorResolves 0 7; Unmount; TimerFires])
    = [WatchdogCreate 0 ∅; EngineCreated 7; Attach 7 ChangeData;
       Attach 7 Focus; Attach 7 Blur; WatchdogDestroy 0; OnReady None].
Proof. vm_compute. reflexivity. Qed.

(** The context becomes a context watchdog between the mount and an
    update: React skips [shouldComponentUpdate], nothing is destroyed, and
    the second watchdog is an adapter, which adds its item to the
    registry. *)
Example scenario_context_change :
  let r := life props0 PlainContext swapping_life in
  brief <$> the_trace r =
    [WatchdogCreate 0 ∅; EngineCreated 7; Attach 7 ChangeData;
     Attach 7 Focus; Attach 7 Blur;
     WatchdogCreate 1 ∅; ContextAdd 0 ∅] ∧
  is_adapter (heap (world_of r props0) 0) = false ∧
  is_adapter (heap (world_of r props0) 1) = true.
Proof. vm_compute. by repeat split. Qed.

(** [config = { initialData: '' }] and [data = '<p>A</p>']: no warning, and
    the data prop is what the engine gets. *)
Example scenario_empty_initialData :
  the_trace (life props_empty_initial PlainContext []) =
    [WatchdogCreate 0 {["initialData" := JStr "<p>A</p>"]}].
Proof. vm_compute. reflexivity. Qed.

(** The live component keeps its one editor in its watchdog. *)
Example scenario_ready_holds :
  holds ready_solo 7 ∧ editor_of ready_solo = Some 7.
Proof.
  split; [|vm_compute; reflexivity].
  left. eexists 0, _. split; vm_compute; reflexivity.
Qed.

(** * The rest of the component *)

(** ** What a step does to the editors *)

Lemma for_each_editors {A} (f : A → M unit) l :
  (∀ a w, ∃ w', f a w = Ok (tt, w') ∧ editors w' = editors w) →
  ∀ w, ∃ w', for_each f l w = Ok (tt, w') ∧ editors w' = editors w.
Proof.
  intros Hf. apply (for_each_rel (λ w w', editors w' = editors w));
    [done | congruence | done].
Qed.

Lemma forward_editors k h w :
  ∃ w', forward k h w = Ok (tt, w') ∧ editors w' = editors w.
Proof.
  unfold forward. unfold_m. cbn.
  destruct k, (p_onChange (props w)), (p_onFocus (props w)),
    (p_onBlur (props w)); by eexists.
Qed.

Lemma fire_editors h k w :
  ∃ w', fire h k w = Ok (tt, w') ∧ editors w' = editors w.
Proof.
  unfold fire. rewrite (bind_ok _ _ w (ed_listeners (editors w h)) w) by done.
  apply for_each_editors. intros k' w0. case_decide.
  - apply forward_editors.
  - by exists w0.
Qed.

Lemma scu_same_id_editors np w h :
  editor_of w = Some h → p_id np = p_id (props w) →
  ∃ w1, shouldComponentUpdate np w = Ok (false, w1) ∧
    ∀ h', editors w1 h' =
          if decide (h' = h) then
            {| ed_data := if data_differs np w h then default "" (p_data np)
                          else ed_data (editors w h);
               ed_isReadOnly :=
                 default (ed_isReadOnly (editors w h)) (p_disabled np);
               ed_listeners := ed_listeners (editors w h) |}
          else editors w h'.
Proof.
  intros H Hid. unfold shouldComponentUpdate.
  rewrite (bind_ok _ _ _ _ _ (editor_eq w)), H. cbn.
  rewrite (bind_ok _ _ w (props w) w) by done.
  rewrite bool_decide_eq_true_2 by done. cbn.
  rewrite (bind_ok _ _ _ _ _ (shouldUpdateEditor_eq np w h H)).
  unfold editor_setData, editor_set_isReadOnly. unfold_m.
  destruct (data_differs np w h), (p_disabled np) as [b|];
    repeat first [ progress msim | rewrite H ];
    eexists; (split; [reflexivity|]); intros h'; cbn;
    unfold insert, fn_insert; repeat case_decide; subst; try done;
    by destruct (editors w h).
Qed.

Lemma forced_update_editors np nc w :
  ∃ w', forced_update np nc w = Ok (tt, w') ∧ editors w' = editors w.
Proof.
  destruct (forced_update_ok np nc w) as (w' & Hf & P).
  exists w'. split; [done|]. by rewrite (ip_editors _ _ P).
Qed.

Lemma update_editors np nc w :
  ∃ w', update np nc w = Ok (tt, w') ∧
        ∀ h', editors w' h' = editors_after (Update np nc) w h'.
Proof.
  unfold update, editors_after.
  rewrite (bind_ok _ _ w (context w) w) by done.
  destruct (decide (nc = context w)) as [Hnc|Hnc]; cycle 1.
  { destruct (forced_update_editors np nc w) as (w' & Hf & E).
    exists w'. split; [done|]. intros h'. rewrite E.
    destruct (editor_of w); [|done].
    rewrite decide_False; [done|]. by intros [? _]. }
  destruct (editor_of w) as [h|] eqn:He.
  - destruct (decide (p_id np = p_id (props w))) as [Hid|Hid].
    + destruct (scu_same_id_editors np w h He Hid) as (w1 & Hs & E).
      eexists. split.
      * rewrite (bind_ok _ _ _ _ _ Hs). reflexivity.
      * intros h'. cbn. rewrite E.
        destruct (decide (h' = h)) as [->|Hne].
        -- by rewrite decide_True.
        -- rewrite decide_False; [done|]. by intros (_ & _ & ?).
    + destruct (scu_new_id np w h He Hid) as (r & w1 & Hw & Hs & D).
      destruct (initializeEditor_ok (set_context nc (set_props np w1)))
        as (w2 & Hi & P).
      exists w2. split.
      * rewrite (bind_ok _ _ _ _ _ Hs). unfold componentDidUpdate.
        unfold_m. cbn. by rewrite Hi.
      * intros h'. rewrite (ip_editors _ _ P). cbn.
        rewrite (dp_editors _ _ _ D).
        rewrite decide_False; [done|]. by intros (_ & ? & _).
  - eexists. split.
    + rewrite (bind_ok _ _ _ _ _ (scu_no_editor np w He)). reflexivity.
    + done.
Qed.

Lemma created_editors h w :
  ∃ w', created h w = Ok (tt, w') ∧ heap w' = heap w ∧
    ∀ h', editors w' h' =
          if decide (h' = h) then
            {| ed_data := ed_data (editors w h);
               ed_isReadOnly :=
                 default (ed_isReadOnly (editors w h)) (p_disabled (props w));
               ed_listeners := ed_listeners (editors w h) ++ bridge |}
          else editors w h'.
Proof.
  unfold created, editor_set_isReadOnly, editor_on, setTimeout.
  unfold_m. cbn.
  destruct (p_disabled (props w)) as [b|]; cbn;
    eexists; (split; [reflexivity|]); (split; [done|]); intros h'; cbn;
    unfold insert, fn_insert; repeat case_decide; subst; try done;
    cbn; by rewrite <- ?app_assoc.
Qed.

Lemma creator_resolves_editors r h w :
  ∃ w', creator_resolves r h w = Ok (tt, w') ∧
        ∀ h', editors w' h' = editors_after (CreatorResolves r h) w h'.
Proof.
  unfold creator_resolves, editors_after.
  rewrite (bind_ok _ _ w (slot_of r w) w) by done.
  destruct (s_creator (slot_of r w)) as [[]|] eqn:Hc; cycle 1.
  { by exists w. }
  destruct (s_creating (slot_of r w)) eqn:Hg; cycle 1.
  { by exists w. }
  rewrite bool_decide_eq_true_2 by done. cbn [andb].
  set (w1 := set_editor h
    {| ed_data := initial_content (s_config (slot_of r w));
       ed_isReadOnly := false; ed_listeners := [] |}
    (log (EngineCreated h) w)).
  destruct (created_editors h w1) as (w2 & Hw2 & Hh & E2).
  destruct (update_slot_ok r (resolve_of (heap w2 r) h) w2) as (w3 & Hw3 & U).
  exists w3. split.
  - unfold_m. cbn. fold w1. unfold run_creator_then. by rewrite Hw2.
  - intros h'. rewrite (su_editors _ _ _ _ U), E2. subst w1. cbn.
    rewrite fn_lookup_insert. cbn.
    destruct (decide (h' = h)) as [->|Hne].
    + by rewrite bool_decide_eq_true_2.
    + rewrite bool_decide_eq_false_2 by done.
      by rewrite fn_lookup_insert_ne.
Qed.

Lemma step_editors e w :
  ∃ w', step e w = Ok (tt, w') ∧
        ∀ h', editors w' h' = editors_after e w h'.
Proof.
  destruct e; simpl.
  - apply update_editors.
  - unfold componentWillUnmount. destruct (watchdog w) as [r|] eqn:Hw.
    + destruct (destroyEditor_some w r Hw) as (w1 & Hd & D).
      exists w1. split; [done|]. intros h'. by rewrite (dp_editors _ _ _ D).
    + exists w. split; [by apply destroyEditor_none|done].
  - apply creator_resolves_editors.
  - unfold create_rejects.
    rewrite (bind_ok _ _ w (slot_of r w) w) by done.
    destruct (_ && _); [|by exists w].
    destruct (update_slot_ok r slot_reject w) as (w1 & Hw1 & U).
    eexists. split; [by rewrite (bind_ok _ _ _ _ _ Hw1)|].
    intros h'. cbn. by rewrite (su_editors _ _ _ _ U).
  - unfold timer_fires. rewrite (bind_ok _ _ w (timers w) w) by done.
    destruct (timers w) as [|[] ts]; [by exists w|].
    unfold run_task. unfold_m. msim. cbn.
    destruct (p_onReady (props w)); msim; by eexists.
  - unfold solo_error. rewrite (bind_ok _ _ w (heap w r) w) by done.
    destruct (heap w r) as [s|a]; [|by exists w].
    destruct (_ && _); [|by exists w].
    destruct (for_each_editors (λ cb, run_callback cb e restart)
                (ew_listeners s)) with (w := w) as (w1 & Hw1 & E1).
    { intros [] w0. by eexists. }
    rewrite (bind_ok _ _ _ _ _ Hw1). destruct restart.
    + destruct (update_slot_ok r (slot_restart (saved w1 (ew_slot s))) w1)
        as (w2 & Hw2 & U).
      exists w2. split; [done|]. intros h'.
      by rewrite (su_editors _ _ _ _ U), E1.
    + exists w1. split; [done|]. intros h'. by rewrite E1.
  - unfold item_error. rewrite (bind_ok _ _ w (cw_listeners w) w) by done.
    destruct (for_each_editors (λ l, run_listener l ev) (cw_listeners w))
      with (w := w) as (w1 & Hw1 & E1).
    { intros l w0. unfold run_listener. case_decide; [|by exists w0].
      destruct (l_callback l). by eexists. }
    rewrite (bind_ok _ _ _ _ _ Hw1).
    rewrite (bind_ok _ _ w1 (cw_items w1 (itemId ev)) w1) by done.
    destruct (_ && _); eexists; (split; [reflexivity|]); intros h'; cbn;
      by rewrite E1.
  - unfold typed. unfold_m. cbn.
    destruct (fire_editors h ChangeData
      (set_editor h
         {| ed_data := d; ed_isReadOnly := ed_isReadOnly (editors w h);
            ed_listeners := ed_listeners (editors w h) |} w))
      as (w2 & Hw2 & E).
    exists w2. split; [by rewrite Hw2|]. intros h'. rewrite E. cbn.
    unfold insert, fn_insert. by repeat case_decide.
  - destruct (fire_editors h Focus w) as (w1 & Hw1 & E).
    exists w1. split; [done|]. intros h'. by rewrite E.
  - destruct (fire_editors h Blur w) as (w1 & Hw1 & E).
    exists w1. split; [done|]. intros h'. by rewrite E.
  - destruct (forced_update_editors nextProps nextContext w) as (w1 & Hw1 & E).
    exists w1. split; [done|]. intros h'. by rewrite E.
Qed.

(** Both readings of a step, for the same result. *)
Lemma step_full e w :
  ∃ w', step e w = Ok (tt, w') ∧ transition w e w' ∧
        ∀ h', editors w' h' = editors_after e w h'.
Proof.
  destruct (step_sound e w) as (w1 & H1 & T).
  destruct (step_editors e w) as (w2 & H2 & E).
  rewrite H1 in H2. injection H2 as <-. by exists w1.
Qed.

(** Induction over a life, with what each step did. *)
Lemma life_full_ind p c es (P : World → Prop) :
  (∀ w, init_post (constructed p c) w → P w) →
  (∀ w e w', e ∈ es → P w → step e w = Ok (tt, w') → transition w e w' →
             (∀ h', editors w' h' = editors_after e w h') → P w') →
  ∀ w, life p c es = Ok w → P w.
Proof.
  intros Hinit Hstep w Hlife.
  unfold life, componentDidMount, exec in Hlife.
  destruct (initializeEditor_ok (constructed p c)) as (w0 & H0 & I0).
  rewrite (bind_ok _ _ _ _ _ H0) in Hlife.
  specialize (Hinit w0 I0). clear H0 I0.
  revert w0 Hinit Hlife.
  induction es as [|e es IH]; intros w0 HP Hlife.
  - unfold run in Hlife. cbn in Hlife. by injection Hlife as <-.
  - destruct (step_full e w0) as (w1 & H1 & T & E).
    unfold run in Hlife. simpl in Hlife.
    rewrite (bind_ok _ _ _ _ _ H1) in Hlife.
    apply (IH (λ w2 e' w3 He', Hstep w2 e' w3 (list_elem_of_further _ _ _ He'))
              w1); [|done].
    apply (Hstep w0 e w1); [left|done..].
Qed.

(** ** The accessor across steps *)

Lemma editor_of_init w w' : init_post w w' → editor_of w' = None.
Proof.
  intros P. rewrite (editor_of_slot w' (next_ref w) (ip_watchdog _ _ P)).
  unfold slot_of. rewrite (ip_heap_new _ _ P).
  destruct (instanceof_ContextWatchdog (context w)) eqn:Hc; [|done].
  cbn. rewrite (ip_items _ _ P), Hc. cbn.
  by rewrite bool_decide_eq_true_2.
Qed.

Lemma editor_of_destroy r w w' : destroy_post r w w' → editor_of w' = None.
Proof. intros D. unfold editor_of. by rewrite (dp_watchdog _ _ _ D). Qed.

Lemma editor_of_new_props np nc w :
  editor_of (set_context nc (set_props np w)) = editor_of w.
Proof. done. Qed.

(** After a step on the slot of [r], the accessor returns what it returned,
    or what that slot now keeps. *)
Lemma editor_of_slot_upd r f w w' h0 :
  slot_upd r f w w' → editor_of w' = Some h0 →
  editor_of w = Some h0 ∨ s_editor (f (slot_of r w)) = Some h0.
Proof.
  intros U. unfold editor_of, slot_of.
  rewrite (su_watchdog _ _ _ _ U).
  destruct (watchdog w) as [r0|]; [|done].
  rewrite (su_heap _ _ _ _ U).
  destruct (decide (r0 = r)) as [->|Hne].
  - destruct (heap w r) as [s|a] eqn:Hr; cbn; [by right|].
    rewrite (su_items _ _ _ _ U), Hr, decide_True by done.
    destruct (s_registered _); [by right|done].
  - destruct (heap w r0) as [s0|a0]; [by left|].
    rewrite (su_items _ _ _ _ U).
    destruct (heap w r) as [s|a]; [by left|].
    case_decide as Hi; [|by left]. rewrite Hi.
    destruct (s_registered (f _)); [by right|done].
Qed.

Lemma editor_of_slot_upd_keep r f w w' :
  slot_upd r f w w' →
  (∀ s, s_editor (f s) = s_editor s ∧ s_registered (f s) = s_registered s) →
  editor_of w' = editor_of w.
Proof.
  intros U Hf. unfold editor_of.
  rewrite (su_watchdog _ _ _ _ U).
  destruct (watchdog w) as [r0|]; [|done].
  rewrite (su_heap _ _ _ _ U).
  destruct (decide (r0 = r)) as [->|Hne].
  - destruct (heap w r) as [s|a] eqn:Hr; cbn.
    + unfold solo_editor. cbn. apply Hf.
    + rewrite (su_items _ _ _ _ U), Hr, decide_True by done.
      by rewrite (proj1 (Hf _)), (proj2 (Hf _)).
  - destruct (heap w r0) as [s0|a0]; [done|].
    rewrite (su_items _ _ _ _ U).
    destruct (heap w r) as [s|a]; [done|].
    case_decide as Hi; [|done].
    by rewrite (proj1 (Hf _)), (proj2 (Hf _)), Hi.
Qed.

Lemma editor_of_item_restart i d w w' h0 :
  item_upd i (slot_restart d) w w' → editor_of w' = Some h0 →
  editor_of w = Some h0.
Proof.
  intros U. unfold editor_of.
  rewrite (iu_watchdog _ _ _ _ U), (iu_heap _ _ _ _ U).
  destruct (watchdog w) as [r0|]; [|done].
  destruct (heap w r0) as [s0|a0]; [done|].
  rewrite (iu_items _ _ _ _ U). case_decide; [|done].
  cbn. by destruct (s_registered _).
Qed.

(** ** The live editor *)

Lemma live_ok_step w e w' :
  live_ok w → transition w e w' →
  (∀ h', editors w' h' = editors_after e w h') → live_ok w'.
Proof.
  intros L T E h0 He. destruct T; cbn -[bridge] in E |- *.
  - rewrite editor_of_new_props in He. congruence.
  - rewrite editor_of_new_props in He.
    rewrite (editor_of_frame w w1) in He by apply H1.
    assert (h0 = h) as -> by congruence.
    rewrite E, H, decide_True by done. cbn.
    destruct (L h H) as [Hl Hr]. split; [done|]. by intros b ->.
  - rewrite (editor_of_init _ _ H3) in He. done.
  - by apply L.
  - rewrite (editor_of_destroy _ _ _ H0) in He. done.
  - by apply L.
  - assert (Hen : bool_decide (is_Some (s_creator (slot_of r w))) = true).
    { apply bool_decide_eq_true_2. by rewrite H. }
    rewrite E, Hen, H0. cbn -[bridge]. clear E Hen.
    assert (Hp : props w2 = props w).
    { by rewrite (su_props _ _ _ _ H2), (fr_props w w1) by apply H1. }
    rewrite Hp.
    destruct (editor_of_slot_upd _ _ _ _ _ H2 He) as [He1|He1].
    + rewrite (editor_of_frame w w1) in He1 by apply H1.
      case_bool_decide as Hh; [subst|by apply L].
      split; [done|]. by intros b ->.
    + assert (h0 = h) as ->.
      { destruct (heap w r); cbn in He1; [congruence|].
        destruct (s_destroyed _); congruence. }
      rewrite bool_decide_eq_true_2 by done.
      split; [done|]. by intros b ->.
  - by apply L.
  - rewrite E.
    assert (Hp : props w2 = props w).
    { by rewrite (fr_props w1 w2), (su_props _ _ _ _ H1) by apply H2. }
    rewrite Hp. apply L.
    rewrite (editor_of_frame w1 w2) in He by apply H2.
    by rewrite (editor_of_slot_upd_keep _ _ _ _ H1) in He.
  - by apply L.
  - rewrite E. rewrite (fr_props w w1) by apply H0. apply L.
    by rewrite (editor_of_frame w w1) in He by apply H0.
  - by apply L.
  - rewrite E. destruct b.
    + rewrite (su_props _ _ _ _ H2), (fr_props w w1) by apply H1. apply L.
      destruct (editor_of_slot_upd _ _ _ _ _ H2 He) as [He1|He1]; [|done].
      by rewrite (editor_of_frame w w1) in He1 by apply H1.
    + subst. rewrite (fr_props w w1) by apply H1. apply L.
      by rewrite (editor_of_frame w w1) in He by apply H1.
  - rewrite E. destruct (_ && _).
    + rewrite (iu_props _ _ _ _ H0), (fr_props w w1) by apply H. apply L.
      apply (editor_of_item_restart _ _ _ _ _ H0) in He.
      by rewrite (editor_of_frame w w1) in He by apply H.
    + subst. rewrite (fr_props w w1) by apply H. apply L.
      by rewrite (editor_of_frame w w1) in He by apply H.
  - rewrite E.
    assert (He' : editor_of w = Some h0).
    { rewrite (editor_of_frame w1 w2) in He by apply H0.
      by rewrite (editor_of_frame w w1) in He by apply H. }
    rewrite (fr_props w1 w2), (fr_props w w1) by (apply H0 || apply H).
    destruct (L h0 He') as [Hl Hr].
    case_decide; [subst|done]. done.
  - rewrite E. rewrite (fr_props w w1) by apply H. apply L.
    by rewrite (editor_of_frame w w1) in He by apply H.
  - rewrite E. rewrite (fr_props w w1) by apply H. apply L.
    by rewrite (editor_of_frame w w1) in He by apply H.
  - rewrite (editor_of_init _ _ H0) in He. done.
  - rewrite (editor_of_init _ _ H) in He. done.
Qed.

Lemma reachable_live_ok w : reachable w → live_ok w.
Proof.
  intros (p & c & es & Hl). revert w Hl. apply life_full_ind.
  - intros w P h He. by rewrite (editor_of_init _ _ P) in He.
  - intros w e w' _ L _ T E. by eapply live_ok_step.
Qed.

(** ** The bridge from the editor's events to the callback props *)

Lemma forwards_bridge k h w :
  ed_listeners (editors w h) = bridge →
  forwards k h w = forwarded k h (props w).
Proof.
  intros H. unfold forwards. rewrite H.
  destruct k; cbn; by rewrite ?app_nil_r.
Qed.

Lemma editor_of_live w h : editor w = Ok (Some h, w) → editor_of w = Some h.
Proof. rewrite editor_eq. congruence. Qed.

Lemma fire_bridge h k w :
  ed_listeners (editors w h) = bridge →
  ∃ w', fire h k w = Ok (tt, w') ∧
        quiet (forwarded k h (props w)) (timers w) w w' ∧
        editors w' = editors w.
Proof.
  intros Hb.
  destruct (fire_quiet h k w) as (w1 & Hw1 & Q).
  destruct (fire_editors h k w) as (w2 & Hw2 & E).
  rewrite Hw1 in Hw2. injection Hw2 as <-.
  exists w1. by rewrite <- (forwards_bridge k h w Hb).
Qed.

(** The live editor of a mounted component carries exactly one
    listener for each of [change:data], [focus] and [blur], however many
    creations, restarts and updates came before: when it fires one of
    them, the matching callback prop ([onChange], [onFocus], [onBlur]) is
    called exactly once if it is supplied, and nothing is called if it is
    not; a change leaves the editor with the content typed. *)
Theorem live_editor_events_forwarded_once
    (w : World) (h : handle) (k : EvKind) (d : string) :
  reachable w →
  editor w = Ok (Some h, w) →
  ∃ w',
    step (fired k h d) w = Ok (tt, w') ∧
    trace w' = trace w ++ forwarded k h (props w) ∧
    timers w' = timers w ∧
    editor w' = Ok (Some h, w') ∧
    (k = ChangeData → ed_data (editors w' h) = d).
Proof.
  intros R He. apply editor_of_live in He.
  destruct (reachable_live_ok w R h He) as [Hb _].
  destruct k; cbn [fired step].
  - unfold typed. unfold_m. cbn.
    set (w1 := set_editor h _ w).
    assert (Hb1 : ed_listeners (editors w1 h) = bridge).
    { subst w1. cbn. by rewrite fn_lookup_insert. }
    destruct (fire_bridge h ChangeData w1 Hb1) as (w' & Hw' & Q & E).
    exists w'. rewrite Hw'. split; [done|].
    pose proof (q_frame _ _ _ _ Q) as F.
    split; [apply Q|]. split; [apply Q|]. split.
    + rewrite editor_eq, (editor_of_frame _ _ F). subst w1.
      by rewrite editor_of_set_editor, He.
    + intros _. rewrite E. subst w1. cbn. by rewrite fn_lookup_insert.
  - destruct (fire_bridge h Focus w Hb) as (w' & Hw' & Q & E).
    exists w'. split; [done|].
    pose proof (q_frame _ _ _ _ Q) as F.
    split; [apply Q|]. split; [apply Q|]. split; [|done].
    by rewrite editor_eq, (editor_of_frame _ _ F), He.
  - destruct (fire_bridge h Blur w Hb) as (w' & Hw' & Q & E).
    exists w'. split; [done|].
    pose proof (q_frame _ _ _ _ Q) as F.
    split; [apply Q|]. split; [apply Q|]. split; [|done].
    by rewrite editor_eq, (editor_of_frame _ _ F), He.
Qed.

(** The callbacks arrive while the first editor is being created; once it
    is live, typing reaches [onChange] once. *)
Lemma live_editor_events_forwarded_once_witness :
  ∃ w',
    step (Typed 7 "<p>typed</p>") listening_solo = Ok (tt, w') ∧
    trace w' = trace listening_solo ++ [OnChange 7] ∧
    ed_data (editors w' 7) = "<p>typed</p>".
Proof.
  assert (R : reachable listening_solo).
  { exists props0, PlainContext,
      [Update props_listening PlainContext; CreatorResolves 0 7].
    vm_compute. reflexivity. }
  assert (He : editor listening_solo = Ok (Some 7, listening_solo)).
  { rewrite editor_eq. apply (f_equal (λ v, Ok (v, listening_solo))).
    vm_compute. reflexivity. }
  assert (Hp : forwarded ChangeData 7 (props listening_solo) = [OnChange 7])
    by (vm_compute; reflexivity).
  destruct (live_editor_events_forwarded_once listening_solo 7 ChangeData
              "<p>typed</p>" R He) as (w' & Hs & Ht & _ & _ & Hd).
  exists w'. split; [exact Hs|]. split.
  - rewrite Ht, Hp. reflexivity.
  - exact (Hd eq_refl).
Defined.

(** ** The read-only flag *)

(** Whenever the component has a live editor and the [disabled] key
    is among its current props, the editor's [isReadOnly] flag has the
    prop's value: props delivered while the editor was being created or
    restarted are applied when it becomes live, later ones in place. *)
Theorem live_editor_follows_disabled (w : World) (h : handle) (b : bool) :
  reachable w →
  editor w = Ok (Some h, w) →
  p_disabled (props w) = Some b →
  ed_isReadOnly (editors w h) = b.
Proof.
  intros R He Hd. apply editor_of_live in He.
  by destruct (reachable_live_ok w R h He) as [_ Hr]; apply Hr.
Qed.

(** [disabled: true] arrives while the first editor is being created. *)
Lemma live_editor_follows_disabled_witness :
  ed_isReadOnly (editors listening_solo 7) = true.
Proof.
  assert (R : reachable listening_solo).
  { exists props0, PlainContext,
      [Update props_listening PlainContext; CreatorResolves 0 7].
    vm_compute. reflexivity. }
  assert (He : editor listening_solo = Ok (Some 7, listening_solo)).
  { rewrite editor_eq. apply (f_equal (λ v, Ok (v, listening_solo))).
    vm_compute. reflexivity. }
  assert (Hd : p_disabled (props listening_solo) = Some true)
    by (vm_compute; reflexivity).
  exact (live_editor_follows_disabled listening_solo 7 true R He Hd).
Defined.

(** ** Watchdogs and registry items are made and disposed of once *)

Lemma count_le f g t :
  (∀ e, f e = true → g e = true) → (count f t ≤ count g t)%nat.
Proof.
  intros H. unfold count. induction t as [|e t IH]; [done|]. simpl.
  destruct (f e) eqn:Hf.
  - rewrite (H e Hf). simpl. lia.
  - destruct (g e); simpl; lia.
Qed.

Lemma lifecycle_create_of r e : is_create_of r e = true → is_lifecycle e = true.
Proof. by destruct e. Qed.

Lemma lifecycle_destroy_of r e : is_destroy_of r e = true → is_lifecycle e = true.
Proof. by destruct e. Qed.

Lemma lifecycle_add_of i e : is_add_of i e = true → is_lifecycle e = true.
Proof. by destruct e. Qed.

Lemma lifecycle_remove_of i e : is_remove_of i e = true → is_lifecycle e = true.
Proof. by destruct e. Qed.

Lemma ledger_same t w w' :
  trace w' = trace w ++ t → count is_lifecycle t = 0 →
  watchdog w' = watchdog w → next_ref w' = next_ref w →
  next_uid w' = next_uid w → held_id w' = held_id w →
  ledger w → ledger w'.
Proof.
  intros Ht Hc Hw Hr Hu Hi L.
  assert (Hz : ∀ f, (∀ e, f e = true → is_lifecycle e = true) → count f t = 0).
  { intros f Hf. pose proof (count_le f is_lifecycle t Hf). lia. }
  split; intros x; rewrite ?Ht, ?count_app, ?Hw, ?Hr, ?Hu, ?Hi.
  - rewrite (Hz _ (lifecycle_create_of x)), Nat.add_0_r. apply L.
  - rewrite (Hz _ (lifecycle_destroy_of x)), Nat.add_0_r. apply L.
  - rewrite (Hz _ (lifecycle_add_of x)), Nat.add_0_r. apply L.
  - rewrite (Hz _ (lifecycle_remove_of x)), Nat.add_0_r. apply L.
  - apply L.
  - apply L.
Qed.

Lemma held_id_frame w w' : frame w w' → held_id w' = held_id w.
Proof.
  intros F. unfold held_id.
  by rewrite (fr_watchdog _ _ F), (fr_heap _ _ F).
Qed.

Lemma held_id_slot_upd r f w w' : slot_upd r f w w' → held_id w' = held_id w.
Proof.
  intros U. unfold held_id. rewrite (su_watchdog _ _ _ _ U).
  destruct (watchdog w) as [r0|]; [|done].
  rewrite (su_heap _ _ _ _ U). case_decide; [subst|done].
  by destruct (heap w r).
Qed.

Lemma ledger_quiet t ts w w' :
  count is_lifecycle t = 0 → quiet t ts w w' → ledger w → ledger w'.
Proof.
  intros Hc Q. pose proof (q_frame _ _ _ _ Q) as F.
  apply (ledger_same t); [apply Q|done|apply F..|by apply held_id_frame].
Qed.

Lemma ledger_slot_upd r f w w' : slot_upd r f w w' → ledger w → ledger w'.
Proof.
  intros U. apply (ledger_same []);
    [by rewrite app_nil_r, (su_trace _ _ _ _ U)|done|apply U..|].
  by eapply held_id_slot_upd.
Qed.

Lemma ledger_item_upd i f w w' : item_upd i f w w' → ledger w → ledger w'.
Proof.
  intros U. apply (ledger_same []);
    [by rewrite app_nil_r, (iu_trace _ _ _ _ U)|done|apply U..|].
  unfold held_id. by rewrite (iu_watchdog _ _ _ _ U), (iu_heap _ _ _ _ U).
Qed.

Lemma ledger_new_props np nc w :
  ledger w → ledger (set_context nc (set_props np w)).
Proof. intros L. split; cbn; apply L. Qed.

Ltac tally_atom := first [ lia | congruence | intros [= ?]; lia ].

Ltac tally :=
  unfold count; cbn;
  repeat match goal with
    | |- context [bool_decide ?P] => destruct (bool_decide_reflect P); cbn
    | |- context [decide ?P] => destruct (decide P)
    end;
  repeat match goal with H : _ ∧ _ |- _ => destruct H end;
  repeat match goal with
    | H : Some ?a ≠ Some ?b |- _ => assert (a ≠ b) by congruence; clear H
    end;
  subst;
  first
    [ lia
    | congruence
    | exfalso;
      match goal with
      | H : ¬ _ |- _ =>
          apply H; first [ split; tally_atom | tally_atom ]
      end ].

Lemma ledger_destroy r w w' :
  watchdog w = Some r → destroy_post r w w' → ledger w → ledger w'.
Proof.
  intros Hw D L.
  assert (Hh : held_id w' = None).
  { unfold held_id. by rewrite (dp_watchdog _ _ _ D). }
  assert (Hh0 : held_id w =
                match heap w r with Adapter a => Some (_id a) | Solo _ => None end).
  { unfold held_id. by rewrite Hw. }
  pose proof (lg_alloc _ L r Hw) as Hlt.
  split; intros x; rewrite ?(dp_trace _ _ _ D), ?count_app,
    ?(dp_watchdog _ _ _ D), ?(dp_next_ref _ _ _ D), ?(dp_next_uid _ _ _ D),
    ?Hh; try done; revert x.
  - intros r0. rewrite (lg_create _ L).
    assert (count (is_create_of r0)
              (WatchdogDestroy r ::
               match heap w r with
               | Adapter a => [ContextRemove (_id a)]
               | Solo _ => []
               end) = 0) as -> by by destruct (heap w r).
    lia.
  - intros r0. pose proof (lg_destroy _ L r0) as Hb. rewrite Hw in Hb.
    assert (count (is_destroy_of r0)
              (WatchdogDestroy r ::
               match heap w r with
               | Adapter a => [ContextRemove (_id a)]
               | Solo _ => []
               end) = if decide (r0 = r) then 1 else 0) as ->.
    { destruct (heap w r); tally. }
    revert Hb. tally.
  - intros i. rewrite (lg_add _ L).
    assert (count (is_add_of i)
              (WatchdogDestroy r ::
               match heap w r with
               | Adapter a => [ContextRemove (_id a)]
               | Solo _ => []
               end) = 0) as -> by by destruct (heap w r).
    lia.
  - intros i. pose proof (lg_remove _ L i) as Hb. rewrite Hh0 in Hb.
    pose proof (lg_id _ L) as Hid. rewrite Hh0 in Hid.
    destruct (heap w r) as [s|a].
    + change (count (is_remove_of i) [WatchdogDestroy r]) with 0.
      revert Hb. tally.
    + specialize (Hid (_id a) eq_refl).
      assert (count (is_remove_of i)
                [WatchdogDestroy r; ContextRemove (_id a)]
              = if decide (i = _id a) then 1 else 0) as -> by tally.
      revert Hb. tally.
Qed.

Lemma ledger_init w w' : init_post w w' → ledger w → ledger w'.
Proof.
  intros P L.
  assert (Hh : held_id w' =
               if instanceof_ContextWatchdog (context w)
               then Some (next_uid w) else None).
  { unfold held_id. rewrite (ip_watchdog _ _ P), (ip_heap_new _ _ P).
    by destruct (instanceof_ContextWatchdog (context w)). }
  split; intros x; rewrite ?(ip_trace _ _ P), ?count_app,
    ?(ip_watchdog _ _ P), ?(ip_next_ref _ _ P), ?(ip_next_uid _ _ P), ?Hh;
    revert x.
  - intros r. rewrite (lg_create _ L).
    destruct (warns (props w)), (instanceof_ContextWatchdog (context w));
      tally.
  - intros r. pose proof (lg_destroy _ L r) as Hb. revert Hb.
    destruct (warns (props w)), (instanceof_ContextWatchdog (context w));
      tally.
  - intros i. rewrite (lg_add _ L).
    destruct (warns (props w)), (instanceof_ContextWatchdog (context w));
      tally.
  - intros i. pose proof (lg_remove _ L i) as Hb. revert Hb.
    destruct (warns (props w)), (instanceof_ContextWatchdog (context w));
      tally.
  - intros r [= <-]. lia.
  - intros i. destruct (instanceof_ContextWatchdog (context w)); [|done].
    intros [= <-]. lia.
Qed.

Lemma lifecycle_in_place_log np h w : count is_lifecycle (in_place_log np h w) = 0.
Proof. by apply count_in_place_log. Qed.

Lemma lifecycle_created_log h p : count is_lifecycle (created_log h p) = 0.
Proof. unfold count, created_log. cbn. by destruct (p_disabled p). Qed.

Lemma ledger_step w e w' : ledger w → transition w e w' → ledger w'.
Proof.
  intros L T. destruct T.
  - by apply ledger_new_props.
  - apply ledger_new_props.
    eapply ledger_quiet; [apply lifecycle_in_place_log|done..].
  - eapply ledger_init; [done|].
    apply ledger_new_props. by eapply ledger_destroy.
  - done.
  - by eapply ledger_destroy.
  - done.
  - eapply ledger_slot_upd; [done|].
    eapply ledger_quiet; [apply lifecycle_created_log|done..].
  - done.
  - eapply ledger_quiet; [|done|by eapply ledger_slot_upd]. done.
  - done.
  - eapply ledger_quiet; [|done..]. by destruct (p_onReady (props w)).
  - done.
  - assert (L1 : ledger w1).
    { eapply ledger_quiet; [|done..]. by apply count_runtime_errors. }
    destruct b; [|by subst]. by eapply ledger_slot_upd.
  - assert (L1 : ledger w1).
    { eapply ledger_quiet; [|done..]. by apply count_runtime_errors. }
    destruct (_ && _); [|by subst]. by eapply ledger_item_upd.
  - eapply ledger_quiet; [|done|by eapply (ledger_quiet [])].
    by apply count_forwards.
  - eapply ledger_quiet; [|done..]. by apply count_forwards.
  - eapply ledger_quiet; [|done..]. by apply count_forwards.
  - eapply ledger_init; [done|]. by apply ledger_new_props.
  - eapply ledger_init; [done|]. by apply ledger_new_props.
Qed.

Lemma ledger_constructed p c : ledger (constructed p c).
Proof. split; cbn; try done; intros; tally. Qed.

Lemma reachable_ledger w : reachable w → ledger w.
Proof.
  apply reachable_ind.
  - intros p c w' P.
    apply (ledger_init (constructed p c)); [done|apply ledger_constructed].
  - intros w1 e w2. apply ledger_step.
Qed.

(** Each watchdog the component allocates has [create] called on it
    exactly once, and no other reference ever has; [destroy] is called on
    a watchdog at most once, only after its [create], and never while the
    component holds it. *)
Theorem watchdog_created_once_destroyed_at_most_once (w : World) (r : wref) :
  reachable w →
  count (is_create_of r) (trace w)
    = (if decide (r < next_ref w) then 1 else 0) ∧
  (count (is_destroy_of r) (trace w)
     ≤ count (is_create_of r) (trace w))%nat ∧
  (watchdog w = Some r →
   r < next_ref w ∧ count (is_destroy_of r) (trace w) = 0).
Proof.
  intros R. pose proof (reachable_ledger w R) as L.
  pose proof (lg_destroy _ L r) as Hd.
  split; [apply L|]. split.
  - rewrite (lg_create _ L). revert Hd. tally.
  - intros Hw. split; [by apply L|]. rewrite Hw in Hd. revert Hd. tally.
Qed.

(** The watchdog of the live editor: created once, not destroyed. *)
Lemma watchdog_created_once_destroyed_at_most_once_witness :
  count (is_create_of 0) (trace ready_solo) = 1 ∧
  count (is_destroy_of 0) (trace ready_solo) = 0.
Proof.
  assert (R : reachable ready_solo).
  { exists props0, PlainContext, [CreatorResolves 0 7].
    vm_compute. reflexivity. }
  assert (Hn : next_ref ready_solo = 1) by (vm_compute; reflexivity).
  assert (Hw : watchdog ready_solo = Some 0) by (vm_compute; reflexivity).
  destruct (watchdog_created_once_destroyed_at_most_once ready_solo 0 R)
    as (Hc & _ & Hd).
  rewrite Hn in Hc. rewrite decide_True in Hc by lia.
  split; [exact Hc|exact (proj2 (Hd Hw))].
Defined.

(** Each id an adapter draws from [uid] is added to the context watchdog
    exactly once, and no other id ever is; an id is removed at most once,
    only after it was added, and never while the component holds its
    adapter: an adapter removes the item it added and no other. *)
Theorem registry_item_added_once_removed_at_most_once (w : World) (i : uid) :
  reachable w →
  count (is_add_of i) (trace w)
    = (if decide (i < next_uid w) then 1 else 0) ∧
  (count (is_remove_of i) (trace w) ≤ count (is_add_of i) (trace w))%nat ∧
  (held_id w = Some i →
   i < next_uid w ∧ count (is_remove_of i) (trace w) = 0).
Proof.
  intros R. pose proof (reachable_ledger w R) as L.
  pose proof (lg_remove _ L i) as Hd.
  split; [apply L|]. split.
  - rewrite (lg_add _ L). revert Hd. tally.
  - intros Hw. split; [by apply L|]. rewrite Hw in Hd. revert Hd. tally.
Qed.

(** The item of the live editor: added once, not removed. *)
Lemma registry_item_added_once_removed_at_most_once_witness :
  count (is_add_of 0) (trace ready_registry) = 1 ∧
  count (is_remove_of 0) (trace ready_registry) = 0.
Proof.
  assert (R : reachable ready_registry).
  { exists props0, ContextWatchdog, [CreatorResolves 0 7].
    vm_compute. reflexivity. }
  assert (Hn : next_uid ready_registry = 1) by (vm_compute; reflexivity).
  assert (Hh : held_id ready_registry = Some 0) by (vm_compute; reflexivity).
  destruct (registry_item_added_once_removed_at_most_once ready_registry 0 R)
    as (Hc & _ & Hd).
  rewrite Hn in Hc. rewrite decide_True in Hc by lia.
  split; [exact Hc|exact (proj2 (Hd Hh))].
Defined.

(** ** After unmounting *)

Lemma run_app es1 es2 w :
  run (es1 ++ es2) w =
  match run es1 w with
  | Ok (_, w1) => run es2 w1
  | Throw e => Throw e
  end.
Proof.
  revert w. unfold run. induction es1 as [|e es1 IH]; intros w; [done|].
  simpl. unfold mbind, M_bind.
  destruct (step e w) as [[[] w1]|]; [apply IH|done].
Qed.

Lemma life_split p c es e es' w :
  life p c (es ++ e :: es') = Ok w →
  ∃ w1 w2, life p c es = Ok w1 ∧ step e w1 = Ok (tt, w2) ∧
           run es' w2 = Ok (tt, w).
Proof.
  unfold life, componentDidMount, exec.
  destruct (initializeEditor_ok (constructed p c)) as (w0 & H0 & _).
  rewrite !(bind_ok _ _ _ _ _ H0), run_app.
  destruct (run es w0) as [[[] w1]|]; [|done].
  unfold run at 1. simpl. unfold mbind, M_bind.
  destruct (step e w1) as [[[] w2]|] eqn:Hs; [|done].
  fold (run es'). destruct (run es' w2) as [[[] w3]|] eqn:Hr; [|done].
  intros [= <-]. by exists w1, w2.
Qed.

(** Once unmounted, the component makes and disposes of nothing: a step
    that is not an update leaves [this.watchdog] null and calls neither
    [create] nor [destroy]. *)
Lemma late_step w e w' :
  watchdog w = None → is_update e = false → transition w e w' →
  watchdog w' = None ∧
  ∃ t, trace w' = trace w ++ t ∧ count is_lifecycle t = 0.
Proof.
  intros Hw Hu T. destruct T; try discriminate Hu; try congruence.
  - split; [done|]. exists []. by rewrite app_nil_r.
  - split; [done|]. exists []. by rewrite app_nil_r.
  - split.
    + by rewrite (su_watchdog _ _ _ _ H2), (fr_watchdog w w1) by apply H1.
    + exists (created_log h (props w)). split.
      * rewrite (su_trace _ _ _ _ H2). apply H1.
      * apply lifecycle_created_log.
  - split; [done|]. exists []. by rewrite app_nil_r.
  - split.
    + by rewrite (fr_watchdog w1 w2), (su_watchdog _ _ _ _ H1) by apply H2.
    + exists [OnError e Initialization false]. split; [|done].
      rewrite (q_trace _ _ _ _ H2). by rewrite (su_trace _ _ _ _ H1).
  - split; [done|]. exists []. by rewrite app_nil_r.
  - split; [by rewrite (fr_watchdog w w1) by apply H0|].
    eexists. split; [apply H0|]. by destruct (p_onReady (props w)).
  - split; [done|]. exists []. by rewrite app_nil_r.
  - assert (Ht : trace w2 = trace w1 ∧ watchdog w2 = watchdog w1).
    { destruct b; [|by subst].
      by rewrite (su_trace _ _ _ _ H2), (su_watchdog _ _ _ _ H2). }
    destruct Ht as [-> ->]. split; [by rewrite (fr_watchdog w w1) by apply H1|].
    eexists. split; [apply H1|]. by apply count_runtime_errors.
  - assert (Ht : trace w2 = trace w1 ∧ watchdog w2 = watchdog w1).
    { destruct (_ && _); [|by subst].
      by rewrite (iu_trace _ _ _ _ H0), (iu_watchdog _ _ _ _ H0). }
    destruct Ht as [-> ->]. split; [by rewrite (fr_watchdog w w1) by apply H|].
    eexists. split; [apply H|]. by apply count_runtime_errors.
  - split.
    + by rewrite (fr_watchdog w1 w2), (fr_watchdog w w1)
        by (apply H0 || apply H).
    + exists (forwards ChangeData h w1). split; [|by apply count_forwards].
      rewrite (q_trace _ _ _ _ H0), (q_trace _ _ _ _ H). by rewrite app_nil_r.
  - split; [by rewrite (fr_watchdog w w1) by apply H|].
    eexists. split; [apply H|]. by apply count_forwards.
  - split; [by rewrite (fr_watchdog w w1) by apply H|].
    eexists. split; [apply H|]. by apply count_forwards.
Qed.

(** Unmounting is final.  Whatever happens afterwards to a component
    React no longer updates (timers, promises that settle late, errors of
    editors left behind, editor events), it never takes a watchdog again:
    [this.watchdog] and the [editor] accessor stay null, and neither
    [create] nor [destroy], [add] nor [remove] is called again. *)
Theorem unmount_is_final
    (p : Props) (c : CtxValue) (es es' : list Event) (w : World) :
  Forall (λ e, is_update e = false) es' →
  life p c (es ++ Unmount :: es') = Ok w →
  watchdog w = None ∧
  editor w = Ok (None, w) ∧
  ∃ w0 late,
    life p c (es ++ [Unmount]) = Ok w0 ∧
    trace w = trace w0 ++ late ∧
    count is_lifecycle late = 0.
Proof.
  intros Hes Hl.
  destruct (life_split _ _ _ _ _ _ Hl) as (w1 & w2 & Hl1 & Hs & Hr).
  assert (Hl2 : life p c (es ++ [Unmount]) = Ok w2).
  { unfold life, componentDidMount, exec in *.
    destruct (initializeEditor_ok (constructed p c)) as (w0 & H0 & _).
    rewrite (bind_ok _ _ _ _ _ H0) in Hl1. rewrite (bind_ok _ _ _ _ _ H0).
    destruct (run es w0) as [[[] w1']|] eqn:Hr1; [|done].
    injection Hl1 as ->. by rewrite (run_snoc _ _ _ _ _ Hr1 Hs). }
  assert (Hw2 : watchdog w2 = None).
  { destruct (unmount_sound w1) as (w2' & Hs' & T).
    cbn in Hs. rewrite Hs in Hs'. injection Hs' as <-.
    inversion T; subst; [done|]. by eapply dp_watchdog. }
  assert (H : watchdog w = None ∧
              ∃ late, trace w = trace w2 ++ late ∧ count is_lifecycle late = 0).
  { destruct (run_sound es' w2) as (w' & Hr' & HP).
    rewrite Hr in Hr'. injection Hr' as <-.
    apply (HP (λ w, watchdog w = None ∧
                 ∃ late, trace w = trace w2 ++ late ∧
                         count is_lifecycle late = 0)).
    - intros w3 e w4 He (Hw3 & late & Ht & Hc) T.
      rewrite Forall_forall in Hes.
      destruct (late_step _ _ _ Hw3 (Hes e He) T) as (Hw4 & t & Ht4 & Hc4).
      split; [done|]. exists (late ++ t). split.
      + by rewrite Ht4, Ht, app_assoc.
      + rewrite count_app. lia.
    - split; [done|]. exists []. by rewrite app_nil_r. }
  destruct H as (Hw & late & Ht & Hc).
  split; [done|]. split.
  - rewrite editor_eq. unfold editor_of. by rewrite Hw.
  - by exists w2, late.
Qed.

(** Timers, a late promise and an error after the unmount. *)
Lemma unmount_is_final_witness :
  watchdog unmounted_world = None ∧
  editor unmounted_world = Ok (None, unmounted_world).
Proof.
  assert (Hes : Forall (λ e, is_update e = false) late_events).
  { repeat constructor. }
  assert (Hl : life props0 ContextWatchdog
                 ([CreatorResolves 0 7; Update props_b ContextWatchdog]
                  ++ Unmount :: late_events) = Ok unmounted_world).
  { vm_compute. reflexivity. }
  destruct (unmount_is_final _ _ _ _ _ Hes Hl) as (Hw & He & _).
  split; [exact Hw|exact He].
Defined.

(** ** The watchdog the component holds *)

Lemma held_ok_frame w w' : frame w w' → held_ok w → held_ok w'.
Proof.
  intros F O. split.
  - intros r s. rewrite (fr_watchdog _ _ F), (fr_heap _ _ F). apply O.
  - intros r. rewrite (fr_watchdog _ _ F), (slot_of_frame r _ _ F). apply O.
  - intros r. rewrite (fr_watchdog _ _ F), (slot_of_frame r _ _ F). apply O.
Qed.

Lemma held_ok_quiet t ts w w' : quiet t ts w w' → held_ok w → held_ok w'.
Proof. intros Q. apply held_ok_frame, Q. Qed.

Lemma held_ok_new_props np nc w :
  held_ok w → held_ok (set_context nc (set_props np w)).
Proof. intros O. split; cbn; apply O. Qed.

Lemma slot_of_slot_upd_setup r f w w' r0 :
  keeps_setup f → slot_upd r f w w' →
  s_creator (slot_of r0 w') = s_creator (slot_of r0 w) ∧
  s_destroyed (slot_of r0 w') = s_destroyed (slot_of r0 w).
Proof.
  intros K U. unfold slot_of. rewrite (su_heap _ _ _ _ U).
  destruct (decide (r0 = r)) as [->|Hne].
  - destruct (heap w r) as [s|a] eqn:Hr; cbn; [apply K|].
    rewrite (su_items _ _ _ _ U), Hr, decide_True by done. apply K.
  - destruct (heap w r0) as [s0|a0]; [done|].
    rewrite (su_items _ _ _ _ U).
    destruct (heap w r) as [s|a]; [done|].
    case_decide as Hi; [|done]. rewrite Hi. apply K.
Qed.

Lemma held_ok_slot_upd r f w w' :
  keeps_setup f → slot_upd r f w w' → held_ok w → held_ok w'.
Proof.
  intros K U O. split.
  - intros r0 s. rewrite (su_watchdog _ _ _ _ U), (su_heap _ _ _ _ U).
    intros Hw. case_decide; [subst|by apply O].
    destruct (heap w r) as [s0|a] eqn:Hr; [|done].
    intros [= <-]. cbn. by eapply (ho_listening _ O).
  - intros r0. rewrite (su_watchdog _ _ _ _ U).
    destruct (slot_of_slot_upd_setup r f w w' r0 K U) as [-> _]. apply O.
  - intros r0. rewrite (su_watchdog _ _ _ _ U).
    destruct (slot_of_slot_upd_setup r f w w' r0 K U) as [_ ->]. apply O.
Qed.

Lemma slot_of_item_upd_setup i f w w' r0 :
  keeps_setup f → item_upd i f w w' →
  s_creator (slot_of r0 w') = s_creator (slot_of r0 w) ∧
  s_destroyed (slot_of r0 w') = s_destroyed (slot_of r0 w).
Proof.
  intros K U. unfold slot_of. rewrite (iu_heap _ _ _ _ U).
  destruct (heap w r0) as [s0|a0]; [done|].
  rewrite (iu_items _ _ _ _ U). case_decide as Hi; [|done].
  rewrite Hi. apply K.
Qed.

Lemma held_ok_item_upd i f w w' :
  keeps_setup f → item_upd i f w w' → held_ok w → held_ok w'.
Proof.
  intros K U O. split.
  - intros r0 s. rewrite (iu_watchdog _ _ _ _ U), (iu_heap _ _ _ _ U).
    apply O.
  - intros r0. rewrite (iu_watchdog _ _ _ _ U).
    destruct (slot_of_item_upd_setup i f w w' r0 K U) as [-> _]. apply O.
  - intros r0. rewrite (iu_watchdog _ _ _ _ U).
    destruct (slot_of_item_upd_setup i f w w' r0 K U) as [_ ->]. apply O.
Qed.

Lemma held_ok_unheld w : watchdog w = None → held_ok w.
Proof. intros H. split; intros r; rewrite H; done. Qed.

Lemma slot_of_init w w' :
  init_post w w' → slot_of (next_ref w) w' = creating_slot (config_of (props w)).
Proof.
  intros P. unfold slot_of. rewrite (ip_heap_new _ _ P).
  destruct (instanceof_ContextWatchdog (context w)) eqn:Hc; [|done].
  cbn. rewrite (ip_items _ _ P), Hc. cbn.
  by rewrite bool_decide_eq_true_2.
Qed.

Lemma held_ok_init w w' : init_post w w' → held_ok w'.
Proof.
  intros P. split.
  - intros r s. rewrite (ip_watchdog _ _ P). intros [= <-].
    rewrite (ip_heap_new _ _ P).
    destruct (instanceof_ContextWatchdog (context w)); [done|].
    by intros [= <-].
  - intros r. rewrite (ip_watchdog _ _ P). intros [= <-].
    by rewrite (slot_of_init _ _ P).
  - intros r. rewrite (ip_watchdog _ _ P). intros [= <-].
    by rewrite (slot_of_init _ _ P).
Qed.

Lemma keeps_setup_resolve o h : keeps_setup (resolve_of o h).
Proof. by destruct o. Qed.

Lemma keeps_setup_reject : keeps_setup slot_reject.
Proof. by intros s. Qed.

Lemma keeps_setup_restart d : keeps_setup (slot_restart d).
Proof. by intros s. Qed.

Lemma held_ok_step w e w' : held_ok w → transition w e w' → held_ok w'.
Proof.
  intros O T. destruct T.
  - by apply held_ok_new_props.
  - apply held_ok_new_props. by eapply held_ok_quiet.
  - by eapply held_ok_init.
  - done.
  - apply held_ok_unheld. by eapply dp_watchdog.
  - done.
  - eapply held_ok_slot_upd; [apply keeps_setup_resolve|done|].
    by eapply held_ok_quiet.
  - done.
  - eapply held_ok_quiet; [done|].
    by eapply held_ok_slot_upd; [apply keeps_setup_reject|..].
  - done.
  - by eapply held_ok_quiet.
  - done.
  - destruct b; [|subst; by eapply held_ok_quiet].
    eapply held_ok_slot_upd; [apply keeps_setup_restart|done|].
    by eapply held_ok_quiet.
  - destruct (_ && _); [|subst; by eapply held_ok_quiet].
    eapply held_ok_item_upd; [apply keeps_setup_restart|done|].
    by eapply held_ok_quiet.
  - eapply held_ok_quiet; [done|]. by eapply held_ok_quiet.
  - by eapply held_ok_quiet.
  - by eapply held_ok_quiet.
  - by eapply held_ok_init.
  - by eapply held_ok_init.
Qed.

Lemma reachable_held_ok w : reachable w → held_ok w.
Proof.
  apply reachable_ind.
  - intros p c w' P. by eapply held_ok_init.
  - intros w1 e w2. apply held_ok_step.
Qed.

(** ** Runtime errors of a Solo watchdog *)

(** The [EditorWatchdog] the component holds carries exactly the one
    [error] listener [_initializeEditor] gave it: when it reports an error
    of its live editor, [onError] is called exactly once, with the error,
    the phase [runtime] and the watchdog's [causesRestart] flag; no ready
    task is queued; and the [editor] accessor is [null] afterwards if the
    watchdog restarts the editor, and still the live editor if it does
    not. *)
Theorem solo_runtime_error_reported_once
    (w : World) (r : wref) (s : SoloWatchdog) (h : handle)
    (e : error) (b : bool) :
  reachable w →
  watchdog w = Some r →
  heap w r = Solo s →
  solo_editor s = Some h →
  ∃ w',
    step (SoloError r e b) w = Ok (tt, w') ∧
    trace w' = trace w ++ [OnError e Runtime b] ∧
    timers w' = timers w ∧
    watchdog w' = Some r ∧
    editor w' = Ok (if b then None else Some h, w').
Proof.
  intros R Hw Hr He.
  pose proof (reachable_held_ok w R) as O.
  pose proof (ho_listening _ O r s Hw Hr) as Hl.
  pose proof (ho_alive _ O r Hw) as Ha.
  unfold slot_of in Ha. rewrite Hr in Ha.
  destruct (solo_error_sound r e b w) as (w' & Hs & T).
  exists w'. split; [done|].
  inversion T as [| | | | | | | | | | |? ? ? Hst
                  |? ? ? s0 h0 w1 ? Hr0 He0 Q Hrest| | | | | |]; subst.
  { destruct (Hst s Hr); congruence. }
  assert (s0 = s) as -> by congruence.
  rewrite Hl in Q. cbn in Q.
  pose proof (q_frame _ _ _ _ Q) as F.
  destruct b.
  - rewrite (su_trace _ _ _ _ Hrest), (su_timers _ _ _ _ Hrest).
    split; [apply Q|]. split; [apply Q|].
    assert (Hw' : watchdog w' = Some r).
    { by rewrite (su_watchdog _ _ _ _ Hrest), (fr_watchdog _ _ F). }
    split; [done|].
    rewrite editor_eq. f_equal. f_equal. unfold editor_of. rewrite Hw'.
    rewrite (su_heap _ _ _ _ Hrest), decide_True by done.
    by rewrite (fr_heap _ _ F), Hr.
  - subst. split; [apply Q|]. split; [apply Q|].
    split; [by rewrite (fr_watchdog _ _ F)|].
    rewrite editor_eq, (editor_of_frame _ _ F). f_equal. f_equal.
    unfold editor_of. by rewrite Hw, Hr.
Qed.

(** The watchdog of a live editor reports an error and restarts it. *)
Lemma solo_runtime_error_reported_once_witness :
  ∃ w',
    step (SoloError 0 4 true) ready_solo = Ok (tt, w') ∧
    trace w' = trace ready_solo ++ [OnError 4 Runtime true] ∧
    editor w' = Ok (None, w').
Proof.
  assert (R : reachable ready_solo).
  { exists props0, PlainContext, [CreatorResolves 0 7].
    vm_compute. reflexivity. }
  assert (Hw : watchdog ready_solo = Some 0) by (vm_compute; reflexivity).
  destruct (heap ready_solo 0) as [s|a] eqn:Hr;
    [|vm_compute in Hr; discriminate].
  assert (He : solo_editor s = Some 7).
  { apply (f_equal (λ o, match o with
                         | Solo s => solo_editor s
                         | Adapter _ => None
                         end)) in Hr.
    vm_compute in Hr. by symmetry. }
  destruct (solo_runtime_error_reported_once ready_solo 0 s 7 4 true
              R Hw Hr He)
    as (w' & Hs & Ht & _ & _ & Hed).
  exists w'. split; [exact Hs|]. split; [exact Ht|exact Hed].
Defined.

(** ** Updates, step by step *)

Lemma update_inert np nc w :
  editor_of w = None → nc = context w →
  step (Update np nc) w = Ok (tt, set_context nc (set_props np w)).
Proof.
  intros He Hnc. cbn. unfold update.
  rewrite (bind_ok _ _ w (context w) w) by done.
  rewrite decide_True by done.
  by rewrite (bind_ok _ _ _ _ _ (scu_no_editor np w He)).
Qed.

(** An update in place, in full. *)
Lemma update_in_place np nc w h :
  editor_of w = Some h → p_id np = p_id (props w) → nc = context w →
  ∃ w', step (Update np nc) w = Ok (tt, w') ∧
    trace w' = trace w ++ in_place_log np h w ∧
    timers w' = timers w ∧
    props w' = np ∧
    watchdog w' = watchdog w ∧
    editor_of w' = Some h ∧
    ∀ h', editors w' h' = editors_after (Update np nc) w h'.
Proof.
  intros He Hid Hnc.
  destruct (step_full (Update np nc) w) as (w' & Hs & T & E).
  exists w'. split; [done|].
  inversion T as [|? ? h0 w1 He0 _ Q| | | | | | | | | | | | | | | | |];
    subst; try congruence.
  assert (h0 = h) as -> by congruence.
  pose proof (q_frame _ _ _ _ Q) as F.
  split; [apply Q|]. split; [apply Q|]. split; [done|].
  split; [apply F|]. split; [|done].
  by rewrite editor_of_new_props, (editor_of_frame _ _ F).
Qed.

(** A creation of the component's watchdog that resolves, in full. *)
Lemma resolve_live r h w :
  watchdog w = Some r →
  s_creator (slot_of r w) = Some CreateEditorClosure →
  s_creating (slot_of r w) = true →
  s_destroyed (slot_of r w) = false →
  ∃ w', step (CreatorResolves r h) w = Ok (tt, w') ∧
    trace w' = trace w ++ created_log h (props w) ∧
    timers w' = timers w ++ [ReadyTask] ∧
    props w' = props w ∧
    context w' = context w ∧
    editor_of w' = Some h ∧
    ∀ h', editors w' h' = editors_after (CreatorResolves r h) w h'.
Proof.
  intros Hw Hc Hg Hd.
  destruct (step_full (CreatorResolves r h) w) as (w' & Hs & T & E).
  exists w'. split; [done|].
  inversion T as [| | | | |? ? Hst|? ? w1 ? _ _ Q U| | | | | | | | | | | |];
    subst.
  { destruct Hst; congruence. }
  pose proof (q_frame _ _ _ _ Q) as F.
  rewrite (su_trace _ _ _ _ U), (su_timers _ _ _ _ U), (su_props _ _ _ _ U),
    (su_context _ _ _ _ U).
  split; [apply Q|]. split; [apply Q|]. split; [apply F|].
  split; [apply F|]. split; [|done].
  assert (Hw' : watchdog w' = Some r).
  { by rewrite (su_watchdog _ _ _ _ U), (fr_watchdog _ _ F). }
  rewrite (editor_of_slot w' r Hw'), (slot_of_slot_upd _ _ _ _ U),
    (slot_of_frame r _ _ F).
  rewrite (su_heap _ _ _ _ U), decide_True by done.
  rewrite (fr_heap _ _ F).
  destruct (heap w r); cbn; [done|]. by rewrite Hd.
Qed.

Lemma creating_no_editor w r :
  invariant w → watchdog w = Some r → s_creating (slot_of r w) = true →
  editor_of w = None.
Proof.
  intros I Hw Hg. rewrite (editor_of_slot w r Hw).
  rewrite (slot_of_wf r w I Hg).
  destruct (heap w r); [done|]. by destruct (s_registered _).
Qed.

Lemma typed_bridge h d w :
  ed_listeners (editors w h) = bridge →
  ∃ w', step (Typed h d) w = Ok (tt, w') ∧
    quiet (forwarded ChangeData h (props w)) (timers w) w w' ∧
    ed_data (editors w' h) = d.
Proof.
  intros Hb. cbn. unfold typed. unfold_m. cbn.
  set (w1 := set_editor h _ w).
  assert (Hb1 : ed_listeners (editors w1 h) = bridge).
  { subst w1. cbn. by rewrite fn_lookup_insert. }
  destruct (fire_bridge h ChangeData w1 Hb1) as (w' & Hw' & Q & E).
  exists w'. rewrite Hw'. split; [done|]. split.
  - destruct Q as [F Ht Hts]. split; [|done..].
    eapply frame_trans; [apply frame_set_editor|done].
  - rewrite E. subst w1. cbn. by rewrite fn_lookup_insert.
Qed.

(** ** What the user typed is not undone *)

(** Once the user has typed [d] into the live editor, an update that
    leaves the context as it is, keeps the [id] and brings a [data] that is
    either the component's current [data] prop (a static prop,
    re-rendered) or the typed content itself (a controlled component
    echoing [onChange]) calls no [setData]: the editor keeps what was
    typed, and only [isReadOnly] is set, when [disabled] is among the new
    props. *)
Theorem typed_content_survives_update
    (w : World) (h : handle) (d : string) (np : Props) :
  reachable w →
  editor w = Ok (Some h, w) →
  p_id np = p_id (props w) →
  p_data np = p_data (props w) ∨ p_data np = Some d →
  ∃ w1 w2,
    step (Typed h d) w = Ok (tt, w1) ∧
    step (Update np (context w)) w1 = Ok (tt, w2) ∧
    trace w2 =
      trace w ++ forwarded ChangeData h (props w) ++
      match p_disabled np with Some b => [SetReadOnly h b] | None => [] end ∧
    ed_data (editors w2 h) = d.
Proof.
  intros R He Hid Hdata. apply editor_of_live in He.
  destruct (reachable_live_ok w R h He) as [Hb _].
  destruct (typed_bridge h d w Hb) as (w1 & Hs1 & Q & Hd).
  pose proof (q_frame _ _ _ _ Q) as F.
  assert (He1 : editor_of w1 = Some h) by by rewrite (editor_of_frame _ _ F).
  assert (Hid1 : p_id np = p_id (props w1)) by by rewrite (fr_props _ _ F).
  assert (Hc1 : context w = context w1) by by rewrite (fr_context _ _ F).
  destruct (update_in_place np (context w) w1 h He1 Hid1 Hc1)
    as (w2 & Hs2 & Ht & _ & _ & _ & _ & E).
  exists w1, w2. split; [done|]. split; [done|].
  assert (Hn : data_differs np w1 h = false).
  { unfold data_differs. apply bool_decide_eq_false_2.
    rewrite (fr_props _ _ F), Hd. intros [H1 H2].
    destruct Hdata; congruence. }
  split.
  - rewrite Ht, (q_trace _ _ _ _ Q). unfold in_place_log.
    by rewrite Hn, <- app_assoc.
  - rewrite E. cbn. rewrite He1, decide_True by done. cbn. by rewrite Hn.
Qed.

(** The user replaces the content, the parent echoes it as [data]. *)
Lemma typed_content_survives_update_witness :
  ∃ w1 w2,
    step (Typed 7 "<p>C</p>") ready_solo = Ok (tt, w1) ∧
    step (Update props_c PlainContext) w1 = Ok (tt, w2) ∧
    trace w2 = trace ready_solo ∧
    ed_data (editors w2 7) = "<p>C</p>".
Proof.
  assert (R : reachable ready_solo).
  { exists props0, PlainContext, [CreatorResolves 0 7].
    vm_compute. reflexivity. }
  assert (He : editor ready_solo = Ok (Some 7, ready_solo)).
  { rewrite editor_eq. apply (f_equal (λ v, Ok (v, ready_solo))).
    vm_compute. reflexivity. }
  assert (Hid : p_id props_c = p_id (props ready_solo))
    by (vm_compute; reflexivity).
  assert (Hf : forwarded ChangeData 7 (props ready_solo) = [])
    by (vm_compute; reflexivity).
  assert (Hc : context ready_solo = PlainContext)
    by (vm_compute; reflexivity).
  destruct (typed_content_survives_update ready_solo 7 "<p>C</p>" props_c
              R He Hid (or_intror eq_refl))
    as (w1 & w2 & Hs1 & Hs2 & Ht & Hd).
  rewrite Hc in Hs2.
  exists w1, w2. split; [exact Hs1|]. split; [exact Hs2|].
  split; [|exact Hd].
  rewrite Ht, Hf. cbn. apply app_nil_r.
Defined.

(** ** Props delivered twice *)

(** Delivering the same props and context a second time does nothing but
    set [isReadOnly] again: whatever the first delivery did (nothing, an
    update in place, a re-creation, or a forced re-initialisation), the
    second calls no [setData], creates and destroys nothing, and leaves
    the content of every editor as it was. *)
Theorem redelivered_props_push_nothing
    (w : World) (np : Props) (nc : CtxValue) :
  ∃ w1 w2,
    step (Update np nc) w = Ok (tt, w1) ∧
    step (Update np nc) w1 = Ok (tt, w2) ∧
    trace w2 =
      trace w1 ++
      match editor_of w1, p_disabled np with
      | Some h, Some b => [SetReadOnly h b]
      | _, _ => []
      end ∧
    watchdog w2 = watchdog w1 ∧
    ∀ h, ed_data (editors w2 h) = ed_data (editors w1 h).
Proof.
  destruct (step_full (Update np nc) w) as (w1 & Hs1 & T & _).
  exists w1.
  assert (Hcase : nc = context w1 ∧
                  (editor_of w1 = None ∨
                   ∃ h, editor_of w1 = Some h ∧ props w1 = np)).
  { inversion T as [? ? He|? ? h w0 He Hid Q
                    |? ? h r w0 w0' He Hid Hw D P| | | | | | | | | | | | | |
                    |? ? w0 Hnc P|]; subst.
    - split; [done|]. left. by rewrite editor_of_new_props.
    - split; [done|]. right. exists h. split; [|done].
      by rewrite editor_of_new_props, (editor_of_frame w w0) by apply Q.
    - split; [by rewrite (ip_context _ _ P)|]. left. by eapply editor_of_init.
    - split; [by rewrite (ip_context _ _ P)|]. left. by eapply editor_of_init. }
  destruct Hcase as [Hnc [He|(h & He & Hp)]].
  - exists (set_context nc (set_props np w1)).
    split; [done|]. split; [by apply update_inert|].
    rewrite He. cbn. by rewrite app_nil_r.
  - assert (Hid : p_id np = p_id (props w1)) by by rewrite Hp.
    destruct (update_in_place np nc w1 h He Hid Hnc)
      as (w2 & Hs2 & Ht & _ & _ & Hw & _ & E).
    exists w2. split; [done|]. split; [done|].
    assert (Hn : data_differs np w1 h = false).
    { unfold data_differs. apply bool_decide_eq_false_2.
      rewrite Hp. by intros [? _]. }
    split; [|split; [done|]].
    + rewrite Ht, He. unfold in_place_log. by rewrite Hn.
    + intros h'. rewrite E. cbn. rewrite He.
      case_decide as Hh; [|done]. destruct Hh as (_ & _ & ->). cbn.
      by rewrite Hn.
Qed.

(** ** Props delivered during a creation *)

(** Props that arrive, under an unchanged context, while the editor is
    being created or restarted are stored and nothing else, even when they
    carry a new [id] or new [data]; when the creation resolves the editor
    is made read-only as the stored [disabled] prop says and gets its
    listeners; and when the same props are delivered again they are
    compared with themselves.  So the [data] of such props is never pushed
    with [setData], and a new [id] never re-creates the editor: the editor
    keeps the content it was created with, from the configuration the
    watchdog called the creator with. *)
Theorem props_during_creation_never_pushed
    (w : World) (r : wref) (np : Props) (h : handle) :
  reachable w →
  watchdog w = Some r →
  s_creating (slot_of r w) = true →
  ∃ w1 w2 w3,
    step (Update np (context w)) w = Ok (tt, w1) ∧
    step (CreatorResolves r h) w1 = Ok (tt, w2) ∧
    step (Update np (context w)) w2 = Ok (tt, w3) ∧
    trace w1 = trace w ∧
    trace w3 =
      trace w ++ created_log h np ++
      match p_disabled np with Some b => [SetReadOnly h b] | None => [] end ∧
    editor w3 = Ok (Some h, w3) ∧
    ed_data (editors w3 h) = initial_content (s_config (slot_of r w)).
Proof.
  intros R Hw Hg.
  pose proof (reachable_invariant w R) as I.
  pose proof (reachable_held_ok w R) as O.
  pose proof (creating_no_editor w r I Hw Hg) as He.
  set (w1 := set_context (context w) (set_props np w)).
  assert (Hs1 : step (Update np (context w)) w = Ok (tt, w1))
    by by apply update_inert.
  assert (Hslot : slot_of r w1 = slot_of r w) by done.
  destruct (resolve_live r h w1)
    as (w2 & Hs2 & Ht2 & _ & Hp2 & Hc2 & He2 & E2);
    [done|rewrite Hslot..|].
  { by apply (ho_creator _ O). }
  { done. }
  { by apply (ho_alive _ O). }
  assert (Hid : p_id np = p_id (props w2)) by by rewrite Hp2.
  assert (Hnc : context w = context w2) by by rewrite Hc2.
  destruct (update_in_place np (context w) w2 h He2 Hid Hnc)
    as (w3 & Hs3 & Ht3 & _ & _ & _ & He3 & E3).
  exists w1, w2, w3. split; [done|]. split; [done|]. split; [done|].
  split; [done|].
  assert (Hn : data_differs np w2 h = false).
  { unfold data_differs. apply bool_decide_eq_false_2.
    rewrite Hp2. by intros [? _]. }
  split; [|split].
  - rewrite Ht3, Ht2. unfold in_place_log. rewrite Hn. cbn.
    by rewrite <- app_assoc.
  - by rewrite editor_eq, He3.
  - rewrite E3. cbn. rewrite He2, decide_True by done. cbn. rewrite Hn, E2.
    cbn. rewrite Hslot, Hg, (ho_creator _ O r Hw). cbn.
    by rewrite bool_decide_eq_true_2.
Qed.

(** New [data] arrives while the first editor is being created. *)
Lemma props_during_creation_never_pushed_witness :
  ∃ w1 w2 w3,
    step (Update props_c PlainContext) creating_solo = Ok (tt, w1) ∧
    step (CreatorResolves 0 7) w1 = Ok (tt, w2) ∧
    step (Update props_c PlainContext) w2 = Ok (tt, w3) ∧
    count is_setData (trace w3) = 0 ∧
    ed_data (editors w3 7) = "<p>A</p>".
Proof.
  assert (R : reachable creating_solo).
  { exists props0, PlainContext, []. vm_compute. reflexivity. }
  assert (Hw : watchdog creating_solo = Some 0) by (vm_compute; reflexivity).
  assert (Hg : s_creating (slot_of 0 creating_solo) = true)
    by (vm_compute; reflexivity).
  assert (Hc : initial_content (s_config (slot_of 0 creating_solo))
               = "<p>A</p>") by (vm_compute; reflexivity).
  assert (Hn : count is_setData
                 (trace creating_solo ++ created_log 7 props_c ++ []) = 0)
    by (vm_compute; reflexivity).
  assert (Hx : context creating_solo = PlainContext)
    by (vm_compute; reflexivity).
  destruct (props_during_creation_never_pushed creating_solo 0 props_c
              7 R Hw Hg)
    as (w1 & w2 & w3 & Hs1 & Hs2 & Hs3 & _ & Ht & _ & Hd).
  rewrite Hx in Hs1, Hs3.
  exists w1, w2, w3. split; [exact Hs1|]. split; [exact Hs2|].
  split; [exact Hs3|]. split.
  - rewrite Ht. exact Hn.
  - rewrite Hd. exact Hc.
Defined.

(** ** When [this.watchdog] changes *)

(** The component's watchdog is replaced in two situations only: when it
    unmounts, and when an update re-initialises it, which is when React
    forces the update because the context changed or when new props carry
    another [id] while an editor is live; a freshly allocated watchdog then
    takes its place.  Nothing else (updates that keep the context and the
    [id] or arrive without a live editor; promises settling; timers;
    errors and restarts; editor events) assigns [this.watchdog]. *)
Theorem watchdog_replaced_only_by_reinitialisation_or_unmount
    (w : World) (e : Event) (w' : World) :
  step e w = Ok (tt, w') →
  (reinitialises e w → watchdog w' = Some (next_ref w)) ∧
  (e = Unmount → watchdog w' = None) ∧
  (¬ reinitialises e w → e ≠ Unmount → watchdog w' = watchdog w).
Proof.
  intros Hs. destruct (step_sound e w) as (w0 & Hs0 & T).
  rewrite Hs in Hs0. injection Hs0 as <-.
  destruct T; cbn [reinitialises]; (split; [|split]); try done.
  - intros [?|[[h0 Hh] _]]; congruence.
  - intros [?|[_ ?]]; congruence.
  - intros _ _. cbn. by rewrite (fr_watchdog w w1) by apply H1.
  - intros _. rewrite (ip_watchdog _ _ H3). cbn.
    by rewrite (dp_next_ref _ _ _ H2).
  - intros Hn. exfalso. apply Hn. right. split; [by rewrite H|done].
  - intros _. by eapply dp_watchdog.
  - intros _ _.
    by rewrite (su_watchdog _ _ _ _ H2), (fr_watchdog w w1) by apply H1.
  - intros _ _.
    by rewrite (fr_watchdog w1 w2), (su_watchdog _ _ _ _ H1) by apply H2.
  - intros _ _. by rewrite (fr_watchdog w w1) by apply H0.
  - intros _ _. destruct b; [|subst; by rewrite (fr_watchdog w w1) by apply H1].
    by rewrite (su_watchdog _ _ _ _ H2), (fr_watchdog w w1) by apply H1.
  - intros _ _.
    destruct (_ && _); [|subst; by rewrite (fr_watchdog w w1) by apply H].
    by rewrite (iu_watchdog _ _ _ _ H0), (fr_watchdog w w1) by apply H.
  - intros _ _.
    by rewrite (fr_watchdog w1 w2), (fr_watchdog w w1) by (apply H0 || apply H).
  - intros _ _. by rewrite (fr_watchdog w w1) by apply H.
  - intros _ _. by rewrite (fr_watchdog w w1) by apply H.
  - intros _. by rewrite (ip_watchdog _ _ H0).
  - intros Hn. exfalso. apply Hn. by left.
  - intros _. by rewrite (ip_watchdog _ _ H).
Qed.

(** A restart of the live editor leaves the watchdog in place. *)
Lemma watchdog_replaced_only_by_reinitialisation_or_unmount_witness :
  step (SoloError 0 4 true) ready_solo = Ok (tt, restarting_solo) ∧
  watchdog restarting_solo = watchdog ready_solo.
Proof.
  assert (Hs : step (SoloError 0 4 true) ready_solo = Ok (tt, restarting_solo))
    by (vm_compute; reflexivity).
  split; [exact Hs|].
  destruct (watchdog_replaced_only_by_reinitialisation_or_unmount _ _ _ Hs)
    as (_ & _ & H).
  apply H; [intros []|discriminate].
Defined.

(** ** A new [id] under an unchanged context *)

(** When an update leaves the context as it is and brings another [id]
    while an editor is live, [shouldComponentUpdate] calls [destroy] on the
    watchdog and clears [this.watchdog], so that the watchdog keeps no
    editor and the accessor is null; only then does [componentDidUpdate]
    make a new watchdog and call its [create], with the configuration of
    the new props. *)
Theorem identity_change_destroys_before_create
    (w : World) (r : wref) (h : handle) (np : Props) :
  reachable w →
  watchdog w = Some r →
  editor w = Ok (Some h, w) →
  p_id np ≠ p_id (props w) →
  ∃ w1 w2 removed warned added,
    shouldComponentUpdate np w = Ok (true, w1) ∧
    trace w1 = trace w ++ WatchdogDestroy r :: removed ∧
    count is_create removed = 0 ∧
    watchdog w1 = None ∧
    s_destroyed (slot_of r w1) = true ∧
    s_editor (slot_of r w1) = None ∧
    step (Update np (context w)) w = Ok (tt, w2) ∧
    trace w2 =
      trace w1 ++ warned ++ WatchdogCreate (next_ref w) (config_of np) :: added ∧
    count is_create warned = 0 ∧
    count is_create added = 0 ∧
    watchdog w2 = Some (next_ref w) ∧
    next_ref w ≠ r ∧
    editor w2 = Ok (None, w2).
Proof.
  intros R Hw He Hid. pose proof (reachable_invariant w R) as I.
  rewrite editor_eq in He. injection He as He.
  destruct (scu_new_id np w h He Hid) as (r' & w1 & Hw' & Hs & D).
  assert (r' = r) as -> by congruence.
  destruct (initializeEditor_ok (set_context (context w) (set_props np w1)))
    as (w2 & Hi & P).
  assert (Hnr : next_ref w1 = next_ref w) by apply D.
  exists w1, w2, (match heap w r with
                  | Adapter a => [ContextRemove (_id a)]
                  | Solo _ => []
                  end),
    (if warns np then [ConsoleWarn] else []),
    (if instanceof_ContextWatchdog (context w)
     then [ContextAdd (next_uid w1) (config_of np)] else []).
  split; [done|]. split; [apply D|]. split; [by destruct (heap w r)|].
  split; [apply D|].
  assert (Hslot : slot_of r w1 = slot_destroy (slot_of r w)).
  { unfold slot_of. rewrite (dp_heap _ _ _ D).
    destruct (heap w r) as [s|a] eqn:Hh; [done|].
    rewrite (dp_items _ _ _ D), Hh. by rewrite decide_True. }
  split; [by rewrite Hslot|]. split; [by rewrite Hslot|].
  split.
  { cbn. unfold update. rewrite (bind_ok _ _ w (context w) w) by done.
    rewrite decide_True by done. rewrite (bind_ok _ _ _ _ _ Hs).
    unfold componentDidUpdate. unfold_m. cbn. by rewrite Hi. }
  split.
  { rewrite (ip_trace _ _ P). cbn. by rewrite Hnr. }
  split; [by destruct (warns np)|].
  split; [by destruct (instanceof_ContextWatchdog (context w))|].
  split; [rewrite (ip_watchdog _ _ P); cbn; by rewrite Hnr|].
  split; [pose proof (inv_allocated _ I r Hw); lia|].
  by rewrite editor_eq, (editor_of_init _ _ P).
Qed.

(** The live component gets props with another [id]. *)
Lemma identity_change_destroys_before_create_witness :
  ∃ w1 w2 removed warned added,
    shouldComponentUpdate props_b ready_solo = Ok (true, w1) ∧
    trace w1 = trace ready_solo ++ WatchdogDestroy 0 :: removed ∧
    watchdog w1 = None ∧
    step (Update props_b PlainContext) ready_solo = Ok (tt, w2) ∧
    trace w2 =
      trace w1 ++ warned ++ WatchdogCreate 1 (config_of props_b) :: added ∧
    watchdog w2 = Some 1.
Proof.
  assert (R : reachable ready_solo).
  { exists props0, PlainContext, [CreatorResolves 0 7].
    vm_compute. reflexivity. }
  assert (Hw : watchdog ready_solo = Some 0) by (vm_compute; reflexivity).
  assert (He : editor ready_solo = Ok (Some 7, ready_solo)).
  { rewrite editor_eq. apply (f_equal (λ v, Ok (v, ready_solo))).
    vm_compute. reflexivity. }
  assert (Hid : p_id props_b ≠ p_id (props ready_solo)).
  { vm_compute. discriminate. }
  assert (Hn : next_ref ready_solo = 1) by (vm_compute; reflexivity).
  assert (Hc : context ready_solo = PlainContext)
    by (vm_compute; reflexivity).
  destruct (identity_change_destroys_before_create ready_solo 0 7 props_b
              R Hw He Hid)
    as (w1 & w2 & rm & wn & ad & H1 & H2 & _ & H3 & _ & _ & H4 & H5 & _
        & _ & H6 & _).
  rewrite Hn in H5, H6. rewrite Hc in H4.
  exists w1, w2, rm, wn, ad.
  split; [exact H1|]. split; [exact H2|]. split; [exact H3|].
  split; [exact H4|]. split; [exact H5|]. exact H6.
Defined.
